(** * The test-step execution engine and its result handler

    A shallow embedding of the automation package:

    - [PlaywrightExecutor] (packages/automation/src/playwright-executor.ts):
      [resolveValue], [performAssertion], [performAction], [executeStep],
      [executeTestCase], [executeTestSuite], [cleanup];
    - [BrowserUtils.retryOperation] (browser-utils);
    - [TestResultHandler] (test-result-handler): [processResult],
      [generateSummary], [generateJunitXml], [escapeXml].

    Strings are byte strings, the UTF-8 form of the strings of the runtime.
    The characters the code inspects are ASCII (braces, word characters, XML
    specials), so that a UTF-8 byte string and the UTF-16 string of the
    runtime are cut at the same places, or white space, which [trim] and
    [parseInt] strip in its UTF-8 form. *)

From Stdlib Require Import ZArith String Ascii List Bool Lia.
From stdpp Require Import base gmap strings list pretty.

Local Open Scope Z_scope.

(** ** JavaScript values, thrown values and completions *)

Module Js.

(** The whole numbers every digit of which a [number] holds and prints:
    [Number.isSafeInteger]. *)
Definition safeInteger (n : Z) : bool := Z.abs n <=? 2 ^ 53 - 1.

(** The values a [Record<string, any>] of test data holds. [Native name] is
    a built-in function (those of [Object.prototype]); [PlainObject] an
    object printed by the default [toString]. [Number n] is the number
    [n], a safe integer: see [representable]. *)
Inductive Value :=
| Undefined
| Null
| Boolean (b : bool)
| Number (n : Z)
| Str (s : string)
| Native (name : string)
| PlainObject.

(** The values of the runtime among these: a number is one when it is a
    safe integer. A larger whole number may be no [number] at all, or one
    printed with an exponent or with rounded digits. *)
Definition representable (v : Value) : bool :=
  match v with
  | Number n => safeInteger n
  | _ => true
  end.

(** [String(n)] for a safe integer: its digits, after a [-] if it is
    negative. *)
Definition numberToString (n : Z) : string := pretty n.

(** [String(v)], for a representable value. *)
Definition toString (v : Value) : string :=
  match v with
  | Undefined => "undefined"
  | Null => "null"
  | Boolean true => "true"
  | Boolean false => "false"
  | Number n => numberToString n
  | Str s => s
  | Native name => "function " +:+ name +:+ "() { [native code] }"
  | PlainObject => "[object Object]"
  end.

(** The numbers [parseInt] returns: [NaN], a whole number or an
    infinity. *)
Inductive Num :=
| NaN
| Finite (n : Z)
| Infinite (negative : bool).

(** The [number] nearest to a whole number, ties going to the even
    significand of 53 bits; from [2^1024] on, an infinity. *)
Definition toDouble (m : Z) : Num :=
  if safeInteger m then Finite m
  else
    let a := Z.abs m in
    let e := Z.log2 a - 52 in
    let q := a / 2 ^ e in
    let r := a mod 2 ^ e in
    let half := 2 ^ (e - 1) in
    let q := if (half <? r) || ((r =? half) && Z.odd q) then q + 1 else q in
    if 2 ^ 1024 <=? q * 2 ^ e then Infinite (m <? 0)
    else Finite (Z.sgn m * (q * 2 ^ e)).

(** [String(x)] of such a number, for a whole number that is safe. *)
Definition numToString (x : Num) : string :=
  match x with
  | NaN => "NaN"
  | Finite n => numberToString n
  | Infinite false => "Infinity"
  | Infinite true => "-Infinity"
  end.

(** The string of the given bytes. *)
Definition bytes (codes : list N) : string :=
  foldr (fun code s => String (ascii_of_N code) s) EmptyString codes.

(** What a [throw] carries: an [Error] with its message, or any other
    value ([err instanceof Error] is false for it). *)
Inductive Thrown :=
| Error (message : string)
| NonError (v : Value).

(** [err instanceof Error ? err.message : fallback]. *)
Definition messageOr (fallback : string) (err : Thrown) : string :=
  match err with
  | Error message => message
  | NonError _ => fallback
  end.

(** The outcome of a call: a value, or a thrown value. *)
Inductive Completion (A : Type) :=
| Normal (a : A)
| Throw (err : Thrown).
Arguments Normal {A} a.
Arguments Throw {A} err.

(** The value of a call that returned. *)
Definition returned {A} (c : Completion A) : option A :=
  match c with
  | Normal a => Some a
  | Throw _ => None
  end.

Definition threw {A} (c : Completion A) : Prop :=
  match c with
  | Throw _ => True
  | Normal _ => False
  end.

(** Truthiness of a string: only the empty string is falsy. *)
Definition truthy (s : string) : bool :=
  match s with
  | EmptyString => false
  | String _ _ => true
  end.

(** [s || fallback] for an optional string [s]. *)
Definition orElse (s : option string) (fallback : string) : string :=
  match s with
  | Some (String c t) => String c t
  | _ => fallback
  end.

(** The names every plain object inherits from [Object.prototype]; for
    these [obj[key]] is defined although [key] is not a key of [obj]. *)
Definition objectPrototype (key : string) : Value :=
  if bool_decide (key ∈ ["hasOwnProperty"; "isPrototypeOf"; "propertyIsEnumerable";
                         "toLocaleString"; "toString"; "valueOf";
                         "__defineGetter__"; "__defineSetter__";
                         "__lookupGetter__"; "__lookupSetter__"])
  then Native key
  else if bool_decide (key = "constructor") then Native "Object"
  else if bool_decide (key = "__proto__") then PlainObject
  else Undefined.

(** [obj[key]] on a plain object: an own property, else an inherited one,
    else [undefined]. *)
Definition get (obj : gmap string Value) (key : string) : Value :=
  match obj !! key with
  | Some v => v
  | None => objectPrototype key
  end.

(** [{...a, ...b}]: the keys of both, those of [b] winning; spreading an
    absent [b] adds nothing. *)
Definition spread (a : gmap string Value) (b : option (gmap string Value))
  : gmap string Value :=
  match b with
  | Some b => b ∪ a
  | None => a
  end.

(** [\w] of a regular expression without flags: [A-Za-z0-9_]. *)
Definition isWordChar (c : ascii) : bool :=
  let n := N_of_ascii c in
  ((48 <=? n) && (n <=? 57) || (65 <=? n) && (n <=? 90)
   || (97 <=? n) && (n <=? 122) || (n =? 95))%N.

(** Every character of [s] satisfies [p]. *)
Fixpoint allChars (p : ascii -> bool) (s : string) : bool :=
  match s with
  | EmptyString => true
  | String c t => p c && allChars p t
  end.

Definition isBrace (c : ascii) : bool :=
  Ascii.eqb c "{" || Ascii.eqb c "}".

(** The double quote, for the templates that contain one. *)
Definition dquote : string := String (ascii_of_nat 34) "".

(** [s.startsWith(p)]. *)
Fixpoint startsWith (p s : string) : bool :=
  match p, s with
  | EmptyString, _ => true
  | String a p', String b s' => if Ascii.eqb a b then startsWith p' s' else false
  | String _ _, EmptyString => false
  end.

(** [s.includes(sub)]. *)
Fixpoint includes (sub s : string) : bool :=
  startsWith sub s ||
  match s with
  | EmptyString => false
  | String _ s' => includes sub s'
  end.

(** [s.replace(pat, repl)] with a string pattern: the first occurrence
    only. *)
Fixpoint replaceFirst (pat repl s : string) : string :=
  if startsWith pat s then repl +:+ String.substring (String.length pat) (String.length s) s
  else match s with
       | EmptyString => EmptyString
       | String c s' => String c (replaceFirst pat repl s')
       end.

End Js.

Export Js(Completion, Normal, Throw).

(** ** Placeholder substitution: [resolveValue] *)

Module Template.

(** The longest run of word characters at the head of [s], and the rest. *)
Fixpoint spanWord (s : string) : string * string :=
  match s with
  | String c t =>
      if Js.isWordChar c
      then let (w, r) := spanWord t in (String c w, r)
      else (EmptyString, s)
  | EmptyString => (EmptyString, EmptyString)
  end.

(** The pattern [\{\{(\w+)\}\}] tried at the head of [s]: the captured key
    and what follows the match. No word character is a brace, so the greedy
    [\w+] takes the whole run and giving characters back never helps. *)
Definition matchPlaceholder (s : string) : option (string * string) :=
  match s with
  | String "{" (String "{" t) =>
      match spanWord t with
      | (String k ks, String "}" (String "}" rest)) => Some (String k ks, rest)
      | _ => None
      end
  | _ => None
  end.

(** [s.replace(/\{\{(\w+)\}\}/g, replacer)]: matches are looked for from
    left to right, each one starting where the previous one ended; the
    text between matches is copied. [skip] counts the characters of the
    current match still to be passed over. *)
Fixpoint replaceFrom (replacer : string -> string -> string) (skip : nat)
  (s : string) : string :=
  match s with
  | EmptyString => EmptyString
  | String c t =>
      match skip with
      | S n => replaceFrom replacer n t
      | O =>
          match matchPlaceholder s with
          | Some (key, _) =>
              replacer ("{{" +:+ key +:+ "}}") key
                +:+ replaceFrom replacer (String.length key + 3) t
          | None => String c (replaceFrom replacer 0 t)
          end
      end
  end.

Definition replacePlaceholders (replacer : string -> string -> string)
  (s : string) : string :=
  replaceFrom replacer 0 s.

(** Some placeholder of the pattern occurs in [s]. *)
Fixpoint hasPlaceholder (s : string) : bool :=
  match matchPlaceholder s with
  | Some _ => true
  | None =>
      match s with
      | String _ t => hasPlaceholder t
      | EmptyString => false
      end
  end.

(** [resolveValue(value, data)]. *)
Definition resolveValue (value : string) (data : gmap string Js.Value) : string :=
  replacePlaceholders
    (fun matched key =>
       match Js.get data key with
       | Js.Undefined => matched
       | v => Js.toString v
       end)
    value.

(** [{ ...testData, ...data }] of [performAction]. *)
Definition mergedData (testData : gmap string Js.Value)
  (data : option (gmap string Js.Value)) : gmap string Js.Value :=
  Js.spread testData data.

(** A key the pattern can capture: one word character or more. *)
Definition isKey (key : string) : bool :=
  Js.truthy key && Js.allChars Js.isWordChar key.

(** The text of a placeholder naming [key]. *)
Definition placeholder (key : string) : string :=
  "{{" +:+ key +:+ "}}".

(** The step-level value of a key, if the step has data and the data has
    the key. *)
Definition stepValue (data : option (gmap string Js.Value)) (key : string)
  : option Js.Value :=
  match data with
  | Some d => d !! key
  | None => None
  end.

End Template.


(** ** The retry helper: [BrowserUtils.retryOperation] *)

Module Retry.

Inductive Backoff := linear | exponential.

(** [UtilsConfig.retryConfig]. *)
Record RetryConfig := {
  maxRetries : Z;
  delay : Z;
  backoff : Backoff
}.

Section RetryOperation.
Context {World T : Type}.

(** The operation is a thunk acting on the outside world; [sleep] is the
    passing of the timer [setTimeout(resolve, ms)]. *)
Variable operation : World -> Completion T * World.
Variable sleep : Z -> World -> World.

(** What a run does that can be observed from outside. *)
Inductive Event :=
| Invoked (outcome : Completion T)
| Warned (message : string)
| Slept (ms : Z).

Record Run := {
  world : World;
  events : list Event
}.

Definition backoffDelay (retryConfig : RetryConfig) (attempt : Z) : Z :=
  match backoff retryConfig with
  | exponential => delay retryConfig * 2 ^ attempt
  | linear => delay retryConfig
  end.

Definition warning (attempt delay : Z) : string :=
  "Operation failed (attempt " +:+ pretty (attempt + 1)
    +:+ "), retrying in " +:+ pretty delay +:+ "ms...".

(** The [for] loop. [remaining] is the number of iterations its header
    still allows, [maxRetries + 1 - attempt], none when
    [attempt > maxRetries]; after the loop comes [throw lastError!],
    which throws [undefined] when no attempt was made. *)
Fixpoint retryLoop (retryConfig : RetryConfig) (remaining : nat) (attempt : Z)
    (lastError : option Js.Thrown) (r : Run) : Completion T * Run :=
  match remaining with
  | O => (Throw (default (Js.NonError Js.Undefined) lastError), r)
  | S remaining' =>
      let (outcome, w1) := operation (world r) in
      let r1 := {| world := w1; events := events r ++ [Invoked outcome] |} in
      match outcome with
      | Normal v => (Normal v, r1)
      | Throw error =>
          if attempt =? maxRetries retryConfig then (Throw error, r1)
          else
            let delay := backoffDelay retryConfig attempt in
            let r2 := {| world := sleep delay w1;
                         events := events r1 ++ [Warned (warning attempt delay);
                                                 Slept delay] |} in
            retryLoop retryConfig remaining' (attempt + 1) (Some error) r2
      end
  end.

Definition retryOperation (retryConfig : RetryConfig) (r : Run)
  : Completion T * Run :=
  retryLoop retryConfig (Z.to_nat (maxRetries retryConfig + 1)) 0 None r.

End RetryOperation.

Arguments Event T : clear implicits.
Arguments Run World T : clear implicits.

(** An operation that fails twice and then returns the number of calls made
    before; the world is that number. *)
Definition flaky (calls : nat) : Completion nat * nat :=
  if (calls <? 2)%nat then (Throw (Js.Error "not yet"), S calls)
  else (Normal calls, S calls).

Definition noSleep (ms : Z) (calls : nat) : nat := calls.

Definition defaultRetryConfig : RetryConfig :=
  {| maxRetries := 3; delay := 1000; backoff := exponential |}.

End Retry.

(** ** What the retry policy asks for *)

Module RetrySpec.
Import Retry.

(** The wait after failed attempt [i]: [delay] under linear backoff,
    [delay * 2^i] under exponential backoff. *)
Definition waits (retryConfig : RetryConfig) (i : Z) : Z :=
  match backoff retryConfig with
  | linear => delay retryConfig
  | exponential => delay retryConfig * 2 ^ i
  end.

Section Attempts.
Context {World T : Type}.
Variable operation : World -> Completion T * World.
Variable sleep : Z -> World -> World.

(** The attempts that start with attempt [i] in the world [w], had the
    given outcomes and left the world [w']: each invokes the operation in
    the world left to it, and every attempt but the last is followed by
    the wait of the policy, which passes in the world. *)
Fixpoint attempts (retryConfig : RetryConfig) (i : Z) (w : World)
    (outcomes : list (Completion T)) (w' : World) : Prop :=
  match outcomes with
  | [] => False
  | outcome :: rest =>
      match rest with
      | [] => operation w = (outcome, w')
      | _ :: _ =>
          exists w1,
            operation w = (outcome, w1)
            /\ attempts retryConfig (i + 1) (sleep (waits retryConfig i) w1)
                 rest w'
      end
  end.

(** The events of these attempts: after each invocation but the last, a
    warning and a pause of that wait. *)
Fixpoint retryTrace (retryConfig : RetryConfig) (attempt : Z)
    (outcomes : list (Completion T)) : list (Event T) :=
  match outcomes with
  | [] => []
  | outcome :: rest =>
      Invoked outcome ::
      match rest with
      | [] => []
      | _ :: _ =>
          Warned (warning attempt (waits retryConfig attempt))
          :: Slept (waits retryConfig attempt)
          :: retryTrace retryConfig (attempt + 1) rest
      end
  end.

End Attempts.
End RetrySpec.

(** ** Results: the records of core/src/types.ts *)

Inductive Status := PASSED | FAILED | FLAKY | SKIPPED.

Definition Status_eqb (a b : Status) : bool :=
  match a, b with
  | PASSED, PASSED | FAILED, FAILED | FLAKY, FLAKY | SKIPPED, SKIPPED => true
  | _, _ => false
  end.

(** A step never gets the status [FLAKY]: its status is one of the three
    others. *)
Module StepResult.
Record t := {
  step : Z;
  status : Status;
  duration : Z;
  error : option string
}.
End StepResult.

Module Artifacts.
Record t := {
  screenshot : option string;
  logs : option (list string);
  video : option string
}.
Definition empty : t := {| screenshot := None; logs := None; video := None |}.
End Artifacts.

Module BrowserInfo.
Record t := {
  name : string;
  version : string;
  headless : bool
}.
End BrowserInfo.

(** A [TestResult] object. Dates are milliseconds since the epoch. The
    object keeps its own properties in the order they were added: [keys] is
    that order. [browserInfo] is the property [processResult] adds. *)
Module TestResult.
Record t := {
  testCaseId : string;
  status : Status;
  duration : Z;
  error : option string;
  stepResults : option (list StepResult.t);
  artifacts : option Artifacts.t;
  executedAt : Z;
  browserInfo : option BrowserInfo.t;
  keys : list string
}.

(** [obj.key = ...] on the order of the properties: a new key goes last,
    a known one keeps its place. *)
Definition withKey (key : string) (keys : list string) : list string :=
  if bool_decide (key ∈ keys) then keys else keys ++ [key].
End TestResult.

(** ** The result handler: [TestResultHandler] *)

Module Handler.

(** [process.env] and [process.platform], as far as they are read. *)
Record Process := {
  PLAYWRIGHT_BROWSER : option string;
  PLAYWRIGHT_VERSION : option string;
  PLAYWRIGHT_HEADLESS : option string;
  platform : string
}.

(** [TestExecutionEvents] says which listeners are registered. The handler
    of the executor is made without listeners; those of the handler of the
    engine are the caller's. A listener is taken not to write to the
    result it is handed. In [processResult] below every listener that is
    called returns; listeners that throw are those of the engine, see
    [Engine.processResult]. *)
Record TestExecutionEvents := {
  onTestComplete : bool;
  onTestFailure : bool
}.

Inductive Notification :=
| TestComplete (testId : string) (result : TestResult.t)
| TestFailure (testId : string) (error : string).

Record TestResultHandler := {
  events : TestExecutionEvents;
  results : list TestResult.t;
  startTime : Z;
  (** the calls made to the listeners, in order *)
  notified : list Notification
}.

Definition getBrowserInfo (proc : Process) : BrowserInfo.t :=
  {| BrowserInfo.name := Js.orElse (PLAYWRIGHT_BROWSER proc) "chromium";
     BrowserInfo.version := Js.orElse (PLAYWRIGHT_VERSION proc) "unknown";
     BrowserInfo.headless :=
       negb (bool_decide (PLAYWRIGHT_HEADLESS proc = Some "false")) |}.

(** [processResult(result)] when the listeners it calls return; [now] is
    the time [new Date()] reads. *)
Definition processResult (h : TestResultHandler) (result : TestResult.t)
    (now : Z) (proc : Process) : TestResult.t * TestResultHandler :=
  (* Add result to collection *)
  let results := results h ++ [result] in
  (* Emit completion event *)
  let notified :=
    if onTestComplete (events h)
    then notified h ++ [TestComplete (TestResult.testCaseId result) result]
    else notified h in
  (* Emit failure event if test failed *)
  let notified :=
    if Status_eqb (TestResult.status result) FAILED && onTestFailure (events h)
    then notified ++ [TestFailure (TestResult.testCaseId result)
                        (Js.orElse (TestResult.error result) "Test failed")]
    else notified in
  (* Enhance result with additional metadata: { ...result, executedAt } *)
  let enhancedResult :=
    {| TestResult.testCaseId := TestResult.testCaseId result;
       TestResult.status := TestResult.status result;
       TestResult.duration := TestResult.duration result;
       TestResult.error := TestResult.error result;
       TestResult.stepResults := TestResult.stepResults result;
       TestResult.artifacts := TestResult.artifacts result;
       TestResult.executedAt := now;
       TestResult.browserInfo := TestResult.browserInfo result;
       TestResult.keys := TestResult.withKey "executedAt" (TestResult.keys result) |} in
  (* Add browser info *)
  let enhancedResult :=
    {| TestResult.testCaseId := TestResult.testCaseId enhancedResult;
       TestResult.status := TestResult.status enhancedResult;
       TestResult.duration := TestResult.duration enhancedResult;
       TestResult.error := TestResult.error enhancedResult;
       TestResult.stepResults := TestResult.stepResults enhancedResult;
       TestResult.artifacts := TestResult.artifacts enhancedResult;
       TestResult.executedAt := TestResult.executedAt enhancedResult;
       TestResult.browserInfo := Some (getBrowserInfo proc);
       TestResult.keys := TestResult.withKey "browserInfo" (TestResult.keys enhancedResult) |} in
  (enhancedResult,
   {| events := events h; results := results; startTime := startTime h;
      notified := notified |}).

Module Environment.
Record t := {
  browser : string;
  version : string;
  platform : string
}.
End Environment.

Module TestSummary.
Record t := {
  total : nat;
  passed : nat;
  failed : nat;
  skipped : nat;
  flaky : nat;
  duration : Z;
  startTime : Z;
  endTime : Z;
  environment : Environment.t
}.
End TestSummary.

Definition withStatus (s : Status) (results : list TestResult.t) : list TestResult.t :=
  filter (fun r => Status_eqb (TestResult.status r) s = true) results.

(** [generateSummary(results = this.results)]; an absent argument stands
    for the results the handler holds. *)
Definition generateSummary (h : TestResultHandler)
    (results : option (list TestResult.t)) (now : Z) (proc : Process)
  : TestSummary.t :=
  let results := default (Handler.results h) results in
  let endTime := now in
  let totalDuration :=
    fold_left (fun sum result => sum + TestResult.duration result) results 0 in
  {| TestSummary.total := length results;
     TestSummary.passed := length (withStatus PASSED results);
     TestSummary.failed := length (withStatus FAILED results);
     TestSummary.skipped := length (withStatus SKIPPED results);
     TestSummary.flaky := length (withStatus FLAKY results);
     TestSummary.duration := totalDuration;
     TestSummary.startTime := startTime h;
     TestSummary.endTime := endTime;
     TestSummary.environment :=
       {| Environment.browser := Js.orElse (PLAYWRIGHT_BROWSER proc) "chromium";
          Environment.version := Js.orElse (PLAYWRIGHT_VERSION proc) "unknown";
          Environment.platform := platform proc |} |}.

(** [str.replace(/c/g, by)] for a single character [c]. *)
Fixpoint replaceAllChar (c : ascii) (by_ : string) (str : string) : string :=
  match str with
  | EmptyString => EmptyString
  | String x t =>
      (if Ascii.eqb x c then by_ else String x EmptyString)
        +:+ replaceAllChar c by_ t
  end.

Definition escapeXml (str : string) : string :=
  replaceAllChar "'" "&apos;"
    (replaceAllChar (ascii_of_nat 34) "&quot;"
       (replaceAllChar ">" "&gt;"
          (replaceAllChar "<" "&lt;"
             (replaceAllChar "&" "&amp;" str)))).

(** [(ms / 1000).toFixed(3)] for a whole number of milliseconds (exact
    below 2^52): the seconds with three decimals. *)
Definition secondsFixed3 (ms : Z) : string :=
  let pad (n : Z) : string :=
    (if n <? 10 then "00" else if n <? 100 then "0" else "") +:+ pretty n in
  (if ms <? 0 then "-" else "")
    +:+ pretty (Z.abs ms / 1000) +:+ "." +:+ pad (Z.abs ms mod 1000).

Definition quoted (s : string) : string := Js.dquote +:+ s +:+ Js.dquote.

Definition newline : string := String (ascii_of_nat 10) EmptyString.

(** [strings.join(sep)]. *)
Fixpoint join (sep : string) (strings : list string) : string :=
  match strings with
  | [] => EmptyString
  | [s] => s
  | s :: rest => s +:+ sep +:+ join sep rest
  end.

(** The [<testcase>] element of one result. *)
Definition junitTestCase (result : TestResult.t) : string :=
  let testCase :=
    "<testcase name=" +:+ quoted (TestResult.testCaseId result)
      +:+ " time=" +:+ quoted (secondsFixed3 (TestResult.duration result)) +:+ ">" in
  let testCase :=
    match TestResult.status result with
    | FAILED =>
        testCase +:+ "<failure message="
          +:+ quoted (escapeXml (Js.orElse (TestResult.error result) "Test failed"))
          +:+ ">" +:+ escapeXml (Js.orElse (TestResult.error result) "")
          +:+ "</failure>"
    | SKIPPED => testCase +:+ "<skipped/>"
    | _ => testCase
    end in
  testCase +:+ "</testcase>".

Definition generateJunitXml (summary : TestSummary.t) (results : list TestResult.t)
  : string :=
  let testCases := join newline (map junitTestCase results) in
  "<?xml version=" +:+ quoted "1.0" +:+ " encoding=" +:+ quoted "UTF-8" +:+ "?>"
    +:+ newline
    +:+ "<testsuite name=" +:+ quoted "AI Testing Agent"
    +:+ " tests=" +:+ quoted (pretty (TestSummary.total summary))
    +:+ " failures=" +:+ quoted (pretty (TestSummary.failed summary))
    +:+ " skipped=" +:+ quoted (pretty (TestSummary.skipped summary))
    +:+ " time=" +:+ quoted (secondsFixed3 (TestSummary.duration summary)) +:+ ">"
    +:+ newline +:+ testCases +:+ newline +:+ "</testsuite>".

(** The document [exportToJunit(filePath, results = this.results)] writes
    to [filePath]. *)
Definition exportToJunit (h : TestResultHandler)
    (results : option (list TestResult.t)) (now : Z) (proc : Process) : string :=
  let summary := generateSummary h results now proc in
  generateJunitXml summary (default (Handler.results h) results).

End Handler.

(** Sample data for the result handler. *)
Module HandlerSamples.
Import Handler.

Definition noEnv : Process :=
  {| PLAYWRIGHT_BROWSER := None; PLAYWRIGHT_VERSION := None;
     PLAYWRIGHT_HEADLESS := None; platform := "linux" |}.

Definition freshHandler : TestResultHandler :=
  {| events := {| onTestComplete := false; onTestFailure := false |};
     results := []; startTime := 0; notified := [] |}.

(** A result as [executeTestCase] builds it, executed at time 1000. *)
Definition passedAt1000 : TestResult.t :=
  {| TestResult.testCaseId := "login"; TestResult.status := PASSED;
     TestResult.duration := 42; TestResult.error := None;
     TestResult.stepResults := Some []; TestResult.artifacts := Some Artifacts.empty;
     TestResult.executedAt := 1000; TestResult.browserInfo := None;
     TestResult.keys := ["testCaseId"; "status"; "duration"; "stepResults";
                         "artifacts"; "executedAt"] |}.

(** A failed result whose identifier and message hold XML specials. *)
Definition failedWithSpecials : TestResult.t :=
  {| TestResult.testCaseId := "cart<checkout>&pay"; TestResult.status := FAILED;
     TestResult.duration := 1500; TestResult.error := Some "expected a<b & c>d";
     TestResult.stepResults := None; TestResult.artifacts := None;
     TestResult.executedAt := 0; TestResult.browserInfo := None;
     TestResult.keys := ["testCaseId"; "status"; "duration"; "error"; "executedAt"] |}.

(** The sum of the [duration] fields. *)
Definition sumOfDurations (results : list TestResult.t) : Z :=
  foldr (fun r sum => TestResult.duration r + sum) 0 results.

End HandlerSamples.

(** The escaping of the JUnit document, character by character. *)
Module JunitSpec.

(** What [escapeXml] makes of one character. *)
Definition escapeChar (c : ascii) : string :=
  if Ascii.eqb c "&" then "&amp;"
  else if Ascii.eqb c "<" then "&lt;"
  else if Ascii.eqb c ">" then "&gt;"
  else if Ascii.eqb c (ascii_of_nat 34) then "&quot;"
  else if Ascii.eqb c "'" then "&apos;"
  else String c EmptyString.

(** The characters that delimit markup and attribute values. *)
Definition isMarkup (c : ascii) : bool :=
  Ascii.eqb c "<" || Ascii.eqb c ">" || Ascii.eqb c (ascii_of_nat 34)
  || Ascii.eqb c "'".

End JunitSpec.

(** ** The executor: [PlaywrightExecutor] *)

Module TestStep.
Record t := {
  step : Z;
  action : string;
  expected : string;
  element : option string;
  data : option (gmap string Js.Value)
}.
End TestStep.

(** The fields of a [TestCase] the executor reads. *)
Module TestCase.
Record t := {
  id : string;
  steps : list TestStep.t;
  testData : gmap string Js.Value
}.
End TestCase.

(** The fields of [ExecutionOptions] the executor reads. *)
Module ExecutionOptions.
Record t := {
  captureOnSuccess : option bool;
  stopOnFailure : option bool;
  delayBetweenTests : option Z
}.
End ExecutionOptions.

Module Executor.
Import Handler.

(** *** The runtime helpers *)

(** The white space [trim] and [parseInt] strip: the WhiteSpace and
    LineTerminator code points of ECMAScript, each in its UTF-8 form
    (tab to carriage return, space, U+00A0, U+1680, U+2000 to U+200A,
    U+2028, U+2029, U+202F, U+205F, U+3000 and U+FEFF). *)
Definition whiteSpace : list string :=
  Js.bytes <$>
    [ [9]; [10]; [11]; [12]; [13]; [32];
      [194; 160];
      [225; 154; 128];
      [226; 128; 128]; [226; 128; 129]; [226; 128; 130]; [226; 128; 131];
      [226; 128; 132]; [226; 128; 133]; [226; 128; 134]; [226; 128; 135];
      [226; 128; 136]; [226; 128; 137]; [226; 128; 138];
      [226; 128; 168]; [226; 128; 169]; [226; 128; 175];
      [226; 129; 159];
      [227; 128; 128];
      [239; 187; 191] ]%N.

(** What is left of [s] after the prefix [p], if [s] starts with it. *)
Fixpoint dropPrefix (p s : string) : option string :=
  match p, s with
  | EmptyString, _ => Some s
  | String a p, String b s => if Ascii.eqb a b then dropPrefix p s else None
  | String _ _, EmptyString => None
  end.

(** What is left of [s] after one entry of the table, if it starts with
    one. *)
Fixpoint stripAny (table : list string) (s : string) : option string :=
  match table with
  | p :: table =>
      match dropPrefix p s with
      | Some t => Some t
      | None => stripAny table s
      end
  | [] => None
  end.

(** Entries of the table are taken off the start of [s] as long as there is
    one, at most [fuel] times. *)
Fixpoint strip (table : list string) (fuel : nat) (s : string) : string :=
  match fuel with
  | S fuel =>
      match stripAny table s with
      | Some t => strip table fuel t
      | None => s
      end
  | O => s
  end.

(** [s.trimStart()]: no more entries are taken off than [s] has
    characters. *)
Definition trimStart (s : string) : string :=
  strip whiteSpace (String.length s) s.

(** [s.trimEnd()]: the same from the end. *)
Definition trimEnd (s : string) : string :=
  String.rev (strip (String.rev <$> whiteSpace) (String.length s) (String.rev s)).

(** [s.trim()]. *)
Definition trim (s : string) : string := trimEnd (trimStart s).

Definition digit (radix : Z) (c : ascii) : option Z :=
  let n := Z.of_N (N_of_ascii c) in
  let d := if (48 <=? n) && (n <=? 57) then n - 48
           else if (97 <=? n) && (n <=? 122) then n - 87
           else if (65 <=? n) && (n <=? 90) then n - 55
           else radix in
  if d <? radix then Some d else None.

Fixpoint digits (radix : Z) (acc : option Z) (s : string) : option Z :=
  match s with
  | String c t =>
      match digit radix c with
      | Some d => digits radix (Some (radix * default 0 acc + d)) t
      | None => acc
      end
  | EmptyString => acc
  end.

(** The sign [parseInt] reads, and what follows it. *)
Definition signOf (s : string) : Z * string :=
  match s with
  | String "-" t => (-1, t)
  | String "+" t => (1, t)
  | _ => (1, s)
  end.

(** The radix [parseInt] reads without a radix argument: sixteen after
    [0x] or [0X], which is taken off, ten otherwise. *)
Definition radixOf (s : string) : Z * string :=
  if Js.startsWith "0x" s || Js.startsWith "0X" s
  then (16, String.substring 2 (String.length s) s)
  else (10, s).

(** [parseInt(s)]: white space, a sign, [0x] for base sixteen, then the
    digits, read as a whole number and rounded to a double; without a
    digit the result is [NaN]. (The sign of a zero is not kept: it does
    not show in the string form.) *)
Definition parseInt (s : string) : Js.Num :=
  let (sign, s) := signOf (trimStart s) in
  let (radix, s) := radixOf s in
  match digits radix None s with
  | Some n => Js.toDouble (sign * n)
  | None => Js.NaN
  end.

(** A selector that is given: [if (element)] holds for a string that is
    present and not empty. *)
Definition given (element : option string) : option string :=
  match element with
  | Some (String c t) => Some (String c t)
  | _ => None
  end.

(** *** The browser *)

(** The calls made to Playwright. *)
Inductive Call :=
| Goto (url : string)
| Click (selector : string)
| Fill (selector value : string)
| TypeText (selector text : string)
| SelectOption (selector option : string)
| WaitForTimeout (ms : Js.Num)
| WaitForSelector (selector : string)
| WaitForLoadState (state : string)
| ScrollIntoViewIfNeeded (selector : string)
| EvaluateScrollToBottom
| Hover (selector : string)
| KeyboardPress (key : string)
| LocatorWaitFor (selector : string) (state : option string)
| TextContent (selector : string)
| Url
| Title
| Screenshot (path : string) (fullPage : bool)
| EvaluateTestLogs
| PageClose
| ContextClose
| BrowserClose.

(** What lies outside the executor: the browser driven through Playwright,
    the clock and the process. Every call acts on the world and completes
    with a value or throws. *)
Record Runtime (World : Type) := {
  perform : Call -> World -> Completion unit * World;
  textContent : string -> World -> Completion (option string) * World;
  url : World -> string;
  title : World -> Completion string * World;
  evaluateTestLogs : World -> Completion (list string) * World;
  dateNow : World -> Z * World;
  process : World -> Process
}.
Arguments perform {World}.
Arguments textContent {World}.
Arguments url {World}.
Arguments title {World}.
Arguments evaluateTestLogs {World}.
Arguments dateNow {World}.
Arguments process {World}.

Inductive Page := thePage.
Inductive BrowserContext := theContext.
Inductive Browser := theBrowser.

(** The variables of the step loop of [executeTestCase]. *)
Record CaseVars := {
  stepResults : list StepResult.t;
  error : option string;
  status : Status
}.

Section Executor.
Context {World : Type}.
Variable rt : Runtime World.

(** The executor and the world it runs in. The last three fields are
    histories kept for the statements, never read by the code: the
    calls made to Playwright, the steps whose action was run with the
    outcome of the action, and the test cases [executeTestCase] was
    called on. *)
Record Executor := {
  browser : option Browser;
  context : option BrowserContext;
  page : option Page;
  resultHandler : TestResultHandler;
  world : World;
  console : list string;
  calls : list Call;
  attemptedSteps : list (TestStep.t * Completion unit);
  attemptedCases : list string
}.

Definition M (A : Type) : Type := Executor -> Completion A * Executor.

Definition ret {A} (a : A) : M A := fun e => (Normal a, e).

Definition bind {A B} (m : M A) (k : A -> M B) : M B :=
  fun e =>
    match m e with
    | (Normal a, e') => k a e'
    | (Throw err, e') => (Throw err, e')
    end.

Definition throw {A} (err : Js.Thrown) : M A := fun e => (Throw err, e).

(** [try { m } catch (err) { ... }], the completion of [m] handed on as
    a value. *)
Definition try {A} (m : M A) : M (Completion A) :=
  fun e => let (r, e') := m e in (Normal r, e').

Notation "'do' x <- m ; k" := (bind m (fun x => k))
  (at level 10, x name, m at level 100, k at level 200).
Notation "'run' m ; k" := (bind m (fun _ => k))
  (at level 10, m at level 100, k at level 200).

Definition withWorld (w : World) (e : Executor) : Executor :=
  {| browser := browser e; context := context e; page := page e;
     resultHandler := resultHandler e; world := w; console := console e;
     calls := calls e; attemptedSteps := attemptedSteps e;
     attemptedCases := attemptedCases e |}.

Definition withCall (c : Call) (e : Executor) : Executor :=
  {| browser := browser e; context := context e; page := page e;
     resultHandler := resultHandler e; world := world e; console := console e;
     calls := calls e ++ [c]; attemptedSteps := attemptedSteps e;
     attemptedCases := attemptedCases e |}.

Definition withHandles (b : option Browser) (c : option BrowserContext)
    (p : option Page) (e : Executor) : Executor :=
  {| browser := b; context := c; page := p;
     resultHandler := resultHandler e; world := world e; console := console e;
     calls := calls e; attemptedSteps := attemptedSteps e;
     attemptedCases := attemptedCases e |}.

Definition withResultHandler (h : TestResultHandler) (e : Executor) : Executor :=
  {| browser := browser e; context := context e; page := page e;
     resultHandler := h; world := world e; console := console e;
     calls := calls e; attemptedSteps := attemptedSteps e;
     attemptedCases := attemptedCases e |}.

Definition withConsole (line : string) (e : Executor) : Executor :=
  {| browser := browser e; context := context e; page := page e;
     resultHandler := resultHandler e; world := world e;
     console := console e ++ [line];
     calls := calls e; attemptedSteps := attemptedSteps e;
     attemptedCases := attemptedCases e |}.

Definition withAttemptedStep (step : TestStep.t) (outcome : Completion unit)
    (e : Executor) : Executor :=
  {| browser := browser e; context := context e; page := page e;
     resultHandler := resultHandler e; world := world e; console := console e;
     calls := calls e;
     attemptedSteps := attemptedSteps e ++ [(step, outcome)];
     attemptedCases := attemptedCases e |}.

Definition withAttemptedCase (id : string) (e : Executor) : Executor :=
  {| browser := browser e; context := context e; page := page e;
     resultHandler := resultHandler e; world := world e; console := console e;
     calls := calls e; attemptedSteps := attemptedSteps e;
     attemptedCases := attemptedCases e ++ [id] |}.

(** The histories are written by these two and by the calls below. *)
Definition recordStep (step : TestStep.t) (outcome : Completion unit) : M unit :=
  fun e => (Normal tt, withAttemptedStep step outcome e).

Definition recordCase (id : string) : M unit :=
  fun e => (Normal tt, withAttemptedCase id e).

Definition getPage : M (option Page) := fun e => (Normal (page e), e).

(** A call to Playwright whose value is not used. *)
Definition call (c : Call) : M unit :=
  fun e =>
    let (r, w) := perform rt c (world e) in
    (r, withWorld w (withCall c e)).

Definition callTextContent (selector : string) : M (option string) :=
  fun e =>
    let (r, w) := textContent rt selector (world e) in
    (r, withWorld w (withCall (TextContent selector) e)).

Definition callUrl : M string :=
  fun e => (Normal (url rt (world e)), withCall Url e).

Definition callTitle : M string :=
  fun e =>
    let (r, w) := title rt (world e) in
    (r, withWorld w (withCall Title e)).

Definition callEvaluateTestLogs : M (list string) :=
  fun e =>
    let (r, w) := evaluateTestLogs rt (world e) in
    (r, withWorld w (withCall EvaluateTestLogs e)).

(** [Date.now()], [new Date()]. *)
Definition now : M Z :=
  fun e => let (t, w) := dateNow rt (world e) in (Normal t, withWorld w e).

Definition consoleLog (line : string) : M unit :=
  fun e => (Normal tt, withConsole line e).

(** *** [performAssertion] *)

Definition performAssertion (step : TestStep.t)
    (testData : gmap string Js.Value) : M unit :=
  do p <- getPage;
  match p with
  | None => throw (Js.Error "Page not available")
  | Some _ =>
      let expectedValue :=
        Template.resolveValue (TestStep.expected step) testData in
      match given (TestStep.element step) with
      | Some element =>
          (* Element-based assertion *)
          if String.eqb expectedValue "visible" then
            call (LocatorWaitFor element (Some "visible"))
          else if String.eqb expectedValue "hidden" then
            call (LocatorWaitFor element (Some "hidden"))
          else
            (* Text content assertion *)
            (run call (LocatorWaitFor element None);
             do actualText <- callTextContent element;
             if bool_decide (trim <$> actualText = Some expectedValue)
             then ret tt
             else throw (Js.Error ("Expected " +:+ quoted expectedValue
                                     +:+ " but got "
                                     +:+ quoted (default "null" actualText))))
      | None =>
          (* URL or title assertion *)
          if Js.startsWith "url:" expectedValue then
            let expectedUrl := Js.replaceFirst "url:" "" expectedValue in
            do currentUrl <- callUrl;
            if Js.includes expectedUrl currentUrl then ret tt
            else throw (Js.Error ("Expected URL to contain " +:+ quoted expectedUrl
                                    +:+ " but got " +:+ quoted currentUrl))
          else if Js.startsWith "title:" expectedValue then
            let expectedTitle := Js.replaceFirst "title:" "" expectedValue in
            do actualTitle <- callTitle;
            if Js.includes expectedTitle actualTitle then ret tt
            else throw (Js.Error ("Expected title to contain "
                                    +:+ quoted expectedTitle
                                    +:+ " but got " +:+ quoted actualTitle))
          else ret tt
      end
  end.

(** *** [performAction] *)

Definition selectorRequired (action : string) : Js.Thrown :=
  Js.Error ("Element selector required for " +:+ action +:+ " action").

Definition performAction (step : TestStep.t)
    (testData : gmap string Js.Value) : M unit :=
  do p <- getPage;
  match p with
  | None => throw (Js.Error "Page not available")
  | Some _ =>
      let action := TestStep.action step in
      let element := given (TestStep.element step) in
      let mergedData := Template.mergedData testData (TestStep.data step) in
      let resolved := Template.resolveValue (TestStep.expected step) mergedData in
      if String.eqb action "navigate" then call (Goto resolved)
      else if String.eqb action "click" then
        match element with
        | None => throw (selectorRequired "click")
        | Some element => call (Click element)
        end
      else if String.eqb action "fill" then
        match element with
        | None => throw (selectorRequired "fill")
        | Some element => call (Fill element resolved)
        end
      else if String.eqb action "type" then
        match element with
        | None => throw (selectorRequired "type")
        | Some element => call (TypeText element resolved)
        end
      else if String.eqb action "select" then
        match element with
        | None => throw (selectorRequired "select")
        | Some element => call (SelectOption element resolved)
        end
      else if String.eqb action "wait" then
        call (WaitForTimeout (parseInt resolved))
      else if String.eqb action "waitForElement" then
        match element with
        | None => throw (selectorRequired "waitForElement")
        | Some element => call (WaitForSelector element)
        end
      else if String.eqb action "waitForNavigation" then
        call (WaitForLoadState "networkidle")
      else if String.eqb action "assert" then
        performAssertion step mergedData
      else if String.eqb action "scroll" then
        match element with
        | Some element => call (ScrollIntoViewIfNeeded element)
        | None => call EvaluateScrollToBottom
        end
      else if String.eqb action "hover" then
        match element with
        | None => throw (selectorRequired "hover")
        | Some element => call (Hover element)
        end
      else if String.eqb action "keyPress" then call (KeyboardPress resolved)
      else throw (Js.Error ("Unsupported action: " +:+ action))
  end.

(** *** [executeStep] *)

(** The message kept in a result: [if (error) result.error = error]. *)
Definition attached (error : option string) : option string :=
  match error with
  | Some message => if Js.truthy message then Some message else None
  | None => None
  end.

Definition executeStep (step : TestStep.t)
    (testData : gmap string Js.Value) : M StepResult.t :=
  do startTime <- now;
  do outcome <- try (performAction step testData);
  run recordStep step outcome;
  let '(status, error) :=
    match outcome with
    | Normal _ => (PASSED, None)
    | Throw err => (FAILED, Some (Js.messageOr "Step execution failed" err))
    end in
  do endTime <- now;
  ret {| StepResult.step := TestStep.step step;
         StepResult.status := status;
         StepResult.duration := endTime - startTime;
         StepResult.error := attached error |}.

(** *** [executeTestCase] *)

(** The step loop. [executeStep] is awaited inside the [try] of
    [executeTestCase]: what it throws ends the loop and is handed, with
    the variables as they are, to the [catch]. *)
Fixpoint forSteps (steps : list TestStep.t) (testData : gmap string Js.Value)
    (vars : CaseVars) : M (option Js.Thrown * CaseVars) :=
  match steps with
  | [] => ret (None, vars)
  | step :: rest =>
      do r <- try (executeStep step testData);
      match r with
      | Throw err => ret (Some err, vars)
      | Normal stepResult =>
          let vars := {| stepResults := stepResults vars ++ [stepResult];
                         error := error vars; status := status vars |} in
          if Status_eqb (StepResult.status stepResult) FAILED then
            ret (None, {| stepResults := stepResults vars;
                          error := StepResult.error stepResult;
                          status := FAILED |})
          else forSteps rest testData vars
      end
  end.

(** [captureArtifacts(testCaseId, capture = true)]: an argument that is
    [undefined] stands for [true]. *)
Definition captureArtifacts (testCaseId : string) (capture : option bool)
  : M Artifacts.t :=
  let capture := default true capture in
  do p <- getPage;
  if negb capture || negb (bool_decide (is_Some p)) then ret Artifacts.empty
  else
    do t <- now;
    let screenshotPath :=
      "./test-results/screenshots/" +:+ testCaseId +:+ "-" +:+ pretty t +:+ ".png" in
    (* Capture screenshot *)
    do shot <- try (call (Screenshot screenshotPath true));
    match shot with
    | Throw _ =>
        run consoleLog "Failed to capture artifacts:";
        ret Artifacts.empty
    | Normal _ =>
        (* Capture console logs *)
        do logs <- try callEvaluateTestLogs;
        match logs with
        | Throw _ =>
            run consoleLog "Failed to capture artifacts:";
            ret {| Artifacts.screenshot := Some screenshotPath;
                   Artifacts.logs := None; Artifacts.video := None |}
        | Normal logs =>
            ret {| Artifacts.screenshot := Some screenshotPath;
                   Artifacts.logs := Some logs; Artifacts.video := None |}
        end
    end.

(** [this.resultHandler.processResult(result)]. *)
Definition processResult (result : TestResult.t) : M TestResult.t :=
  do t <- now;
  fun e =>
    let (enhanced, h) :=
      Handler.processResult (resultHandler e) result t (process rt (world e)) in
    (Normal enhanced, withResultHandler h e).

Definition executeTestCase (testCase : TestCase.t)
    (options : ExecutionOptions.t) : M TestResult.t :=
  run recordCase (TestCase.id testCase);
  do p <- getPage;
  match p with
  | None => throw (Js.Error "Browser not initialized. Call initialize() first.")
  | Some _ =>
      do startTime <- now;
      do looped <- forSteps (TestCase.steps testCase) (TestCase.testData testCase)
                     {| stepResults := []; error := None; status := PASSED |};
      let vars :=
        match looped with
        | (None, vars) => vars
        | (Some err, vars) =>
            {| stepResults := stepResults vars;
               error := Some (Js.messageOr "Unknown error occurred" err);
               status := FAILED |}
        end in
      do endTime <- now;
      let duration := endTime - startTime in
      (* Capture artifacts if test failed or if requested *)
      do artifacts <-
        captureArtifacts (TestCase.id testCase)
          (if Status_eqb (status vars) FAILED then Some true
           else ExecutionOptions.captureOnSuccess options);
      do executedAt <- now;
      let result :=
        {| TestResult.testCaseId := TestCase.id testCase;
           TestResult.status := status vars;
           TestResult.duration := duration;
           TestResult.error := attached (error vars);
           TestResult.stepResults := Some (stepResults vars);
           TestResult.artifacts := Some artifacts;
           TestResult.executedAt := executedAt;
           TestResult.browserInfo := None;
           TestResult.keys :=
             ["testCaseId"; "status"; "duration"; "stepResults"; "artifacts";
              "executedAt"]
             ++ match attached (error vars) with
                | Some _ => ["error"]
                | None => []
                end |} in
      processResult result
  end.

(** *** [executeTestSuite] *)

(** The result pushed by the [catch] of the suite loop. *)
Definition failedToExecute (testCase : TestCase.t) (err : Js.Thrown)
    (executedAt : Z) : TestResult.t :=
  {| TestResult.testCaseId := TestCase.id testCase;
     TestResult.status := FAILED;
     TestResult.duration := 0;
     TestResult.error := Some (Js.messageOr "Test execution failed" err);
     TestResult.stepResults := None;
     TestResult.artifacts := None;
     TestResult.executedAt := executedAt;
     TestResult.browserInfo := None;
     TestResult.keys := ["testCaseId"; "status"; "duration"; "error"; "executedAt"] |}.

(** [if (options.delayBetweenTests) await this.page?.waitForTimeout(...)]. *)
Definition delayBetweenTests (options : ExecutionOptions.t) : M unit :=
  match ExecutionOptions.delayBetweenTests options with
  | Some ms =>
      if ms =? 0 then ret tt
      else
        do p <- getPage;
        match p with
        | Some _ => call (WaitForTimeout (Js.Finite ms))
        | None => ret tt
        end
  | None => ret tt
  end.

Fixpoint forTestCases (testCases : list TestCase.t)
    (options : ExecutionOptions.t) (results : list TestResult.t)
  : M (list TestResult.t) :=
  match testCases with
  | [] => ret results
  | testCase :: rest =>
      do r <- try (executeTestCase testCase options);
      match r with
      | Normal result =>
          let results := results ++ [result] in
          (* Stop on first failure if configured *)
          if Status_eqb (TestResult.status result) FAILED
             && default false (ExecutionOptions.stopOnFailure options)
          then ret results
          else
            run delayBetweenTests options;
            forTestCases rest options results
      | Throw err =>
          run consoleLog ("Failed to execute test case "
                            +:+ TestCase.id testCase +:+ ":");
          do executedAt <- now;
          let results := results ++ [failedToExecute testCase err executedAt] in
          run delayBetweenTests options;
          forTestCases rest options results
      end
  end.

Definition executeTestSuite (testCases : list TestCase.t)
    (options : ExecutionOptions.t) : M (list TestResult.t) :=
  forTestCases testCases options [].

(** *** [cleanup] *)

(** The body of the [try] of [cleanup]. *)
Definition closeAll : M unit :=
  do p <- getPage;
  run match p with
      | Some _ =>
          run call PageClose;
          fun e => (Normal tt, withHandles (browser e) (context e) None e)
      | None => ret tt
      end;
  do c <- (fun e => (Normal (context e), e));
  run match c with
      | Some _ =>
          run call ContextClose;
          fun e => (Normal tt, withHandles (browser e) None (page e) e)
      | None => ret tt
      end;
  do b <- (fun e => (Normal (browser e), e));
  match b with
  | Some _ =>
      run call BrowserClose;
      fun e => (Normal tt, withHandles None (context e) (page e) e)
  | None => ret tt
  end.

Definition cleanup : M unit :=
  do r <- try closeAll;
  match r with
  | Normal _ => ret tt
  | Throw _ => consoleLog "Error during cleanup:"
  end.

End Executor.

Arguments Executor World : clear implicits.
Arguments M World A : clear implicits.

End Executor.

(** A small world to run the executor in: a browser with one page, which
    knows its location and its title, a clock that every call moves on by
    ten milliseconds, a selector no element matches and, if [brokenPage] is
    set, a page that fails to close. *)
Module Demo.
Import Handler Executor.

Record World := {
  clock : Z;
  location : string;
  documentTitle : string;
  brokenPage : bool
}.

Definition later (w : World) : World :=
  {| clock := clock w + 10; location := location w;
     documentTitle := documentTitle w; brokenPage := brokenPage w |}.

Definition runtime : Runtime World :=
  {| perform c w :=
       match c with
       | Goto url =>
           (Normal tt, {| clock := clock w + 10; location := url;
                          documentTitle := "Node.js - Run JavaScript Everywhere";
                          brokenPage := brokenPage w |})
       | Click selector =>
           if String.eqb selector "#missing"
           then (Throw (Js.Error "page.click: Timeout 30000ms exceeded."), later w)
           else (Normal tt, later w)
       | PageClose =>
           if brokenPage w
           then (Throw (Js.Error "page.close: Target crashed"), later w)
           else (Normal tt, later w)
       | _ => (Normal tt, later w)
       end;
     textContent selector w := (Normal (Some "Welcome"), later w);
     url w := location w;
     title w := (Normal (documentTitle w), later w);
     evaluateTestLogs w := (Normal [], later w);
     dateNow w := (clock w, later w);
     process w := HandlerSamples.noEnv |}.

(** The same browser, with clicks that fail with an error whose message is
    empty. *)
Definition silent : Runtime World :=
  {| perform c w :=
       match c with
       | Click _ => (Throw (Js.Error ""), later w)
       | _ => perform runtime c w
       end;
     textContent := textContent runtime;
     url := url runtime;
     title := title runtime;
     evaluateTestLogs := evaluateTestLogs runtime;
     dateNow := dateNow runtime;
     process := process runtime |}.

Definition blank (broken : bool) : World :=
  {| clock := 0; location := "about:blank"; documentTitle := "";
     brokenPage := broken |}.

(** The executor after [initialize()], and before it. *)
Definition initialized (w : World) : Executor World :=
  {| browser := Some theBrowser; context := Some theContext; page := Some thePage;
     resultHandler := HandlerSamples.freshHandler; world := w; console := [];
     calls := []; attemptedSteps := []; attemptedCases := [] |}.

Definition notInitialized (w : World) : Executor World :=
  {| browser := None; context := None; page := None;
     resultHandler := HandlerSamples.freshHandler; world := w; console := [];
     calls := []; attemptedSteps := []; attemptedCases := [] |}.

Definition step (n : Z) (action : string) (element : option string)
    (expected : string) : TestStep.t :=
  {| TestStep.step := n; TestStep.action := action; TestStep.expected := expected;
     TestStep.element := element; TestStep.data := None |}.

(** The scenario of the specification: navigate, fill, assert the title. *)
Definition search : TestCase.t :=
  {| TestCase.id := "search";
     TestCase.steps := [step 1 "navigate" None "https://x";
                        step 2 "fill" (Some "#q") "{{q}}";
                        step 3 "assert" None "title:Node.js"];
     TestCase.testData := {[ "q" := Js.Str "Node.js" ]} |}.

(** A case whose second step of four clicks on nothing. *)
Definition broken : TestCase.t :=
  {| TestCase.id := "broken";
     TestCase.steps := [step 1 "navigate" None "https://x";
                        step 2 "click" (Some "#missing") "";
                        step 3 "fill" (Some "#q") "{{q}}";
                        step 4 "assert" None "title:Node.js"];
     TestCase.testData := {[ "q" := Js.Str "Node.js" ]} |}.

Definition options : ExecutionOptions.t :=
  {| ExecutionOptions.captureOnSuccess := Some false;
     ExecutionOptions.stopOnFailure := Some true;
     ExecutionOptions.delayBetweenTests := Some 1000 |}.

End Demo.

(** The notions the statements about the executor are made of. *)
Module ExecutorSpec.
Import Handler Executor.

Section Spec.
Context {World : Type}.

(** An attempt whose action returned. *)
Definition passing (step : TestStep.t) : TestStep.t * Completion unit :=
  (step, Normal tt).

(** [e'] differs from [e] at most by the world, the calls made and the
    console. *)
Definition unchanged (e e' : Executor World) : Prop :=
  browser e' = browser e /\ context e' = context e /\ page e' = page e
  /\ resultHandler e' = resultHandler e
  /\ attemptedSteps e' = attemptedSteps e
  /\ attemptedCases e' = attemptedCases e.

(** [e'] has the handles, the result handler and the attempted cases
    of [e]. *)
Definition sameCase (e e' : Executor World) : Prop :=
  browser e' = browser e /\ context e' = context e /\ page e' = page e
  /\ resultHandler e' = resultHandler e
  /\ attemptedCases e' = attemptedCases e.

(** The step loop run on [steps]: either every step was attempted and
    passed, and status and error are as before, or the attempts end
    with the first step whose action threw, the status is [FAILED] and
    the error is the message kept of what was thrown. *)
Definition looped (steps : list TestStep.t) (before after : CaseVars)
    (attempts : list (TestStep.t * Completion unit)) : Prop :=
  (attempts = map passing steps
   /\ status after = status before /\ error after = error before)
  \/ (exists pre step err rest,
        steps = pre ++ step :: rest
        /\ attempts = map passing pre ++ [(step, Throw err)]
        /\ status after = FAILED
        /\ error after
           = attached (Some (Js.messageOr "Step execution failed" err))).

(** A computation that only browses: it acts on the world and leaves the
    executor as it is. *)
Definition browses {A} (m : M World A) : Prop :=
  forall e, unchanged e (snd (m e)).

(** What a step result says of an attempt: the number of the step and,
    for an action that threw, the failure with the message kept. *)
Definition reports (stepResult : StepResult.t)
    (attempt : TestStep.t * Completion unit) : Prop :=
  StepResult.step stepResult = TestStep.step (fst attempt)
  /\ match snd attempt with
     | Normal _ =>
         StepResult.status stepResult = PASSED
         /\ StepResult.error stepResult = None
     | Throw err =>
         StepResult.status stepResult = FAILED
         /\ StepResult.error stepResult
            = attached (Some (Js.messageOr "Step execution failed" err))
     end.

Definition passed (stepResult : StepResult.t) : Prop :=
  StepResult.status stepResult = PASSED.

(** The executor when the step loop of a case starts: the case is recorded
    and the clock has been read once. *)
Definition started (rt : Runtime World) (testCase : TestCase.t)
    (e : Executor World) : Executor World :=
  snd (now rt (withAttemptedCase (TestCase.id testCase) e)).

(** The attempts made one after the other from the executor [e]: each is
    the step with the outcome its action has when it is performed after
    the clock was read; the next attempt starts once this one is recorded
    and the clock read again. *)
Fixpoint acted (rt : Runtime World) (testData : gmap string Js.Value)
    (e : Executor World) (attempts : list (TestStep.t * Completion unit))
  : Prop :=
  match attempts with
  | [] => True
  | attempt :: rest =>
      exists e1,
        performAction rt (fst attempt) testData (snd (now rt e))
        = (snd attempt, e1)
        /\ acted rt testData
             (snd (now rt (withAttemptedStep (fst attempt) (snd attempt) e1)))
             rest
  end.

(** What a failed step keeps of what its action threw: the message of an
    [Error], unless it is empty, and a fixed text for any other value. *)
Definition kept (err : Js.Thrown) : option string :=
  match err with
  | Js.Error EmptyString => None
  | Js.Error message => Some message
  | Js.NonError _ => Some "Step execution failed"
  end.

(** The case with other steps. *)
Definition withSteps (steps : list TestStep.t) (testCase : TestCase.t)
  : TestCase.t :=
  {| TestCase.id := TestCase.id testCase;
     TestCase.steps := steps;
     TestCase.testData := TestCase.testData testCase |}.

Definition notInitializedMessage : string :=
  "Browser not initialized. Call initialize() first.".

(** A result recorded for a case whose execution threw [message]. *)
Definition recordsFailure (message : string) (result : TestResult.t) : Prop :=
  TestResult.status result = FAILED
  /\ TestResult.duration result = 0
  /\ TestResult.error result = Some message.

(** No pause is asked for between the cases. *)
Definition noDelay (options : ExecutionOptions.t) : Prop :=
  ExecutionOptions.delayBetweenTests options = None
  \/ ExecutionOptions.delayBetweenTests options = Some 0.

(** The closes [cleanup] has to make, in its order. *)
Definition closes (e : Executor World) : list Call :=
  match page e with Some _ => [PageClose] | None => [] end
    ++ match context e with Some _ => [ContextClose] | None => [] end
    ++ match browser e with Some _ => [BrowserClose] | None => [] end.

Definition released (e : Executor World) : Prop :=
  page e = None /\ context e = None /\ browser e = None.

(** The closes made one after the other in the world, up to the first that
    fails: those that returned, the one that failed if there is one, and
    the world they leave. *)
Fixpoint closing (rt : Runtime World) (todo : list Call) (w : World)
  : list Call * option Call * World :=
  match todo with
  | [] => ([], None, w)
  | c :: todo' =>
      match perform rt c w with
      | (Normal _, w1) =>
          let '(closed, failed, w2) := closing rt todo' w1 in
          (c :: closed, failed, w2)
      | (Throw _, w1) => ([], Some c, w1)
      end
  end.

(** The line [cleanup] logs for a close that failed. *)
Definition cleanupLog (failed : option Call) : list string :=
  match failed with
  | Some _ => ["Error during cleanup:"]
  | None => []
  end.

End Spec.
End ExecutorSpec.

(** The actions of [performAction], as its [switch] lists them. *)
Module Actions.

(** The actions that throw when no selector is given. *)
Definition needSelector : list string :=
  ["click"; "fill"; "type"; "select"; "waitForElement"; "hover"].

(** The actions that have a [case]. *)
Definition supported : list string :=
  ["navigate"; "click"; "fill"; "type"; "select"; "wait"; "waitForElement";
   "waitForNavigation"; "assert"; "scroll"; "hover"; "keyPress"].


(** What a step is told when its action cannot be run: the selector it
    needs is missing, or the action is none of the twelve. *)
Definition rejection (action : string) : string :=
  if bool_decide (action ∈ needSelector)
  then "Element selector required for " +:+ action +:+ " action"
  else "Unsupported action: " +:+ action.

End Actions.

Module ExecutorMoreSpec.
Import Executor.

(** A string that does not start with an entry of the table. *)
Definition tight (table : list string) (s : string) : Prop :=
  stripAny table s = None.

(** A table without the empty string. *)
Definition proper (table : list string) : Prop :=
  Forall (fun p => p <> EmptyString) table.

End ExecutorMoreSpec.

(** ** The result handler: queries and failure analysis *)

From stdpp Require Import sorting.

Local Open Scope Z_scope.

Module Analysis.
Import Handler.


Definition getResultsByStatus (h : TestResultHandler) (status : Status)
  : list TestResult.t :=
  withStatus status (results h).

Definition clearResults (h : TestResultHandler) (now : Z) : TestResultHandler :=
  {| events := events h; results := []; startTime := now; notified := notified h |}.

(** [extractErrorType(error)]. *)
Definition extractErrorType (error : string) : string :=
  if Js.includes "timeout" error then "Timeout"
  else if Js.includes "element not found" error then "Element Not Found"
  else if Js.includes "navigation" error then "Navigation Error"
  else if Js.includes "network" error then "Network Error"
  else "Other".

(** [counts[key] = (counts[key] || 0) + 1] on an object used as a table of
    counters, its keys in the order they were added. *)
Fixpoint bump {K} `{EqDecision K} (key : K) (counts : list (K * nat))
  : list (K * nat) :=
  match counts with
  | [] => [(key, 1%nat)]
  | (k, n) :: rest =>
      if decide (k = key) then (k, S n) :: rest else (k, n) :: bump key rest
  end.

(** [entries.sort(([,a], [,b]) => b - a)]: by count, the largest first; the
    sort is stable, entries with the same count keep their order. *)
Fixpoint insertByCount {K} (x : K * nat) (sorted : list (K * nat))
  : list (K * nat) :=
  match sorted with
  | [] => [x]
  | y :: rest =>
      if (snd x <? snd y)%nat then y :: insertByCount x rest else x :: y :: rest
  end.

Definition sortByCount {K} (entries : list (K * nat)) : list (K * nat) :=
  foldr insertByCount [] entries.

(** The error of a result, if it is there and not empty: [if (result.error)]. *)
Definition errorOf (result : TestResult.t) : option string :=
  match TestResult.error result with
  | Some (String c t) => Some (String c t)
  | _ => None
  end.

(** The table of [analyzeErrorPatterns], before it is sorted. *)
Definition errorCounts (failedResults : list TestResult.t) : list (string * nat) :=
  fold_left
    (fun counts result =>
       match errorOf result with
       | Some error => bump (extractErrorType error) counts
       | None => counts
       end)
    failedResults [].

(** [analyzeErrorPatterns(failedResults)]: pairs [{ error, count }]. *)
Definition analyzeErrorPatterns (failedResults : list TestResult.t)
  : list (string * nat) :=
  take 10 (sortByCount (errorCounts failedResults)).

(** The numbers of the steps that failed, result after result. *)
Definition failedStepNumbers (failedResults : list TestResult.t) : list Z :=
  flat_map
    (fun result =>
       map StepResult.step
         (filter (fun s => Status_eqb (StepResult.status s) FAILED = true)
            (default [] (TestResult.stepResults result))))
    failedResults.

(** A key that is an array index: [Object.entries] lists these first, in
    ascending order, then the other keys in the order they were added. *)
Definition isIndex (key : Z) : bool :=
  ((0 <=? key) && (key <? 2 ^ 32 - 1))%Z.

Fixpoint insertByKey (x : Z * nat) (sorted : list (Z * nat)) : list (Z * nat) :=
  match sorted with
  | [] => [x]
  | y :: rest =>
      if (fst x <? fst y)%Z then x :: y :: rest else y :: insertByKey x rest
  end.

(** [Object.entries(counts)] for a table whose keys are numbers. *)
Definition entries (counts : list (Z * nat)) : list (Z * nat) :=
  foldr insertByKey [] (filter (fun kv => isIndex (fst kv) = true) counts)
    ++ filter (fun kv => isIndex (fst kv) = false) counts.

(** The table of [analyzeFailedSteps]. *)
Definition stepCounts (failedResults : list TestResult.t) : list (Z * nat) :=
  fold_left (fun counts step => bump step counts) (failedStepNumbers failedResults) [].

(** The ten entries [analyzeFailedSteps] keeps of the table, the most
    frequent first. The key of an entry is the string form of a step
    number; it is kept here as that number. *)
Definition rankedSteps (failedResults : list TestResult.t) : list (Z * nat) :=
  take 10 (sortByCount (entries (stepCounts failedResults))).

(** [analyzeFailedSteps(failedResults)]: pairs [{ step, count }]; the number
    is read back from its key with [parseInt]. *)
Definition analyzeFailedSteps (failedResults : list TestResult.t)
  : list (Js.Num * nat) :=
  map (fun entry =>
         (Executor.parseInt (Js.numberToString (fst entry)), snd entry))
    (rankedSteps failedResults).

(** [analyzeCommonElements(failedResults)]. *)
Definition analyzeCommonElements (failedResults : list TestResult.t) : list string :=
  [].

(** [generateRecommendations(errorPatterns, failedSteps)]. *)
Definition generateRecommendations (errorPatterns : list (string * nat))
    (failedSteps : list (Js.Num * nat)) : list string :=
  (if bool_decide (Exists (fun p => fst p = "Timeout") errorPatterns)
   then ["Consider increasing timeout values for slow-loading elements"] else [])
  ++ (if bool_decide (Exists (fun p => fst p = "Element Not Found") errorPatterns)
      then ["Review element selectors for stability and uniqueness"] else [])
  ++ match failedSteps with
     | (step, _) :: _ =>
         ["Step " +:+ Js.numToString step
            +:+ " fails frequently - review test logic"]
     | [] => []
     end.

(** What [getFailureAnalysis] returns: [{ hasFailures: false }], or the
    analysis with [hasFailures: true]. *)
Inductive FailureAnalysis :=
| NoFailures
| Failures (totalFailures : nat) (errorPatterns : list (string * nat))
    (failedSteps : list (Js.Num * nat)) (commonElements : list string)
    (recommendations : list string).

Definition hasFailures (analysis : FailureAnalysis) : bool :=
  match analysis with
  | NoFailures => false
  | Failures _ _ _ _ _ => true
  end.

(** [getFailureAnalysis(results = this.results)]. *)
Definition getFailureAnalysis (h : TestResultHandler)
    (results : option (list TestResult.t)) : FailureAnalysis :=
  let results := default (Handler.results h) results in
  let failedResults := withStatus FAILED results in
  match failedResults with
  | [] => NoFailures
  | _ :: _ =>
      let errorPatterns := analyzeErrorPatterns failedResults in
      let failedSteps := analyzeFailedSteps failedResults in
      let commonElements := analyzeCommonElements failedResults in
      Failures (length failedResults) errorPatterns failedSteps commonElements
        (generateRecommendations errorPatterns failedSteps)
  end.


(** The categories [extractErrorType] knows. *)
Definition errorTypes : list string :=
  ["Timeout"; "Element Not Found"; "Navigation Error"; "Network Error"; "Other"].

(** The sum of the counts of a table. *)
Definition totalCount {K} (counts : list (K * nat)) : nat :=
  foldr (fun kv sum => (snd kv + sum)%nat) 0%nat counts.

(** The count a table holds for a key, 0 for a key it does not have. *)
Definition tally {K} `{EqDecision K} (key : K) (counts : list (K * nat)) : nat :=
  foldr (fun kv sum => if decide (fst kv = key) then (snd kv + sum)%nat else sum)
    0%nat counts.

(** The number of times a value occurs in a list. *)
Definition occurrences {K} `{EqDecision K} (key : K) (keys : list K) : nat :=
  length (filter (fun k => k = key) keys).

(** The categories of the errors of the results, one for each result that
    has an error. *)
Definition errorKinds (failedResults : list TestResult.t) : list string :=
  map extractErrorType (omap errorOf failedResults).

(** The three recommendations. *)
Definition timeoutAdvice : string :=
  "Consider increasing timeout values for slow-loading elements".

Definition selectorAdvice : string :=
  "Review element selectors for stability and uniqueness".

Definition stepAdvice (step : Z) : string :=
  "Step " +:+ pretty step +:+ " fails frequently - review test logic".

(** Entries whose numbers are the whole numbers of [steps]. *)
Definition listed (steps : list (Z * nat)) : list (Js.Num * nat) :=
  map (fun entry => (Js.Finite (fst entry), snd entry)) steps.

(** Step numbers that are safe integers. *)
Definition safeSteps (steps : list Z) : Prop :=
  Forall (fun step => Js.safeInteger step = true) steps.

(** From the largest count to the smallest. *)
Definition descending {K} (counts : list (K * nat)) : Prop :=
  Sorted (fun a b => (snd b <= snd a)%nat) counts.

End Analysis.

(** The characters [escapeXml] replaces. *)
Module JunitMoreSpec.

Definition isSpecial (c : ascii) : bool :=
  Ascii.eqb c "&" || Ascii.eqb c "<" || Ascii.eqb c ">"
  || Ascii.eqb c (ascii_of_nat 34) || Ascii.eqb c "'".

End JunitMoreSpec.

(** ** The pauses of [retryOperation] *)

Module RetryMoreSpec.
Import Retry.

(** The time a run spent in pauses, and the number of times it invoked the
    operation. *)
Definition pause {T} (event : Event T) : Z :=
  match event with
  | Slept ms => ms
  | _ => 0
  end.

Definition slept {T} (events : list (Event T)) : Z :=
  foldr (fun event sum => pause event + sum) 0 events.

Definition invoked {T} (event : Event T) : bool :=
  match event with
  | Invoked _ => true
  | _ => false
  end.

Definition invocations {T} (events : list (Event T)) : nat :=
  length (List.filter invoked events).

(** The pauses after [failures] failed attempts, added up. *)
Definition totalPause (retryConfig : RetryConfig) (failures : Z) : Z :=
  match backoff retryConfig with
  | exponential => delay retryConfig * (2 ^ failures - 1)
  | linear => delay retryConfig * failures
  end.

End RetryMoreSpec.
(** ** The engine: [AutomationEngine] *)

Module Engine.
Import Handler.

(** [DEFAULT_EXECUTION_OPTIONS], as far as the executor reads it. *)
Definition DEFAULT_EXECUTION_OPTIONS : ExecutionOptions.t :=
  {| ExecutionOptions.captureOnSuccess := Some false;
     ExecutionOptions.stopOnFailure := Some false;
     ExecutionOptions.delayBetweenTests := Some 0 |}.

(** The listeners the caller registered with the engine, as far as the
    engine depends on them: what a listener throws, if it throws, when it
    is called. [TestExecutionEvents] says which of them are registered.
    A listener is taken not to write to the result it is handed. *)
Record Listeners := {
  testComplete : string -> TestResult.t -> option Js.Thrown;
  testFailure : string -> string -> option Js.Thrown
}.

(** A call to a listener: the call is noted, and what the listener throws
    is handed on. *)
Definition emit (notification : Notification) (thrown : option Js.Thrown)
    (h : TestResultHandler) : option Js.Thrown * TestResultHandler :=
  (thrown,
   {| events := events h; results := results h; startTime := startTime h;
      notified := notified h ++ [notification] |}).

Section Engine.
Context {World : Type}.
Variable rt : Executor.Runtime World.
Variable listeners : Listeners.

(** The engine has an executor and a result handler of its own, which is
    not the one the executor keeps. *)
Record AutomationEngine := {
  executor : Executor.Executor World;
  resultHandler : TestResultHandler
}.

(** [this.resultHandler.processResult(result)] on the handler of the
    engine, whose listeners are the caller's: what a listener throws
    leaves [processResult] where the listener was called. The clock and
    the process are those of the world the executor acts on; the result
    returned is the one [Handler.processResult] builds. *)
Definition processResult (result : TestResult.t) (engine : AutomationEngine)
  : Completion TestResult.t * AutomationEngine :=
  let h := resultHandler engine in
  (* Add result to collection *)
  let h :=
    {| events := events h; results := results h ++ [result];
       startTime := startTime h; notified := notified h |} in
  (* Emit completion event *)
  let (thrown, h) :=
    if onTestComplete (events h)
    then emit (TestComplete (TestResult.testCaseId result) result)
           (testComplete listeners (TestResult.testCaseId result) result) h
    else (None, h) in
  match thrown with
  | Some err => (Throw err, {| executor := executor engine; resultHandler := h |})
  | None =>
      (* Emit failure event if test failed *)
      let (thrown, h) :=
        if Status_eqb (TestResult.status result) FAILED && onTestFailure (events h)
        then emit (TestFailure (TestResult.testCaseId result)
                     (Js.orElse (TestResult.error result) "Test failed"))
               (testFailure listeners (TestResult.testCaseId result)
                  (Js.orElse (TestResult.error result) "Test failed")) h
        else (None, h) in
      match thrown with
      | Some err =>
          (Throw err, {| executor := executor engine; resultHandler := h |})
      | None =>
          (* Enhance result with additional metadata *)
          let (t, w) := Executor.dateNow rt (Executor.world (executor engine)) in
          let enhanced :=
            fst (Handler.processResult (resultHandler engine) result t
                   (Executor.process rt w)) in
          (Normal enhanced,
           {| executor := Executor.withWorld w (executor engine);
              resultHandler := h |})
      end
  end.

(** [executeTest(testCase, options = DEFAULT_EXECUTION_OPTIONS)]. *)
Definition executeTest (testCase : TestCase.t)
    (options : option ExecutionOptions.t) (engine : AutomationEngine)
  : Completion TestResult.t * AutomationEngine :=
  let options := default DEFAULT_EXECUTION_OPTIONS options in
  match Executor.executeTestCase rt testCase options (executor engine) with
  | (Normal result, e) =>
      processResult result
        {| executor := e; resultHandler := resultHandler engine |}
  | (Throw err, e) =>
      (Throw err, {| executor := e; resultHandler := resultHandler engine |})
  end.

(** [results.forEach(result => this.resultHandler.processResult(result))]:
    what a call throws ends the loop. *)
Fixpoint forEachResult (results : list TestResult.t) (engine : AutomationEngine)
  : option Js.Thrown * AutomationEngine :=
  match results with
  | [] => (None, engine)
  | result :: rest =>
      match processResult result engine with
      | (Normal _, engine') => forEachResult rest engine'
      | (Throw err, engine') => (Some err, engine')
      end
  end.

(** [executeTestSuite(testCases, options = DEFAULT_EXECUTION_OPTIONS)]: the
    results are returned as the executor gave them. *)
Definition executeTestSuite (testCases : list TestCase.t)
    (options : option ExecutionOptions.t) (engine : AutomationEngine)
  : Completion (list TestResult.t) * AutomationEngine :=
  let options := default DEFAULT_EXECUTION_OPTIONS options in
  match Executor.executeTestSuite rt testCases options (executor engine) with
  | (Normal results, e) =>
      match forEachResult results
              {| executor := e; resultHandler := resultHandler engine |} with
      | (None, engine') => (Normal results, engine')
      | (Some err, engine') => (Throw err, engine')
      end
  | (Throw err, e) =>
      (Throw err, {| executor := e; resultHandler := resultHandler engine |})
  end.

End Engine.

Arguments AutomationEngine World : clear implicits.


(** What the listeners registered in [events] throw when they are told of a
    result: what the first of them to throw throws. *)
Definition thrownFor (listeners : Listeners) (events : TestExecutionEvents)
    (result : TestResult.t) : option Js.Thrown :=
  match (if onTestComplete events
         then testComplete listeners (TestResult.testCaseId result) result
         else None) with
  | Some err => Some err
  | None =>
      if Status_eqb (TestResult.status result) FAILED && onTestFailure events
      then testFailure listeners (TestResult.testCaseId result)
             (Js.orElse (TestResult.error result) "Test failed")
      else None
  end.

(** Listeners that never throw. *)
Definition silentListeners : Listeners :=
  {| testComplete _ _ := None; testFailure _ _ := None |}.

End Engine.

(** ** The start of the browser: [PlaywrightExecutor.initialize] *)

Module Initialize.
Import Executor.

Record Viewport := {
  width : Z;
  height : Z
}.

(** The values of the options of a browser context, as far as [initialize]
    writes them; [Given] is a value passed on from [contextOptions]. *)
Inductive Setting :=
| Size (viewport : Viewport)
| Flag (enabled : bool)
| VideoDir (dir : string)
| Given (value : Js.Value).

(** [BrowserConfig]; of [recordVideo] only the presence is read. *)
Record BrowserConfig := {
  browser : option string;
  headless : option bool;
  args : option (list string);
  timeout : option Z;
  viewport : option Viewport;
  ignoreHTTPSErrors : option bool;
  recordVideo : option string;
  contextOptions : option (gmap string Setting)
}.

(** The calls [initialize] makes to Playwright: [<browserType>.launch],
    [browser.newContext], [context.newPage], [page.setDefaultTimeout]. *)
Inductive Launch :=
| LaunchBrowser (browserType : string) (headless : bool) (args : list string)
| NewContext (contextOptions : gmap string Setting)
| NewPage
| SetDefaultTimeout (timeout : Z).

Definition browserTypes : list string := ["chromium"; "firefox"; "webkit"].

(** [a || b] for an optional number [a]: [0] is falsy. *)
Definition orNumber (a : option Z) (b : Z) : Z :=
  match a with
  | Some n => if n =? 0 then b else n
  | None => b
  end.

Definition browserTypeOf (config : BrowserConfig) : string :=
  Js.orElse (browser config) "chromium".

Definition headlessOf (config : BrowserConfig) : bool :=
  negb (bool_decide (headless config = Some false)).

(** The options of the context: the viewport and [ignoreHTTPSErrors],
    overridden by the keys of [contextOptions], then [recordVideo]. *)
Definition contextOptionsOf (config : BrowserConfig) : gmap string Setting :=
  let contextOptions :=
    default ∅ (contextOptions config)
      ∪ {[ "viewport" :=
             Size (default {| width := 1280; height := 720 |} (viewport config));
           "ignoreHTTPSErrors" :=
             Flag (default false (ignoreHTTPSErrors config)) ]} in
  match recordVideo config with
  | Some _ => <["recordVideo" := VideoDir "./test-results/videos"]> contextOptions
  | None => contextOptions
  end.

Section Initialize.
Context {World : Type}.

(** Playwright, as far as [initialize] calls it. *)
Variable start : Launch -> World -> Completion unit * World.

(** The executor and the calls made to start the browser. *)
Record Session := {
  executor : Executor World;
  started : list Launch
}.

Definition launch (l : Launch) (s : Session) : Completion unit * Session :=
  let (r, w) := start l (world (executor s)) in
  (r, {| executor := withWorld w (executor s); started := started s ++ [l] |}).

Definition setBrowser (s : Session) : Session :=
  {| executor := withHandles (Some theBrowser) (context (executor s))
                   (page (executor s)) (executor s);
     started := started s |}.

Definition setContext (s : Session) : Session :=
  {| executor := withHandles (Executor.browser (executor s)) (Some theContext)
                   (page (executor s)) (executor s);
     started := started s |}.

Definition setPage (s : Session) : Session :=
  {| executor := withHandles (Executor.browser (executor s))
                   (context (executor s)) (Some thePage) (executor s);
     started := started s |}.

(** [initialize()] of an executor made with [config]. *)
Definition initialize (config : BrowserConfig) (s : Session)
  : Completion unit * Session :=
  let browserType := browserTypeOf config in
  let headless := headlessOf config in
  if bool_decide (browserType ∈ browserTypes)
  then
    match launch (LaunchBrowser browserType headless (default [] (args config))) s with
    | (Throw err, s) => (Throw err, s)
    | (Normal _, s) =>
        let s := setBrowser s in
        (* Create browser context with configuration *)
        match launch (NewContext (contextOptionsOf config)) s with
        | (Throw err, s) => (Throw err, s)
        | (Normal _, s) =>
            let s := setContext s in
            (* Create a new page *)
            match launch NewPage s with
            | (Throw err, s) => (Throw err, s)
            | (Normal _, s) =>
                let s := setPage s in
                (* Set default timeout *)
                launch (SetDefaultTimeout (orNumber (timeout config) 30000)) s
            end
        end
    end
  else (Throw (Js.Error ("Unsupported browser type: " +:+ browserType)), s).

(** The calls of a complete start, in order. *)
Definition script (config : BrowserConfig) : list Launch :=
  [LaunchBrowser (browserTypeOf config) (headlessOf config)
     (default [] (args config));
   NewContext (contextOptionsOf config);
   NewPage;
   SetDefaultTimeout (orNumber (timeout config) 30000)].

End Initialize.

Arguments Session World : clear implicits.

End Initialize.

(** ** The browser utilities: [BrowserUtils] *)

Module Utils.
Import Retry.

(** The calls made to Playwright: those on the locator of a selector, then
    [page.waitForTimeout] and the [page.evaluate] of [jsClick]. *)
Inductive Op :=
| WaitFor (selector state : string) (timeout : option Z)
| Click (selector : string) (timeout : option Z) (force : option bool)
    (position : option (Z * Z))
| ScrollIntoViewIfNeeded (selector : string)
| Clear (selector : string)
| Fill (selector text : string)
| InputValue (selector : string)
| TextContent (selector : string)
| InnerText (selector : string)
| WaitForTimeout (ms : Z)
| EvaluateClick (selector : string).

(** The page: the calls whose value is not used, the three that read a
    text, and the timer of [setTimeout]. *)
Record Page (World : Type) := {
  perform : Op -> World -> Completion unit * World;
  inputValue : string -> World -> Completion string * World;
  innerText : string -> World -> Completion string * World;
  textContent : string -> World -> Completion (option string) * World;
  timer : Z -> World -> World
}.
Arguments perform {World}.
Arguments inputValue {World}.
Arguments innerText {World}.
Arguments textContent {World}.
Arguments timer {World}.

(** [this.config] after the constructor; an option that is [None] is
    [undefined]. *)
Record UtilsConfig := {
  defaultWaitTimeout : option Z;
  retryConfig : option RetryConfig
}.

(** The argument of the constructor: a key is left out, or given with a
    value that may be [undefined]. *)
Record UtilsConfigKeys := {
  defaultWaitTimeoutKey : option (option Z);
  retryConfigKey : option (option RetryConfig)
}.

(** [new BrowserUtils(config)]: [{ ...defaults, ...config }]. *)
Definition BrowserUtils (config : UtilsConfigKeys) : UtilsConfig :=
  {| defaultWaitTimeout := default (Some 30000) (defaultWaitTimeoutKey config);
     retryConfig :=
       default (Some {| maxRetries := 3; delay := 1000; backoff := exponential |})
         (retryConfigKey config) |}.

(** [ElementOptions]. *)
Record ElementOptions := {
  waitForVisible : option bool;
  timeout : option Z;
  force : option bool;
  position : option (Z * Z)
}.

(** [a || b] for optional numbers: [0] is falsy. *)
Definition orTimeout (a b : option Z) : option Z :=
  match a with
  | Some n => if n =? 0 then b else Some n
  | None => b
  end.

(** [!text || text.trim() === ''] for a text that may be [null]. *)
Definition blank (text : option string) : bool :=
  match text with
  | Some t => negb (Js.truthy t) || String.eqb (Executor.trim t) ""
  | None => true
  end.

(** What is seen of a run: the calls with their outcomes (the value of a
    call that reads a text, nothing for the others), the lines written by
    [console.warn] and the pauses of [retryOperation]; the warning that
    comes before each pause is an event of the run of [Retry.retryOperation]. *)
Inductive Entry :=
| Called (op : Op) (outcome : Completion (option string))
| Warned (line : string)
| Paused (ms : Z).

Section Utils.
Context {World : Type}.
Variable page : Page World.
Variable config : UtilsConfig.

Record Session := {
  world : World;
  log : list Entry
}.

Definition U (A : Type) : Type := Session -> Completion A * Session.

Definition ret {A} (a : A) : U A := fun s => (Normal a, s).

Definition bind {A B} (m : U A) (k : A -> U B) : U B :=
  fun s =>
    match m s with
    | (Normal a, s') => k a s'
    | (Throw err, s') => (Throw err, s')
    end.

Definition throw {A} (err : Js.Thrown) : U A := fun s => (Throw err, s).

Definition try {A} (m : U A) : U (Completion A) :=
  fun s => let (r, s') := m s in (Normal r, s').

Notation "'do' x <- m ; k" := (bind m (fun x => k))
  (at level 10, x name, m at level 100, k at level 200).
Notation "'run' m ; k" := (bind m (fun _ => k))
  (at level 10, m at level 100, k at level 200).

Definition logged {A} (op : Op) (value : A -> option string)
    (r : Completion A) (w : World) (s : Session) : Completion A * Session :=
  (r, {| world := w;
         log := log s ++ [Called op match r with
                                    | Normal a => Normal (value a)
                                    | Throw err => Throw err
                                    end] |}).

Definition call (op : Op) : U unit :=
  fun s => let (r, w) := perform page op (world s) in
           logged op (fun _ => None) r w s.

Definition callInputValue (selector : string) : U string :=
  fun s => let (r, w) := inputValue page selector (world s) in
           logged (InputValue selector) Some r w s.

Definition callInnerText (selector : string) : U string :=
  fun s => let (r, w) := innerText page selector (world s) in
           logged (InnerText selector) Some r w s.

Definition callTextContent (selector : string) : U (option string) :=
  fun s => let (r, w) := textContent page selector (world s) in
           logged (TextContent selector) id r w s.

Definition warn (line : string) : U unit :=
  fun s => (Normal tt, {| world := world s; log := log s ++ [Warned line] |}).

(** [await new Promise(resolve => setTimeout(resolve, delay))]. *)
Definition pause (ms : Z) (s : Session) : Session :=
  {| world := timer page ms (world s); log := log s ++ [Paused ms] |}.

(** [this.retryOperation(operation)], with
    [retryConfig = this.config.retryConfig]; read from [undefined],
    [maxRetries] is a [TypeError]. *)
Definition retryOperation {T} (operation : U T) : U T :=
  fun s =>
    match retryConfig config with
    | Some retryConfig =>
        let (r, retried) :=
          Retry.retryOperation operation pause retryConfig
            {| Retry.world := s; Retry.events := [] |} in
        (r, Retry.world retried)
    | None =>
        (Throw (Js.Error
                  "Cannot read properties of undefined (reading 'maxRetries')"), s)
    end.

(** [waitForElement(page, selector, options)]; the locator it returns is
    the selector. *)
Definition waitForElement (selector : string) (options : ElementOptions)
  : U unit :=
  let timeout := orTimeout (timeout options) (defaultWaitTimeout config) in
  retryOperation
    (call (WaitFor selector
             (if default false (waitForVisible options) then "visible"
              else "attached")
             timeout)).

(** [jsClick(page, selector)]. *)
Definition jsClick (selector : string) : U unit :=
  call (EvaluateClick selector).

(** The operation [smartClick] retries. *)
Definition clickOnce (selector : string) (options : ElementOptions) : U unit :=
  do r <- try (call (Click selector
                       (orTimeout (timeout options) (defaultWaitTimeout config))
                       (force options) (position options)));
  match r with
  | Normal _ => ret tt
  | Throw _ =>
      (* Fallback strategies *)
      run warn ("Normal click failed for " +:+ selector
                  +:+ ", trying alternatives...");
      (* Try scrolling into view first *)
      run call (ScrollIntoViewIfNeeded selector);
      run call (WaitForTimeout 500);
      do r <- try (call (Click selector None (Some true) None));
      match r with
      | Normal _ => ret tt
      | Throw _ =>
          (* Use JavaScript click as last resort *)
          jsClick selector
      end
  end.

(** [smartClick(page, selector, options)]. *)
Definition smartClick (selector : string) (options : ElementOptions) : U unit :=
  run waitForElement selector options;
  retryOperation (clickOnce selector options).

(** The operation [smartFill] retries. *)
Definition fillOnce (selector text : string) : U unit :=
  (* Clear existing content *)
  run call (Clear selector);
  run call (WaitForTimeout 100);
  (* Fill with new text *)
  run call (Fill selector text);
  (* Validate the input *)
  do actualValue <- callInputValue selector;
  if String.eqb actualValue text then ret tt
  else throw (Js.Error ("Text input validation failed. Expected: "
                          +:+ Js.dquote +:+ text +:+ Js.dquote
                          +:+ ", Actual: "
                          +:+ Js.dquote +:+ actualValue +:+ Js.dquote)).

(** [smartFill(page, selector, text, options)]. *)
Definition smartFill (selector text : string) (options : ElementOptions)
  : U unit :=
  run waitForElement selector options;
  retryOperation (fillOnce selector text).

(** The operation [getElementText] retries. *)
Definition readText (selector : string) : U string :=
  do text <- callTextContent selector;
  do text <- (if blank text
              then (* Try innerText as fallback *)
                   do t <- callInnerText selector; ret (Some t)
              else ret text);
  do text <- (if blank text
              then (* Try input value for form elements *)
                   do r <- try (callInputValue selector);
                   ret (Some match r with
                             | Normal value => value
                             | Throw _ => ""
                             end)
              else ret text);
  ret (Js.orElse (Executor.trim <$> text) "").

(** [getElementText(page, selector, options)]. *)
Definition getElementText (selector : string) (options : ElementOptions)
  : U string :=
  run waitForElement selector options;
  retryOperation (readText selector).

(** [elementExists(page, selector)]. *)
Definition elementExists (selector : string) : U bool :=
  do r <- try (call (WaitFor selector "attached" (Some 1000)));
  ret match r with
      | Normal _ => true
      | Throw _ => false
      end.

End Utils.

Arguments Session World : clear implicits.
Arguments U World A : clear implicits.

(** The calls of an attempt of [smartFill] that passes its validation. *)
Definition filled (selector text : string) : list Entry :=
  [Called (Clear selector) (Normal None);
   Called (WaitForTimeout 100) (Normal None);
   Called (Fill selector text) (Normal None);
   Called (InputValue selector) (Normal (Some text))].

(** The three clicks of [smartClick]. *)
Definition clicks (config : UtilsConfig) (selector : string)
    (options : ElementOptions) : list Op :=
  [Click selector (orTimeout (timeout options) (defaultWaitTimeout config))
     (force options) (position options);
   Click selector None (Some true) None;
   EvaluateClick selector].

(** The three reads of [getElementText]. *)
Definition reads (selector : string) : list Op :=
  [TextContent selector; InnerText selector; InputValue selector].

End Utils.

(** Sample data for the failure analysis and the engine. *)
Module MoreSamples.
Import Handler.

Definition failedStep (n : Z) : StepResult.t :=
  {| StepResult.step := n; StepResult.status := FAILED; StepResult.duration := 5;
     StepResult.error := Some "failed" |}.

Definition passedStep (n : Z) : StepResult.t :=
  {| StepResult.step := n; StepResult.status := PASSED; StepResult.duration := 5;
     StepResult.error := None |}.

(** A result as [executeTestCase] builds it. *)
Definition outcome (id : string) (status : Status) (error : option string)
    (steps : list StepResult.t) : TestResult.t :=
  {| TestResult.testCaseId := id; TestResult.status := status;
     TestResult.duration := 100; TestResult.error := error;
     TestResult.stepResults := Some steps; TestResult.artifacts := None;
     TestResult.executedAt := 0; TestResult.browserInfo := None;
     TestResult.keys := ["testCaseId"; "status"; "duration"; "stepResults";
                         "artifacts"; "executedAt"; "error"] |}.

(** Five results, four of them failed: two lost the network, one timed out
    at the step that also failed in another, one has no message. *)
Definition nightly : list TestResult.t :=
  [outcome "login" FAILED (Some "network unreachable")
     [passedStep 1; passedStep 2; failedStep 3];
   outcome "search" PASSED None [passedStep 1; passedStep 2];
   outcome "cart" FAILED (Some "page.click: timeout 30000ms exceeded")
     [passedStep 1; failedStep 7];
   outcome "pay" FAILED (Some "network reset by peer") [failedStep 3];
   outcome "logout" FAILED None [failedStep (-2)]].

Definition engine (w : Demo.World) : Engine.AutomationEngine Demo.World :=
  {| Engine.executor := Demo.initialized w;
     Engine.resultHandler :=
       {| events := {| onTestComplete := true; onTestFailure := true |};
          results := []; startTime := 0; notified := [] |} |}.

(** Listeners of which the one for failures throws. *)
Definition touchy : Engine.Listeners :=
  {| Engine.testComplete _ _ := None;
     Engine.testFailure _ message := Some (Js.Error ("alert: " +:+ message)) |}.

(** The options [{}]. *)
Definition bare : ExecutionOptions.t :=
  {| ExecutionOptions.captureOnSuccess := None;
     ExecutionOptions.stopOnFailure := None;
     ExecutionOptions.delayBetweenTests := None |}.

(** A start in which the context cannot be created when the page of the
    world is broken. *)
Definition starter (l : Initialize.Launch) (w : Demo.World)
  : Completion unit * Demo.World :=
  match l with
  | Initialize.NewContext _ =>
      if Demo.brokenPage w
      then (Throw (Js.Error "browser.newContext: Target closed"), Demo.later w)
      else (Normal tt, Demo.later w)
  | _ => (Normal tt, Demo.later w)
  end.

Definition noConfig : Initialize.BrowserConfig :=
  {| Initialize.browser := None; Initialize.headless := None;
     Initialize.args := None; Initialize.timeout := None;
     Initialize.viewport := None; Initialize.ignoreHTTPSErrors := None;
     Initialize.recordVideo := None; Initialize.contextOptions := None |}.

Definition fresh (w : Demo.World) : Initialize.Session Demo.World :=
  {| Initialize.executor := Demo.notInitialized w; Initialize.started := [] |}.

(** A form with one field, the world being the value of the field: the
    field takes what is filled in, a click as asked is intercepted and a
    forced one is not, the text of the element is padded with spaces. *)
Definition form : Utils.Page string :=
  {| Utils.perform op w :=
       match op with
       | Utils.Clear _ => (Normal tt, "")
       | Utils.Fill _ text => (Normal tt, text)
       | Utils.Click _ _ force _ =>
           if bool_decide (force = Some true) then (Normal tt, w)
           else (Throw (Js.Error "locator.click: element intercepts pointer events"), w)
       | _ => (Normal tt, w)
       end;
     Utils.inputValue _ w := (Normal w, w);
     Utils.innerText _ w := (Normal "", w);
     Utils.textContent _ w := (Normal (Some "  Total: 3 "), w);
     Utils.timer _ w := w |}.

Definition utils : Utils.UtilsConfig :=
  Utils.BrowserUtils {| Utils.defaultWaitTimeoutKey := None;
                        Utils.retryConfigKey := None |}.

Definition noOptions : Utils.ElementOptions :=
  {| Utils.waitForVisible := None; Utils.timeout := None;
     Utils.force := None; Utils.position := None |}.

Definition empty : Utils.Session string :=
  {| Utils.world := ""; Utils.log := [] |}.

End MoreSamples.

(** * Properties *)

#[local] Arguments String.append !_ _ / : simpl nomatch.

(** ** Strings *)

Module StringFacts.

Lemma append_nil_r (s : string) : s +:+ "" = s.
Proof. induction s as [|c s IH]; simpl; [reflexivity | now f_equal]. Qed.

Lemma append_assoc (a b c : string) : (a +:+ b) +:+ c = a +:+ (b +:+ c).
Proof. induction a as [|x a IH]; simpl; [reflexivity | now f_equal]. Qed.

Lemma length_append (a b : string) :
  String.length (a +:+ b) = (String.length a + String.length b)%nat.
Proof. induction a as [|x a IH]; simpl; [reflexivity | now f_equal]. Qed.

Lemma allChars_append p (a b : string) :
  Js.allChars p (a +:+ b) = Js.allChars p a && Js.allChars p b.
Proof.
  induction a as [|x a IH]; simpl; [reflexivity|].
  rewrite IH. now rewrite andb_assoc.
Qed.

Lemma brace_not_word c : Js.isBrace c = true -> Js.isWordChar c = false.
Proof.
  unfold Js.isBrace. intros H. apply orb_true_iff in H.
  destruct H as [H|H]; apply Ascii.eqb_eq in H; subst c; reflexivity.
Qed.

End StringFacts.

(** ** The global replace *)

Module TemplateFacts.
Import Template StringFacts.

(** [spanWord] cuts its argument in two, the first part made of word
    characters, the second one not starting with one. *)
Lemma spanWord_spec (s w r : string) :
  spanWord s = (w, r) ->
  s = w +:+ r /\ Js.allChars Js.isWordChar w = true /\
  match r with String c _ => Js.isWordChar c = false | EmptyString => True end.
Proof.
  revert w r. induction s as [|c s IH]; simpl; intros w r H.
  - inversion H; subst. auto.
  - destruct (Js.isWordChar c) eqn:Hc.
    + destruct (spanWord s) as [w' r'] eqn:Hs. inversion H; subst.
      destruct (IH _ _ eq_refl) as (-> & Hw & Hr). simpl. rewrite Hc. auto.
    + inversion H; subst. simpl. auto.
Qed.

Lemma spanWord_append (w r : string) :
  Js.allChars Js.isWordChar w = true ->
  match r with String c _ => Js.isWordChar c = false | EmptyString => True end ->
  spanWord (w +:+ r) = (w, r).
Proof.
  intros Hw Hr. induction w as [|c w IH]; simpl in *.
  - destruct r as [|c r]; [reflexivity|]. simpl. now rewrite Hr.
  - apply andb_true_iff in Hw as [Hc Hw]. rewrite Hc, (IH Hw). reflexivity.
Qed.

(** What follows the word run may be extended, as long as the word run is
    followed by something. *)
Lemma spanWord_extend (s w r y : string) :
  spanWord s = (w, r) ->
  match r +:+ y with String c _ => Js.isWordChar c = false | EmptyString => True end ->
  spanWord (s +:+ y) = (w, r +:+ y).
Proof.
  intros H Hy. destruct (spanWord_spec _ _ _ H) as (-> & Hw & _).
  rewrite append_assoc. now apply spanWord_append.
Qed.

Lemma matchPlaceholder_Some (s key rest : string) :
  matchPlaceholder s = Some (key, rest) ->
  s = placeholder key +:+ rest /\ isKey key = true.
Proof.
  unfold matchPlaceholder, placeholder, isKey.
  destruct s as [|a [|b t]]; try discriminate.
  - destruct a as [[] [] [] [] [] [] [] []]; discriminate.
  - destruct (Ascii.eqb_spec a "{"); [subst a|];
    [|destruct a as [[] [] [] [] [] [] [] []]; try discriminate; contradiction].
    destruct (Ascii.eqb_spec b "{"); [subst b|];
    [|destruct b as [[] [] [] [] [] [] [] []]; try discriminate; contradiction].
    destruct (spanWord t) as [w r] eqn:Hs.
    destruct (spanWord_spec _ _ _ Hs) as (-> & Hw & _).
    destruct w as [|k ks]; [discriminate|].
    destruct r as [|c1 [|c2 r]]; try discriminate.
    + destruct c1 as [[] [] [] [] [] [] [] []]; discriminate.
    + destruct (Ascii.eqb_spec c1 "}"); [subst c1|];
      [|destruct c1 as [[] [] [] [] [] [] [] []]; try discriminate; contradiction].
      destruct (Ascii.eqb_spec c2 "}"); [subst c2|];
      [|destruct c2 as [[] [] [] [] [] [] [] []]; try discriminate; contradiction].
      intros H; inversion H; subst. split; [|exact Hw].
      simpl. rewrite !append_assoc. reflexivity.
Qed.

Lemma matchPlaceholder_here (key rest : string) :
  isKey key = true ->
  matchPlaceholder (placeholder key +:+ rest) = Some (key, rest).
Proof.
  unfold isKey, placeholder. intros H. apply andb_true_iff in H as [Hne Hw].
  simpl. rewrite !append_assoc.
  rewrite (spanWord_append key ("}}" +:+ rest) Hw) by reflexivity.
  destruct key; [discriminate | reflexivity].
Qed.

(** Passing over the rest of a match. *)
Lemma replaceFrom_skip f (m rest : string) :
  replaceFrom f (String.length m) (m +:+ rest) = replaceFrom f 0 rest.
Proof.
  induction m as [|c m IH]; simpl; [|exact IH].
  destruct rest; reflexivity.
Qed.

(** The two equations of the global replace: at a match the replacer's
    text is emitted and the scan goes on after the match; elsewhere one
    character is copied. *)
Lemma replace_match f (s key rest : string) :
  matchPlaceholder s = Some (key, rest) ->
  replacePlaceholders f s
  = f (placeholder key) key +:+ replacePlaceholders f rest.
Proof.
  intros H. destruct (matchPlaceholder_Some _ _ _ H) as [Hs _].
  unfold replacePlaceholders. destruct s as [|c t]; [discriminate|].
  cbn [replaceFrom]. rewrite H. f_equal.
  unfold placeholder in Hs. simpl in Hs. inversion Hs as [[Hc Ht]].
  replace (String.length key + 3)%nat
    with (String.length ("{" +:+ key +:+ "}}")) by
    (rewrite !length_append; simpl; lia).
  change (String "{" (key +:+ "}}") +:+ rest)
    with (("{" +:+ key +:+ "}}") +:+ rest).
  apply replaceFrom_skip.
Qed.

Lemma replace_nomatch f (c : ascii) (t : string) :
  matchPlaceholder (String c t) = None ->
  replacePlaceholders f (String c t) = String c (replacePlaceholders f t).
Proof.
  intros H. unfold replacePlaceholders. cbn [replaceFrom]. now rewrite H.
Qed.

Lemma matchPlaceholder_not_brace (c : ascii) (t : string) :
  Ascii.eqb c "{" = false -> matchPlaceholder (String c t) = None.
Proof.
  intros H. destruct (matchPlaceholder (String c t)) as [[key rest]|] eqn:Hm;
    [|reflexivity].
  apply matchPlaceholder_Some in Hm as [Hs _]. unfold placeholder in Hs.
  simpl in Hs. inversion Hs; subst. discriminate.
Qed.

(** Text without an opening brace is copied. *)
Lemma replace_no_open f (u rest : string) :
  Js.allChars (fun c => negb (Ascii.eqb c "{")) u = true ->
  replacePlaceholders f (u +:+ rest) = u +:+ replacePlaceholders f rest.
Proof.
  induction u as [|c u IH]; simpl; intros H; [reflexivity|].
  apply andb_true_iff in H as [Hc Hu].
  rewrite replace_nomatch
    by (apply matchPlaceholder_not_brace; now destruct (Ascii.eqb c "{")).
  now rewrite IH.
Qed.

(** A failed match stays failed when the text is continued by an opening
    pair of braces. *)
Lemma matchPlaceholder_continued (c : ascii) (t x : string) :
  matchPlaceholder (String c t) = None ->
  matchPlaceholder (String c t +:+ "{{" +:+ x) = None.
Proof.
  intros H.
  destruct (matchPlaceholder (String c t +:+ "{{" +:+ x)) as [[key rest]|] eqn:Hm;
    [exfalso|reflexivity].
  destruct (matchPlaceholder_Some _ _ _ Hm) as [Hs Hk].
  unfold placeholder in Hs. simpl in Hs. inversion Hs as [[Hc Ht]]. subst c.
  destruct t as [|b t].
  - (* the text is a single brace *)
    simpl in Ht. inversion Ht as [Hkey].
    unfold isKey in Hk. destruct key as [|k key]; [discriminate|].
    simpl in Hkey. inversion Hkey; subst k. discriminate.
  - simpl in Ht. inversion Ht as [[Hb Ht']]. subst b.
    (* the text is [{{ t]; cut [t] at its word run *)
    destruct (spanWord t) as [w r] eqn:Hsp.
    assert (Hext : spanWord (t +:+ "{{" +:+ x) = (w, r +:+ "{{" +:+ x)).
    { apply spanWord_extend; [exact Hsp|]. destruct r as [|c r]; simpl.
      - reflexivity.
      - now destruct (spanWord_spec _ _ _ Hsp) as (_ & _ & Hr). }
    change (String "{" (String "{" t) +:+ "{{" +:+ x)
      with (String "{" (String "{" (t +:+ "{{" +:+ x))) in Hm.
    unfold matchPlaceholder in Hm, H. rewrite Hext in Hm. rewrite Hsp in H.
    destruct w as [|k ks]; [discriminate|].
    destruct r as [|c1 [|c2 r]]; simpl in Hm.
    + discriminate.
    + destruct c1 as [[] [] [] [] [] [] [] []]; discriminate.
    + destruct c1 as [[] [] [] [] [] [] [] []]; try discriminate;
      destruct c2 as [[] [] [] [] [] [] [] []]; discriminate.
Qed.

(** The scan of the text before an opening pair of braces does not depend
    on what the pair opens: no match can run over the pair, whose second
    brace stands where a match wants a word character. *)
Lemma replace_before_open f (pre x : string) :
  replacePlaceholders f (pre +:+ "{{" +:+ x)
  = replacePlaceholders f pre +:+ replacePlaceholders f ("{{" +:+ x).
Proof.
  remember (String.length pre) as n eqn:Hn. revert pre Hn.
  induction n as [n IH] using lt_wf_ind. intros pre Hn.
  destruct pre as [|c t]; [reflexivity|].
  destruct (matchPlaceholder (String c t)) as [[key rest]|] eqn:Hm.
  - destruct (matchPlaceholder_Some _ _ _ Hm) as [Hs Hk].
    rewrite (replace_match f _ _ _ Hm). rewrite Hs at 1.
    rewrite append_assoc.
    rewrite (replace_match f _ key (rest +:+ "{{" +:+ x))
      by now apply matchPlaceholder_here.
    rewrite (IH (String.length rest)); [now rewrite append_assoc | | reflexivity].
    subst n. rewrite Hs. unfold placeholder. rewrite !length_append. simpl. lia.
  - rewrite (replace_nomatch f _ _ Hm).
    pose proof (matchPlaceholder_continued c t x Hm) as Hm'.
    change (String c t +:+ "{{" +:+ x) with (String c (t +:+ "{{" +:+ x)) in Hm' |- *.
    rewrite (replace_nomatch f _ _ Hm').
    simpl. f_equal. apply (IH (String.length t)); [subst n; simpl; lia | reflexivity].
Qed.

(** A key with a character outside the word characters has one after its
    word run. *)
Lemma spanWord_stops (k : string) :
  Js.allChars Js.isWordChar k = false ->
  exists w c r, spanWord k = (w, String c r) /\ Js.isWordChar c = false
                /\ k = w +:+ String c r.
Proof.
  intros H. destruct (spanWord k) as [w r] eqn:Hs.
  destruct (spanWord_spec _ _ _ Hs) as (Hk & Hw & Hr).
  destruct r as [|c r].
  - rewrite append_nil_r in Hk. subst w. congruence.
  - exists w, c, r. auto.
Qed.

(** The text of a placeholder whose key has a character outside the word
    characters and no brace is copied. *)
Lemma replace_non_key f (k post : string) :
  Js.allChars Js.isWordChar k = false ->
  Js.allChars (fun c => negb (Js.isBrace c)) k = true ->
  replacePlaceholders f (placeholder k +:+ post)
  = placeholder k +:+ replacePlaceholders f post.
Proof.
  intros Hnw Hnb.
  destruct (spanWord_stops k Hnw) as (w & c & r & Hs & Hc & Hk).
  assert (Hcb : Js.isBrace c = false).
  { rewrite Hk, allChars_append in Hnb. apply andb_true_iff in Hnb as [_ Hnb].
    simpl in Hnb. apply andb_true_iff in Hnb as [Hnb _].
    now destruct (Js.isBrace c). }
  unfold placeholder. simpl. rewrite !append_assoc.
  (* the first brace: the word run of [k] is not followed by a closing brace *)
  rewrite replace_nomatch.
  2:{ unfold matchPlaceholder.
      rewrite (spanWord_extend k w (String c r) ("}}" +:+ post) Hs) by exact Hc.
      destruct w; [reflexivity|]. simpl.
      unfold Js.isBrace in Hcb. apply orb_false_iff in Hcb as [_ Hcb].
      destruct c as [[] [] [] [] [] [] [] []]; try reflexivity; discriminate. }
  (* the second brace: [k] does not start with a brace *)
  rewrite replace_nomatch.
  2:{ destruct k as [|c0 k0]; [discriminate|]. simpl in Hnb |- *.
      apply andb_true_iff in Hnb as [Hc0 _].
      unfold Js.isBrace in Hc0. apply negb_true_iff, orb_false_iff in Hc0 as [Hc0 _].
      destruct c0 as [[] [] [] [] [] [] [] []]; try reflexivity; discriminate. }
  (* the key and the closing braces hold no opening brace *)
  rewrite <- append_assoc. rewrite replace_no_open; [now rewrite append_assoc|].
  rewrite allChars_append. apply andb_true_iff. split; [|reflexivity].
  clear -Hnb. induction k as [|c k IH]; simpl in *; [reflexivity|].
  apply andb_true_iff in Hnb as [Hc Hk]. rewrite (IH Hk), andb_true_r.
  unfold Js.isBrace in Hc. apply negb_true_iff, orb_false_iff in Hc as [Hc _].
  now rewrite Hc.
Qed.

(** Two texts that are equal after one more character are equal before
    it. *)
Lemma append_last_inj (x y : string) (c d : ascii) :
  x +:+ String c "" = y +:+ String d "" -> x = y /\ c = d.
Proof.
  revert y. induction x as [|a x IH]; intros [|b y] H; cbn in H.
  - now inversion H.
  - inversion H as [[Ha Hy]]. destruct y; discriminate.
  - inversion H as [[Ha Hx]]. destruct x; discriminate.
  - inversion H as [[Ha Hx]]. destruct (IH _ Hx) as [-> ->]. now split.
Qed.

(** A failed match on a text that ends with a closing pair of braces
    stays failed when the text is continued: the word run of the match
    would have to run over a closing brace. *)
Lemma matchPlaceholder_closed (v post : string) :
  matchPlaceholder (v +:+ "}}") = None ->
  matchPlaceholder (v +:+ "}}" +:+ post) = None.
Proof.
  intros H. destruct v as [|a [|b t]].
  - reflexivity.
  - destruct a as [[] [] [] [] [] [] [] []]; reflexivity.
  - destruct (Ascii.eqb_spec a "{") as [->|Ha];
      [|destruct a as [[] [] [] [] [] [] [] []]; try reflexivity; contradiction].
    destruct (Ascii.eqb_spec b "{") as [->|Hb];
      [|destruct b as [[] [] [] [] [] [] [] []]; try reflexivity; contradiction].
    change (matchPlaceholder (String "{" (String "{" (t +:+ "}}"))) = None) in H.
    change (matchPlaceholder (String "{" (String "{" (t +:+ "}}" +:+ post))) = None).
    unfold matchPlaceholder in *.
    destruct (spanWord (t +:+ "}}")) as [w r] eqn:Hs.
    destruct (spanWord_spec _ _ _ Hs) as (Ht & Hw & Hr).
    destruct r as [|c1 r1].
    { (* the word run cannot hold the closing braces *)
      rewrite append_nil_r in Ht. rewrite <- Ht, allChars_append in Hw.
      apply andb_true_iff in Hw as [_ Hw]. discriminate. }
    rewrite <- append_assoc.
    rewrite (spanWord_extend _ w (String c1 r1) post Hs) by exact Hr.
    destruct w as [|k ks]; [reflexivity|].
    destruct r1 as [|c2 r2].
    { (* a single character is left: the word run ends with a brace *)
      exfalso. assert (Hlast : Js.allChars Js.isWordChar (t +:+ "}") = true).
      { assert (He : (t +:+ "}") +:+ "}" = String k ks +:+ String c1 "")
          by (rewrite append_assoc; exact Ht).
        apply append_last_inj in He as [-> _]. exact Hw. }
      rewrite allChars_append in Hlast.
      apply andb_true_iff in Hlast as [_ Hlast]. discriminate. }
    cbn [String.append] in H |- *.
    destruct c1 as [[] [] [] [] [] [] [] []]; try reflexivity;
      destruct c2 as [[] [] [] [] [] [] [] []]; try reflexivity; discriminate.
Qed.

(** A text that ends with a closing pair of braces and holds no
    placeholder is copied. *)
Lemma replace_closed f (u post : string) :
  hasPlaceholder (u +:+ "}}") = false ->
  replacePlaceholders f (u +:+ "}}" +:+ post)
  = u +:+ "}}" +:+ replacePlaceholders f post.
Proof.
  induction u as [|c u IH]; intros H.
  - cbn [String.append]. now rewrite !replace_nomatch by reflexivity.
  - change (String c u +:+ "}}") with (String c (u +:+ "}}")) in H.
    cbn [hasPlaceholder] in H.
    destruct (matchPlaceholder (String c (u +:+ "}}"))) eqn:Hm; [discriminate|].
    change (String c u +:+ "}}" +:+ post) with (String c (u +:+ "}}" +:+ post)).
    rewrite replace_nomatch
      by (apply (matchPlaceholder_closed (String c u) post); exact Hm).
    rewrite (IH H). reflexivity.
Qed.

(** A key without braces and with a character outside the word characters
    makes a text without placeholder. *)
Lemma hasPlaceholder_non_key (k : string) :
  Js.allChars Js.isWordChar k = false ->
  Js.allChars (fun c => negb (Js.isBrace c)) k = true ->
  hasPlaceholder (placeholder k) = false.
Proof.
  intros Hnw Hnb.
  destruct (spanWord_stops k Hnw) as (w & c & r & Hs & Hc & Hk).
  assert (Hcb : Js.isBrace c = false).
  { rewrite Hk, allChars_append in Hnb. apply andb_true_iff in Hnb as [_ Hnb].
    simpl in Hnb. apply andb_true_iff in Hnb as [Hnb _].
    now destruct (Js.isBrace c). }
  unfold placeholder. cbn [String.append hasPlaceholder].
  (* the first brace: the word run of [k] is not followed by a closing brace *)
  assert (H1 : matchPlaceholder (String "{" (String "{" (k +:+ "}}"))) = None).
  { unfold matchPlaceholder.
    rewrite (spanWord_extend k w (String c r) "}}" Hs) by exact Hc.
    destruct w; [reflexivity|]. simpl.
    unfold Js.isBrace in Hcb. apply orb_false_iff in Hcb as [_ Hcb].
    destruct c as [[] [] [] [] [] [] [] []]; try reflexivity; discriminate. }
  rewrite H1.
  (* the second brace: [k] does not start with a brace *)
  assert (H2 : matchPlaceholder (String "{" (k +:+ "}}")) = None).
  { destruct k as [|c0 k0]; [discriminate|]. simpl in Hnb |- *.
    apply andb_true_iff in Hnb as [Hc0 _].
    unfold Js.isBrace in Hc0. apply negb_true_iff, orb_false_iff in Hc0 as [Hc0 _].
    destruct c0 as [[] [] [] [] [] [] [] []]; try reflexivity; discriminate. }
  rewrite H2.
  (* the key and the closing braces hold no opening brace *)
  clear -Hnb. induction k as [|c k IH].
  - reflexivity.
  - simpl in Hnb. apply andb_true_iff in Hnb as [Hc Hk].
    change (String c k +:+ "}}") with (String c (k +:+ "}}")).
    cbn [hasPlaceholder]. rewrite matchPlaceholder_not_brace; [exact (IH Hk)|].
    unfold Js.isBrace in Hc. now apply negb_true_iff, orb_false_iff in Hc as [Hc _].
Qed.

(** A text in which a placeholder occurs is cut at it. *)
Lemma hasPlaceholder_cut (s : string) :
  hasPlaceholder s = true ->
  exists a key b, s = a +:+ placeholder key +:+ b /\ isKey key = true.
Proof.
  induction s as [|c s IH]; intros H; [discriminate|].
  cbn [hasPlaceholder] in H.
  destruct (matchPlaceholder (String c s)) as [[key rest]|] eqn:Hm.
  - destruct (matchPlaceholder_Some _ _ _ Hm) as [Hs Hk].
    exists "", key, rest. now rewrite Hs.
  - destruct (IH H) as (a & key & b & -> & Hk).
    now exists (String c a), key, b.
Qed.

(** The text of a placeholder whose key is a run of word characters is
    handed to the replacer. *)
Lemma replace_key f (pre key post : string) :
  isKey key = true ->
  replacePlaceholders f (pre +:+ placeholder key +:+ post)
  = replacePlaceholders f pre +:+ f (placeholder key) key
      +:+ replacePlaceholders f post.
Proof.
  intros Hk. unfold placeholder at 1. rewrite !append_assoc.
  rewrite replace_before_open. f_equal.
  rewrite <- (append_assoc key), <- (append_assoc "{{").
  apply replace_match. now apply (matchPlaceholder_here key post).
Qed.

End TemplateFacts.

(** ** [resolveValue] *)

Module ResolveValue.
Import Template StringFacts TemplateFacts.

Lemma mergedData_lookup (testData : gmap string Js.Value)
    (data : option (gmap string Js.Value)) (k : string) :
  mergedData testData data !! k
  = match stepValue data k with
    | Some v => Some v
    | None => testData !! k
    end.
Proof.
  unfold mergedData, Js.spread, stepValue. destruct data as [d|].
  - rewrite lookup_union. destruct (d !! k), (testData !! k); reflexivity.
  - reflexivity.
Qed.

(** C4, as amended. The step data is merged over the test data, a key of
    the step winning. An occurrence of [{{key}}] whose key is a run of word
    characters is replaced by the string form of the merged value when the
    key is present with a value other than [undefined] (a number being a
    safe integer, printed with all its digits); it is left as it is when
    the key is present with the value [undefined], and when the key is
    absent and is not a name plain objects inherit. *)
Theorem resolveValue_placeholder (pre key post : string)
    (testData : gmap string Js.Value) (data : option (gmap string Js.Value)) :
  isKey key = true ->
  let merged := mergedData testData data in
  (forall k, merged !! k = match stepValue data k with
                           | Some v => Some v
                           | None => testData !! k
                           end)
  /\ (forall v, merged !! key = Some v -> v <> Js.Undefined ->
       Js.representable v = true ->
       resolveValue (pre +:+ placeholder key +:+ post) merged
       = resolveValue pre merged +:+ Js.toString v +:+ resolveValue post merged)
  /\ (merged !! key = Some Js.Undefined
      \/ (merged !! key = None /\ Js.objectPrototype key = Js.Undefined) ->
      resolveValue (pre +:+ placeholder key +:+ post) merged
      = resolveValue pre merged +:+ placeholder key +:+ resolveValue post merged).
Proof.
  intros Hk merged. split; [|split].
  - intros k. apply mergedData_lookup.
  - intros v Hv Hdef _. unfold resolveValue. rewrite replace_key by exact Hk.
    unfold Js.get. rewrite Hv. now destruct v.
  - intros H. unfold resolveValue. rewrite replace_key by exact Hk.
    unfold Js.get. destruct H as [H | [H Hp]]; rewrite H; [|rewrite Hp]; reflexivity.
Qed.

(** The two examples of the specification, obtained from the theorem. *)
Lemma resolveValue_placeholder_witness :
  resolveValue "{{username}}" (mergedData {[ "username" := Js.Str "alice" ]} None)
  = "alice"
  /\ resolveValue "{{missing}}" (mergedData {[ "username" := Js.Str "alice" ]} None)
    = "{{missing}}".
Proof.
  split.
  - exact (proj1 (proj2 (resolveValue_placeholder "" "username" ""
             {[ "username" := Js.Str "alice" ]} None eq_refl))
           (Js.Str "alice") eq_refl ltac:(discriminate) eq_refl).
  - exact (proj2 (proj2 (resolveValue_placeholder "" "missing" ""
             {[ "username" := Js.Str "alice" ]} None eq_refl))
           (or_intror (conj eq_refl eq_refl))).
Defined.

(** A key of the step data wins over the same key of the test data. *)
Example resolveValue_step_data_wins :
  resolveValue "{{username}} / {{role}}"
    (mergedData {[ "username" := Js.Str "alice"; "role" := Js.Str "admin" ]}
       (Some {[ "username" := Js.Str "bob" ]}))
  = "bob / admin".
Proof. reflexivity. Qed.

(** C4, as stated, fails: a key that is present in the merged data but is
    not a run of word characters is not replaced. *)
Lemma resolveValue_present_key_not_replaced :
  let merged := mergedData {[ "user-name" := Js.Str "bob" ]} None in
  merged !! "user-name" = Some (Js.Str "bob")
  /\ resolveValue "{{user-name}}" merged = "{{user-name}}"
  /\ resolveValue "{{user-name}}" merged <> Js.toString (Js.Str "bob").
Proof. vm_compute. repeat split; discriminate. Qed.

(** A name inherited from [Object.prototype] is defined on every data
    object: its placeholder is replaced although the key is absent. *)
Example resolveValue_inherited_name :
  resolveValue "{{constructor}}" (mergedData ∅ None)
  = "function Object() { [native code] }".
Proof. reflexivity. Qed.

(** C10, as amended. An occurrence of [{{k}}] where [k] holds a character
    outside the word characters is left as it is, whatever the data holds,
    unless its text itself holds a placeholder of the pattern, with a key
    made of word characters, which takes a brace in [k]: a key without
    braces always leaves its text without one. *)
Theorem resolveValue_non_word_key (pre k post : string)
    (data : gmap string Js.Value) :
  Js.allChars Js.isWordChar k = false ->
  (hasPlaceholder (placeholder k) = false ->
   resolveValue (pre +:+ placeholder k +:+ post) data
   = resolveValue pre data +:+ placeholder k +:+ resolveValue post data)
  /\ (Js.allChars (fun c => negb (Js.isBrace c)) k = true ->
      hasPlaceholder (placeholder k) = false)
  /\ (hasPlaceholder (placeholder k) = true ->
      exists a key b,
        placeholder k = a +:+ placeholder key +:+ b /\ isKey key = true).
Proof.
  intros Hnw. split; [|split].
  - intros Hfree. unfold resolveValue, placeholder at 1.
    rewrite !append_assoc, replace_before_open. f_equal.
    change ("{{" +:+ k +:+ "}}" +:+ post) with (("{{" +:+ k) +:+ "}}" +:+ post).
    rewrite replace_closed; [unfold placeholder; now rewrite !append_assoc|].
    unfold placeholder in Hfree. now rewrite append_assoc.
  - now apply hasPlaceholder_non_key.
  - apply hasPlaceholder_cut.
Qed.

Lemma resolveValue_non_word_key_witness :
  resolveValue "Hello {{user-name}}, {{greeting}}"
    {[ "user-name" := Js.Str "bob"; "greeting" := Js.Str "welcome" ]}
  = "Hello {{user-name}}, welcome".
Proof.
  exact (proj1 (resolveValue_non_word_key "Hello " "user-name" ", {{greeting}}"
                  {[ "user-name" := Js.Str "bob"; "greeting" := Js.Str "welcome" ]}
                  eq_refl)
           eq_refl).
Defined.

(** Keys with braces that complete no placeholder are left as they are
    too. *)
Example resolveValue_braces_verbatim :
  let data : gmap string Js.Value :=
    {[ "a}b" := Js.Str "x"; "a{b" := Js.Str "y"; "}a" := Js.Str "z";
       "a" := Js.Str "v"; "b" := Js.Str "w" ]} in
  hasPlaceholder (placeholder "a}b") = false
  /\ resolveValue (placeholder "a}b") data = placeholder "a}b"
  /\ hasPlaceholder (placeholder "a{b") = false
  /\ resolveValue (placeholder "a{b") data = placeholder "a{b"
  /\ hasPlaceholder (placeholder "}a") = false
  /\ resolveValue (placeholder "}a") data = placeholder "}a".
Proof. vm_compute. repeat split; reflexivity. Qed.

(** C10, as stated, fails when braces of the key complete a placeholder:
    in [{{a}}}] the text [{{a}}] is a placeholder of its own, and so is
    [{{y}}] in [{{x{{y}}] and [{{a}}] in [{{{a}}]. *)
Lemma resolveValue_brace_in_key :
  let data : gmap string Js.Value :=
    {[ "a}" := Js.Str "x"; "{a" := Js.Str "u"; "a" := Js.Str "y";
       "y" := Js.Str "v" ]} in
  Js.allChars Js.isWordChar "a}" = false
  /\ data !! "a}" = Some (Js.Str "x")
  /\ resolveValue (placeholder "a}") data = "y}"
  /\ resolveValue (placeholder "a}") data <> placeholder "a}"
  /\ Js.allChars Js.isWordChar "x{{y" = false
  /\ resolveValue (placeholder "x{{y") data = "{{xv"
  /\ resolveValue (placeholder "x{{y") data <> placeholder "x{{y"
  /\ Js.allChars Js.isWordChar "{a" = false
  /\ resolveValue (placeholder "{a") data = "{y"
  /\ resolveValue (placeholder "{a") data <> placeholder "{a".
Proof. vm_compute. repeat split; discriminate. Qed.

End ResolveValue.

(** ** [retryOperation] *)

Module RetryFacts.
Import Retry RetrySpec.

Section RetryOperation.
Context {World T : Type}.
Variable operation : World -> Completion T * World.
Variable sleep : Z -> World -> World.

(** The loop, entered at attempt [attempt] with the iterations its
    header allows: the outcomes are those of the invocations made, all
    failures but possibly the last, which is the result; the loop gives
    up only after attempt [maxRetries]. *)
Lemma retryLoop_spec (retryConfig : RetryConfig) (remaining : nat) :
  forall (attempt : Z) (lastError : option Js.Thrown) (r : Run World T),
    (0 < remaining)%nat ->
    Z.of_nat remaining = maxRetries retryConfig + 1 - attempt ->
    exists outcomes : list (Completion T),
      let (result, r') := retryLoop operation sleep retryConfig remaining
                            attempt lastError r in
      attempts operation sleep retryConfig attempt (world r) outcomes (world r')
      /\ events r' = events r ++ retryTrace retryConfig attempt outcomes
      /\ (0 < length outcomes <= remaining)%nat
      /\ Forall Js.threw (removelast outcomes)
      /\ List.last outcomes (Throw (Js.NonError Js.Undefined)) = result
      /\ (Js.threw result -> length outcomes = remaining).
Proof.
  induction remaining as [|n IH]; intros attempt lastError r Hpos Hrem; [lia|].
  cbn [retryLoop]. destruct (operation (world r)) as [outcome w1] eqn:Hop.
  destruct outcome as [v|error].
  - exists [Normal v]. simpl. repeat split; auto; try lia; try (now intros []).
  - destruct (Z.eqb_spec attempt (maxRetries retryConfig)) as [Heq|Hne].
    + exists [Throw error]. simpl. repeat split; auto; lia.
    + assert (Hwait : backoffDelay retryConfig attempt = waits retryConfig attempt)
        by (unfold backoffDelay, waits; now destruct (backoff retryConfig)).
      rewrite Hwait.
      destruct (IH (attempt + 1) (Some error)
                  {| world := sleep (waits retryConfig attempt) w1;
                     events := (events r ++ [Invoked (Throw error)])
                               ++ [Warned (warning attempt (waits retryConfig attempt));
                                   Slept (waits retryConfig attempt)] |})
        as [outcomes Houts]; [lia | lia |].
      exists (Throw error :: outcomes).
      destruct (retryLoop operation sleep retryConfig n (attempt + 1) _ _)
        as [result r'].
      destruct Houts as (Hatt & Hev & Hlen & Hfail & Hlast & Hall).
      destruct outcomes as [|o outs]; [simpl in Hlen; lia|].
      repeat split.
      * cbn [attempts]. exists w1. split; [exact Hop|exact Hatt].
      * rewrite Hev. cbn [events retryTrace]. rewrite <- !app_assoc. reflexivity.
      * simpl; lia.
      * simpl in Hlen |- *; lia.
      * change (removelast (Throw error :: o :: outs))
          with (Throw error :: removelast (o :: outs)).
        constructor; [exact I | exact Hfail].
      * exact Hlast.
      * intros Hf. simpl in *. now rewrite (Hall Hf).
Qed.

(** C2. With a retry count that is not negative, [retryOperation] makes
    at most [maxRetries + 1] attempts. Each attempt invokes the operation
    in the world left to it; every attempt before the last failed and the
    result is the outcome of the last one, the value of the first success
    or the error of the last failure as it was thrown; it fails only after
    [maxRetries + 1] failed attempts; and after failed attempt [i] that is
    not the last it warns and waits for [delay] (linear) or [delay * 2^i]
    (exponential), the wait passing in the world before the next
    attempt. *)
Theorem retryOperation_spec (retryConfig : RetryConfig) (r : Run World T) :
  0 <= maxRetries retryConfig ->
  exists outcomes : list (Completion T),
    let (result, r') := retryOperation operation sleep retryConfig r in
    attempts operation sleep retryConfig 0 (world r) outcomes (world r')
    /\ events r' = events r ++ retryTrace retryConfig 0 outcomes
    /\ (0 < Z.of_nat (length outcomes) <= maxRetries retryConfig + 1)
    /\ Forall Js.threw (removelast outcomes)
    /\ List.last outcomes (Throw (Js.NonError Js.Undefined)) = result
    /\ (Js.threw result -> Z.of_nat (length outcomes) = maxRetries retryConfig + 1).
Proof.
  intros Hmax. unfold retryOperation.
  destruct (retryLoop_spec retryConfig (Z.to_nat (maxRetries retryConfig + 1))
              0 None r) as [outcomes H]; [lia | lia |].
  exists outcomes.
  destruct (retryLoop operation sleep retryConfig _ 0 None r) as [result r'].
  destruct H as (Hatt & Hev & Hlen & Hfail & Hlast & Hall).
  repeat split; auto; try lia. intros Hf. rewrite (Hall Hf). lia.
Qed.

End RetryOperation.

(** The pauses grow as [delay], [2 * delay], ... under exponential backoff:
    two failures, then the value. *)
Example retryOperation_flaky :
  retryOperation flaky noSleep defaultRetryConfig {| world := 0%nat; events := [] |}
  = (Normal 2%nat,
     {| world := 3%nat;
        events := [Invoked (Throw (Js.Error "not yet"));
                   Warned "Operation failed (attempt 1), retrying in 1000ms...";
                   Slept 1000;
                   Invoked (Throw (Js.Error "not yet"));
                   Warned "Operation failed (attempt 2), retrying in 2000ms...";
                   Slept 2000;
                   Invoked (Normal 2%nat)] |}).
Proof. vm_compute. reflexivity. Qed.

(** The waits pass in the world between the attempts: an operation that
    fails until the clock, which only the waits move, has reached 3000. *)
Example retryOperation_waits :
  let operation (clock : Z) : Completion Z * Z :=
    if clock <? 3000 then (Throw (Js.Error "too early"), clock)
    else (Normal clock, clock) in
  let sleep (ms clock : Z) : Z := clock + ms in
  fst (retryOperation operation sleep defaultRetryConfig
         {| world := 0; events := [] |})
  = Normal 3000
  /\ fst (retryOperation operation sleep
           {| maxRetries := 3; delay := 1000; backoff := linear |}
           {| world := 0; events := [] |})
    = Normal 3000
  /\ fst (retryOperation operation sleep
           {| maxRetries := 2; delay := 1000; backoff := linear |}
           {| world := 0; events := [] |})
    = Throw (Js.Error "too early").
Proof. vm_compute. repeat split; reflexivity. Qed.

(** A negative retry count, which the policy does not allow: no attempt is
    made and [undefined] is thrown. *)
Example retryOperation_negative :
  retryOperation flaky noSleep
    {| maxRetries := -1; delay := 1000; backoff := linear |}
    {| world := 0%nat; events := [] |}
  = (Throw (Js.NonError Js.Undefined), {| world := 0%nat; events := [] |}).
Proof. reflexivity. Qed.

Lemma retryOperation_spec_witness :
  exists outcomes : list (Completion nat),
    let (result, r') := retryOperation flaky noSleep defaultRetryConfig
                          {| world := 0%nat; events := [] |} in
    attempts flaky noSleep defaultRetryConfig 0 0%nat outcomes (world r')
    /\ events r' = [] ++ retryTrace defaultRetryConfig 0 outcomes
    /\ (0 < Z.of_nat (length outcomes) <= 3 + 1)
    /\ Forall Js.threw (removelast outcomes)
    /\ List.last outcomes (Throw (Js.NonError Js.Undefined)) = result
    /\ (Js.threw result -> Z.of_nat (length outcomes) = 3 + 1).
Proof.
  apply (retryOperation_spec flaky noSleep defaultRetryConfig
           {| world := 0%nat; events := [] |}).
  simpl. lia.
Defined.

End RetryFacts.

(** ** The result handler *)

Module HandlerFacts.
Import Handler HandlerSamples.

Lemma withKey_prefix (key : string) (keys : list string) :
  TestResult.withKey key keys
  = keys ++ (if bool_decide (key ∈ keys) then [] else [key]).
Proof.
  unfold TestResult.withKey. case_bool_decide; [now rewrite app_nil_r | reflexivity].
Qed.

(** C3, as amended. The copy [processResult] returns has every property of
    its argument, in the same order and, but for [executedAt], with the
    same value; [executedAt] is set to the time of the call and
    [browserInfo] is set to the browser information, each keeping its
    place if the argument had it and added last otherwise. *)
Theorem processResult_frame (h : TestResultHandler) (result : TestResult.t)
    (now : Z) (proc : Process) :
  let enhanced := fst (processResult h result now proc) in
  TestResult.testCaseId enhanced = TestResult.testCaseId result
  /\ TestResult.status enhanced = TestResult.status result
  /\ TestResult.duration enhanced = TestResult.duration result
  /\ TestResult.error enhanced = TestResult.error result
  /\ TestResult.stepResults enhanced = TestResult.stepResults result
  /\ TestResult.artifacts enhanced = TestResult.artifacts result
  /\ TestResult.executedAt enhanced = now
  /\ TestResult.browserInfo enhanced = Some (getBrowserInfo proc)
  /\ TestResult.keys enhanced
     = TestResult.keys result
         ++ filter (fun key => key ∉ TestResult.keys result)
              ["executedAt"; "browserInfo"].
Proof.
  cbn. repeat split.
  unfold TestResult.withKey. cbn [filter list_filter].
  repeat case_bool_decide; repeat case_decide;
    rewrite ?app_nil_r, <- ?app_assoc; try reflexivity;
    repeat match goal with
           | H : _ ∈ _ ++ [_] |- _ =>
               apply elem_of_app in H as [H|H];
               [|apply list_elem_of_singleton in H; try discriminate H]
           | H : ¬ _ ∈ _ ++ [_] |- _ =>
               exfalso; apply H, elem_of_app; now left
           end;
    try contradiction.
Qed.

(** C3, as stated, fails on [executedAt]: the copy holds the time of the
    call, not the time the result was built. *)
Lemma processResult_rewrites_executedAt :
  let enhanced := fst (processResult freshHandler passedAt1000 2000 noEnv) in
  TestResult.executedAt passedAt1000 = 1000
  /\ TestResult.executedAt enhanced = 2000
  /\ TestResult.executedAt enhanced <> TestResult.executedAt passedAt1000.
Proof. cbn. repeat split. discriminate. Qed.

Lemma fold_left_durations (results : list TestResult.t) (start : Z) :
  fold_left (fun sum result => sum + TestResult.duration result) results start
  = start + sumOfDurations results.
Proof.
  revert start. induction results as [|r results IH]; intros start; simpl.
  - lia.
  - rewrite IH. lia.
Qed.

(** C9. Two calls of [generateSummary] on the same results give the same
    counts and the same duration, the sum of the durations of the results,
    whatever the time and the environment of each call; only the end
    time follows the clock. *)
Theorem generateSummary_idempotent (h : TestResultHandler)
    (results : option (list TestResult.t)) (now1 now2 : Z) (proc1 proc2 : Process) :
  let first := generateSummary h results now1 proc1 in
  let second := generateSummary h results now2 proc2 in
  TestSummary.total first = TestSummary.total second
  /\ TestSummary.passed first = TestSummary.passed second
  /\ TestSummary.failed first = TestSummary.failed second
  /\ TestSummary.skipped first = TestSummary.skipped second
  /\ TestSummary.flaky first = TestSummary.flaky second
  /\ TestSummary.duration first = TestSummary.duration second
  /\ TestSummary.duration first
     = sumOfDurations (default (Handler.results h) results)
  /\ TestSummary.endTime first = now1
  /\ TestSummary.endTime second = now2.
Proof.
  cbn. repeat split. now rewrite fold_left_durations.
Qed.

End HandlerFacts.

(** ** The JUnit document *)

Module JunitFacts.
Import Handler HandlerSamples JunitSpec StringFacts.

Lemma replaceAllChar_append (c : ascii) (by_ a b : string) :
  replaceAllChar c by_ (a +:+ b)
  = replaceAllChar c by_ a +:+ replaceAllChar c by_ b.
Proof.
  induction a as [|x a IH]; simpl; [reflexivity|].
  now rewrite IH, append_assoc.
Qed.

Lemma escapeXml_append (a b : string) :
  escapeXml (a +:+ b) = escapeXml a +:+ escapeXml b.
Proof. unfold escapeXml. now rewrite !replaceAllChar_append. Qed.

Lemma escapeXml_char (c : ascii) :
  escapeXml (String c EmptyString) = escapeChar c.
Proof. destruct c as [[] [] [] [] [] [] [] []]; reflexivity. Qed.

(** The five passes of [escapeXml] amount to one: each character is
    escaped on its own, the ampersands of the entities written by the
    first pass being left alone by the later ones. *)
Lemma escapeXml_cons (c : ascii) (s : string) :
  escapeXml (String c s) = escapeChar c +:+ escapeXml s.
Proof.
  change (String c s) with (String c EmptyString +:+ s).
  now rewrite escapeXml_append, escapeXml_char.
Qed.

(** No [<], [>], double or single quote is left in an escaped text. *)
Lemma escapeXml_no_markup (s : string) :
  Js.allChars (fun c => negb (isMarkup c)) (escapeXml s) = true.
Proof.
  induction s as [|c s IH]; [reflexivity|].
  rewrite escapeXml_cons, allChars_append, IH, andb_true_r.
  destruct c as [[] [] [] [] [] [] [] []]; reflexivity.
Qed.

(** C6: the code at a failing input. The failure message is escaped, in
    the attribute and in the text; the test name is written as it is, with
    its [<], [>] and [&]. *)
Theorem exportToJunit_test_name_not_escaped :
  exportToJunit freshHandler (Some [failedWithSpecials]) 0 noEnv
  = "<?xml version=" +:+ quoted "1.0" +:+ " encoding=" +:+ quoted "UTF-8" +:+ "?>"
      +:+ newline
      +:+ "<testsuite name=" +:+ quoted "AI Testing Agent"
      +:+ " tests=" +:+ quoted "1" +:+ " failures=" +:+ quoted "1"
      +:+ " skipped=" +:+ quoted "0" +:+ " time=" +:+ quoted "1.500" +:+ ">"
      +:+ newline
      +:+ "<testcase name=" +:+ quoted "cart<checkout>&pay"
      +:+ " time=" +:+ quoted "1.500" +:+ ">"
      +:+ "<failure message=" +:+ quoted "expected a&lt;b &amp; c&gt;d" +:+ ">"
      +:+ "expected a&lt;b &amp; c&gt;d" +:+ "</failure>" +:+ "</testcase>"
      +:+ newline +:+ "</testsuite>".
Proof. vm_compute. reflexivity. Qed.

End JunitFacts.

(** ** The executor *)

Module ExecutorFacts.
Import Handler Executor ExecutorSpec StringFacts.

Section Facts.
Context {World : Type}.
Variable rt : Runtime World.

(** *** Browsing leaves the executor as it is *)

Lemma unchanged_refl (e : Executor World) : unchanged e e.
Proof. repeat split. Qed.

Lemma unchanged_trans (e1 e2 e3 : Executor World) :
  unchanged e1 e2 -> unchanged e2 e3 -> unchanged e1 e3.
Proof. unfold unchanged. intuition congruence. Qed.

Lemma browses_ret {A} (a : A) : browses (World := World) (ret a).
Proof. intros e. apply unchanged_refl. Qed.

Lemma browses_throw {A} err : browses (World := World) (@throw World A err).
Proof. intros e. apply unchanged_refl. Qed.

Lemma browses_bind {A B} (m : M World A) (k : A -> M World B) :
  browses m -> (forall a, browses (k a)) -> browses (bind m k).
Proof.
  intros Hm Hk e. unfold bind. specialize (Hm e).
  destruct (m e) as [[a|err] e1]; simpl in *; [|exact Hm].
  exact (unchanged_trans _ _ _ Hm (Hk a e1)).
Qed.

Lemma browses_try {A} (m : M World A) : browses m -> browses (try m).
Proof.
  intros Hm e. unfold try. specialize (Hm e). now destruct (m e).
Qed.

Lemma browses_getPage : browses (World := World) getPage.
Proof. intros e. apply unchanged_refl. Qed.

Lemma browses_call c : browses (call rt c).
Proof. intros e. unfold call. destruct (perform rt c (world e)). repeat split. Qed.

Lemma browses_callTextContent s : browses (callTextContent rt s).
Proof.
  intros e. unfold callTextContent. destruct (textContent rt s (world e)).
  repeat split.
Qed.

Lemma browses_callUrl : browses (callUrl rt).
Proof. intros e. repeat split. Qed.

Lemma browses_callTitle : browses (callTitle rt).
Proof. intros e. unfold callTitle. destruct (title rt (world e)). repeat split. Qed.

Lemma browses_callEvaluateTestLogs : browses (callEvaluateTestLogs rt).
Proof.
  intros e. unfold callEvaluateTestLogs. destruct (evaluateTestLogs rt (world e)).
  repeat split.
Qed.

Lemma browses_now : browses (now rt).
Proof. intros e. unfold now. destruct (dateNow rt (world e)). repeat split. Qed.

Lemma browses_consoleLog line : browses (World := World) (consoleLog line).
Proof. intros e. repeat split. Qed.

Ltac browsing :=
  repeat first
    [ apply browses_ret | apply browses_throw | apply browses_getPage
    | apply browses_call | apply browses_callTextContent | apply browses_callUrl
    | apply browses_callTitle | apply browses_callEvaluateTestLogs
    | apply browses_now | apply browses_consoleLog | apply browses_try
    | apply browses_bind; [|intros ?]
    | match goal with
      | |- browses (match ?x with _ => _ end) => destruct x
      | |- browses (if ?b then _ else _) => destruct b
      | |- browses (let _ := _ in _) => cbv zeta
      end ].

Lemma browses_performAssertion step testData :
  browses (performAssertion rt step testData).
Proof. unfold performAssertion. browsing. Qed.

Lemma browses_performAction step testData :
  browses (performAction rt step testData).
Proof.
  unfold performAction. browsing; apply browses_performAssertion.
Qed.

Lemma browses_captureArtifacts id capture :
  browses (captureArtifacts rt id capture).
Proof. unfold captureArtifacts. browsing. Qed.

Lemma browses_delayBetweenTests options :
  browses (delayBetweenTests rt options).
Proof. unfold delayBetweenTests. browsing. Qed.

(** *** The step loop *)

Lemma unchanged_sameCase (e e' : Executor World) : unchanged e e' -> sameCase e e'.
Proof. unfold unchanged, sameCase. intuition. Qed.

Lemma sameCase_trans (e1 e2 e3 : Executor World) :
  sameCase e1 e2 -> sameCase e2 e3 -> sameCase e1 e3.
Proof. unfold sameCase. intuition congruence. Qed.

(** [executeStep] returns on every path; it records one attempt, and its
    result reports it. *)
Lemma executeStep_run (step : TestStep.t) (testData : gmap string Js.Value)
    (e : Executor World) :
  exists stepResult outcome e',
    executeStep rt step testData e = (Normal stepResult, e')
    /\ attemptedSteps e' = attemptedSteps e ++ [(step, outcome)]
    /\ reports stepResult (step, outcome)
    /\ sameCase e e'.
Proof.
  unfold executeStep, bind, try, now, ret, recordStep.
  destruct (dateNow rt (world e)) as [t0 w0].
  pose proof (browses_performAction step testData (withWorld w0 e)) as Hb.
  destruct (performAction rt step testData (withWorld w0 e)) as [outcome e1].
  cbn [snd] in Hb. destruct Hb as (Hb1 & Hb2 & Hb3 & Hb4 & Hb5 & Hb6).
  cbn in Hb1, Hb2, Hb3, Hb4, Hb5, Hb6.
  destruct outcome as [[]|err]; cbn;
    destruct (dateNow rt (world e1)) as [t1 w1]; cbn;
    eexists _, _, _; (split; [reflexivity|]); cbn;
    (split; [now rewrite Hb5|]); (split; [repeat split|]);
    repeat split; assumption.
Qed.

Lemma forSteps_run (steps : list TestStep.t) (testData : gmap string Js.Value) :
  forall (vars : CaseVars) (e : Executor World),
  exists vars' e' attempts results,
    forSteps rt steps testData vars e = (Normal (None, vars'), e')
    /\ attemptedSteps e' = attemptedSteps e ++ attempts
    /\ stepResults vars' = stepResults vars ++ results
    /\ Forall2 reports results attempts
    /\ looped steps vars vars' attempts
    /\ sameCase e e'.
Proof.
  induction steps as [|step rest IH]; intros vars e.
  - exists vars, e, [], []. cbn. rewrite !app_nil_r.
    repeat split; auto. left. repeat split.
  - cbn [forSteps]. unfold bind, try.
    destruct (executeStep_run step testData e)
      as (stepResult & outcome & e1 & Hrun & Hatt & Hrep & Hsame).
    rewrite Hrun. cbn -[Status_eqb].
    destruct outcome as [[]|err].
    + (* the action returned: the loop goes on *)
      destruct Hrep as [Hstep [Hst Herr]]. cbn in Hst, Herr. rewrite Hst. cbn.
      destruct (IH {| stepResults := stepResults vars ++ [stepResult];
                      error := error vars; status := status vars |} e1)
        as (vars' & e' & attempts & results & Hfor & Hatt' & Hres & Hall & Hloop & Hsame').
      exists vars', e', (passing step :: attempts), (stepResult :: results).
      rewrite Hfor. split; [reflexivity|].
      split; [rewrite Hatt', Hatt, <- app_assoc; reflexivity|].
      split; [rewrite Hres; cbn; rewrite <- app_assoc; reflexivity|].
      split; [constructor; [repeat split; assumption | exact Hall]|].
      split; [|exact (sameCase_trans _ _ _ Hsame Hsame')].
      destruct Hloop as [(Ha & Hs & He) | (pre & s & err & rest' & Hsteps & Ha & Hs & He)].
      * left. subst attempts. repeat split; assumption.
      * right. exists (step :: pre), s, err, rest'. subst attempts rest.
        repeat split; assumption.
    + (* the action threw: the loop ends *)
      destruct Hrep as [Hstep [Hst Herr]]. cbn in Hst, Herr. rewrite Hst. cbn.
      eexists _, e1, [(step, Throw err)], [stepResult].
      split; [reflexivity|]. cbn.
      split; [exact Hatt|]. split; [reflexivity|].
      split; [repeat constructor; assumption|].
      split; [|exact Hsame].
      right. exists [], step, err, rest. repeat split. exact Herr.
Qed.

Lemma now_eq (e : Executor World) :
  now rt e = (Normal (fst (dateNow rt (world e))),
              withWorld (snd (dateNow rt (world e))) e).
Proof. unfold now. now destruct (dateNow rt (world e)). Qed.

(** [executeStep] performs the action of the step once, after it has read
    the clock, and reports the outcome of the action. *)
Lemma executeStep_acted (step : TestStep.t) (testData : gmap string Js.Value)
    (e : Executor World) :
  exists stepResult outcome e1,
    performAction rt step testData (snd (now rt e)) = (outcome, e1)
    /\ executeStep rt step testData e
       = (Normal stepResult, snd (now rt (withAttemptedStep step outcome e1)))
    /\ reports stepResult (step, outcome).
Proof.
  unfold executeStep, bind, try, now, ret, recordStep.
  destruct (dateNow rt (world e)) as [t0 w0]. cbn [snd].
  destruct (performAction rt step testData (withWorld w0 e)) as [outcome e1].
  exists {| StepResult.step := TestStep.step step;
            StepResult.status := match outcome with
                                 | Normal _ => PASSED
                                 | Throw _ => FAILED
                                 end;
            StepResult.duration :=
              fst (dateNow rt (world (withAttemptedStep step outcome e1))) - t0;
            StepResult.error :=
              attached match outcome with
                       | Normal _ => None
                       | Throw err =>
                           Some (Js.messageOr "Step execution failed" err)
                       end |}, outcome, e1.
  split; [reflexivity|].
  destruct outcome as [[]|err]; cbn;
    destruct (dateNow rt (world e1)) as [t1 w1]; cbn; repeat split.
Qed.

(** The attempts the step loop records are those made: the action of each
    was performed, with the recorded outcome. *)
Lemma forSteps_acted (steps : list TestStep.t) (testData : gmap string Js.Value) :
  forall (vars : CaseVars) (e : Executor World),
  exists attempts,
    attemptedSteps (snd (forSteps rt steps testData vars e))
    = attemptedSteps e ++ attempts
    /\ acted rt testData e attempts.
Proof.
  induction steps as [|step rest IH]; intros vars e.
  - exists []. cbn. now rewrite app_nil_r.
  - cbn [forSteps]. unfold bind, try.
    destruct (executeStep_acted step testData e)
      as (stepResult & outcome & e1 & Hact & Hrun & Hrep).
    rewrite Hrun. cbn -[Status_eqb now].
    assert (Hatt : attemptedSteps (snd (now rt (withAttemptedStep step outcome e1)))
                   = attemptedSteps e ++ [(step, outcome)]).
    { pose proof (browses_now (withAttemptedStep step outcome e1))
        as (_ & _ & _ & _ & Hs & _).
      rewrite Hs. cbn. f_equal.
      pose proof (browses_performAction step testData (snd (now rt e)))
        as (_ & _ & _ & _ & Hs1 & _).
      rewrite Hact in Hs1. cbn [snd] in Hs1. rewrite Hs1.
      now pose proof (browses_now e) as (_ & _ & _ & _ & Hs0 & _). }
    destruct Hrep as [_ Hrep]. cbn [snd] in Hrep.
    destruct outcome as [[]|err]; destruct Hrep as [Hst _]; rewrite Hst.
    + cbn -[now].
      destruct (IH {| stepResults := stepResults vars ++ [stepResult];
                      error := error vars; status := status vars |}
                  (snd (now rt (withAttemptedStep step (Normal tt) e1))))
        as (attempts & Hrest & Hacted).
      exists ((step, Normal tt) :: attempts). split.
      * rewrite Hrest, Hatt, <- app_assoc. reflexivity.
      * cbn [acted fst snd]. exists e1. split; [exact Hact|exact Hacted].
    + cbn -[now]. exists [(step, Throw err)]. split; [exact Hatt|].
      cbn [acted fst snd]. exists e1. split; [exact Hact|exact I].
Qed.

(** Once the action of a step has thrown, the steps after it play no part
    in the loop. *)
Lemma forSteps_stops (testData : gmap string Js.Value) (step : TestStep.t)
    (err : Js.Thrown) (before : list TestStep.t) :
  forall (vars : CaseVars) (e : Executor World),
    acted rt testData e (map passing before ++ [(step, Throw err)]) ->
    exists looped,
      forall after,
        forSteps rt (before ++ step :: after) testData vars e = looped.
Proof.
  induction before as [|s before IH]; intros vars e Hacted.
  - cbn [map app acted fst snd] in Hacted. destruct Hacted as (e1 & Hact & _).
    destruct (executeStep_acted step testData e)
      as (stepResult & outcome & e1' & Hact' & Hrun & Hrep).
    rewrite Hact in Hact'. inversion Hact'; subst outcome e1'.
    destruct Hrep as [_ [Hst _]]. cbn [snd] in Hst.
    eexists. intros after. cbn [app forSteps]. unfold bind, try.
    rewrite Hrun. cbn -[now]. rewrite Hst. cbn -[now]. reflexivity.
  - cbn [map app acted fst snd passing] in Hacted.
    destruct Hacted as (e1 & Hact & Hacted).
    destruct (executeStep_acted s testData e)
      as (stepResult & outcome & e1' & Hact' & Hrun & Hrep).
    rewrite Hact in Hact'. inversion Hact'; subst outcome e1'.
    destruct Hrep as [_ [Hst _]]. cbn [snd] in Hst.
    destruct (IH {| stepResults := stepResults vars ++ [stepResult];
                    error := error vars; status := status vars |}
                _ Hacted) as (looped & Hlooped).
    exists looped. intros after. cbn [app forSteps]. unfold bind, try.
    rewrite Hrun. cbn -[now]. rewrite Hst. cbn -[now]. apply Hlooped.
Qed.

(** *** [executeTestCase] *)

Lemma captureArtifacts_run (id : string) (capture : option bool) (e : Executor World) :
  exists artifacts e',
    captureArtifacts rt id capture e = (Normal artifacts, e')
    /\ unchanged e e'.
Proof.
  pose proof (browses_captureArtifacts id capture e) as Hb.
  unfold captureArtifacts, bind, try, getPage, ret, call, callEvaluateTestLogs,
    consoleLog, now in *.
  destruct (negb (default true capture) || negb (bool_decide (is_Some (page e)))).
  - eexists _, _. split; [reflexivity | exact Hb].
  - destruct (dateNow rt (world e)) as [t w]. cbn in *.
    destruct (perform rt _ w) as [[[]|err] w1]; cbn in *.
    + destruct (evaluateTestLogs rt w1) as [[logs|err] w2]; cbn in *;
        eexists _, _; (split; [reflexivity | exact Hb]).
    + eexists _, _. split; [reflexivity | exact Hb].
Qed.

(** With its page set, [executeTestCase] returns a result; the result
    holds the identifier of the case and the variables of the step loop
    as the loop left them. *)
Lemma executeTestCase_run (testCase : TestCase.t) (options : ExecutionOptions.t)
    (e : Executor World) :
  page e = Some thePage ->
  exists result e' vars attempts,
    executeTestCase rt testCase options e = (Normal result, e')
    /\ TestResult.testCaseId result = TestCase.id testCase
    /\ TestResult.status result = status vars
    /\ TestResult.stepResults result = Some (stepResults vars)
    /\ TestResult.error result = attached (error vars)
    /\ attemptedSteps e' = attemptedSteps e ++ attempts
    /\ attemptedCases e' = attemptedCases e ++ [TestCase.id testCase]
    /\ Forall2 reports (stepResults vars) attempts
    /\ looped (TestCase.steps testCase)
         {| stepResults := []; error := None; status := PASSED |} vars attempts
    /\ page e' = page e.
Proof.
  intros Hpage. unfold executeTestCase, bind, recordCase. cbn [getPage page withAttemptedCase].
  rewrite Hpage. unfold now at 1.
  destruct (dateNow rt _) as [t0 w0].
  match goal with
  | |- context [forSteps rt ?steps ?data ?vars ?e0] =>
      destruct (forSteps_run steps data vars e0)
        as (vars' & e1 & attempts & results & Hfor & Hatt & Hres & Hrep & Hloop & Hsame)
  end.
  rewrite Hfor. cbn in Hatt, Hres. subst results.
  destruct Hsame as (Hb1 & Hc1 & Hp1 & Hh1 & Hcases1). cbn in Hb1, Hc1, Hp1, Hh1, Hcases1.
  unfold now at 1. destruct (dateNow rt (world e1)) as [t1 w1].
  cbn [status].
  match goal with
  | |- context [captureArtifacts rt ?id ?capture ?e0] =>
      destruct (captureArtifacts_run id capture e0)
        as (artifacts & e2 & Hcap & Hun)
  end.
  rewrite Hcap.
  destruct Hun as (Hb2 & Hc2 & Hp2 & Hh2 & Hs2 & Hcases2).
  cbn in Hb2, Hc2, Hp2, Hh2, Hs2, Hcases2.
  unfold processResult, Handler.processResult, bind, now.
  destruct (dateNow rt (world e2)) as [t2 w2]. cbn [world withWorld].
  destruct (dateNow rt w2) as [t3 w3].
  eexists _, _, vars', attempts. split; [reflexivity|]. cbn.
  repeat split; try assumption; try congruence.
Qed.

(** The attempts [executeTestCase] records are those its step loop made,
    from the executor the loop started with. *)
Lemma executeTestCase_acted (testCase : TestCase.t) (options : ExecutionOptions.t)
    (e : Executor World) :
  page e = Some thePage ->
  exists attempts,
    attemptedSteps (snd (executeTestCase rt testCase options e))
    = attemptedSteps e ++ attempts
    /\ acted rt (TestCase.testData testCase) (started rt testCase e) attempts.
Proof.
  intros Hpage. unfold executeTestCase, bind, recordCase.
  cbn [getPage page withAttemptedCase]. rewrite Hpage.
  destruct (forSteps_acted (TestCase.steps testCase) (TestCase.testData testCase)
              {| stepResults := []; error := None; status := PASSED |}
              (started rt testCase e)) as (attempts & Hatt & Hacted).
  exists attempts. split; [|exact Hacted].
  unfold started, now in Hatt. unfold now at 1.
  cbn [withAttemptedCase world] in Hatt |- *.
  destruct (dateNow rt (world e)) as [t0 w0]. cbn [snd] in Hatt.
  match type of Hatt with
  | context [forSteps rt ?steps ?data ?vars ?e0] =>
      destruct (forSteps_run steps data vars e0)
        as (vars' & e1 & attempts' & results & Hfor & _);
      rewrite Hfor in Hatt |- *
  end.
  cbn [snd] in Hatt. cbn [attemptedSteps withWorld] in Hatt.
  unfold now at 1. destruct (dateNow rt (world e1)) as [t1 w1].
  match goal with
  | |- context [captureArtifacts rt ?id ?capture ?e0] =>
      destruct (captureArtifacts_run id capture e0)
        as (artifacts & e2 & Hcap & Hun)
  end.
  rewrite Hcap. destruct Hun as (_ & _ & _ & _ & Hs2 & _). cbn in Hs2.
  unfold processResult, Handler.processResult, bind, now.
  destruct (dateNow rt (world e2)) as [t2 w2]. cbn [world withWorld].
  destruct (dateNow rt w2) as [t3 w3]. cbn. now rewrite Hs2.
Qed.

(** The steps after one whose action threw play no part in the case. *)
Lemma executeTestCase_stops (testCase : TestCase.t) (options : ExecutionOptions.t)
    (e : Executor World) (before after : list TestStep.t) (step : TestStep.t)
    (err : Js.Thrown) :
  TestCase.steps testCase = before ++ step :: after ->
  acted rt (TestCase.testData testCase) (started rt testCase e)
    (map passing before ++ [(step, Throw err)]) ->
  forall others,
    executeTestCase rt (withSteps (before ++ step :: others) testCase) options e
    = executeTestCase rt testCase options e.
Proof.
  intros Hsteps Hacted others.
  destruct (forSteps_stops _ _ _ _
              {| stepResults := []; error := None; status := PASSED |} _ Hacted)
    as (looped & Hlooped).
  unfold executeTestCase, bind, recordCase.
  cbn [getPage page withAttemptedCase withSteps TestCase.id TestCase.steps
         TestCase.testData].
  destruct (page e); [|reflexivity].
  unfold started in Hlooped.
  rewrite (now_eq (withAttemptedCase (TestCase.id testCase) e)) in Hlooped |- *.
  cbn [snd] in Hlooped. rewrite Hsteps, !Hlooped. reflexivity.
Qed.

(** C1, as amended. With its page set, [executeTestCase] returns a result.
    The attempts it records are those its step loop made, the action of
    each step being performed with the recorded outcome, and each has its
    step result. Either the action of every step of the case returned:
    there are as many step results as steps, all [PASSED], and the status
    is [PASSED]. Or the action of step [k], the first to do so, threw: the
    [k - 1] steps before it were performed and passed, the steps after it
    play no part (any others in their place give the same result and leave
    the same executor), there are [k] step results, the last one [FAILED],
    and the status is [FAILED]. The failed step and the result keep the
    message of the error, unless it is empty: then neither has an error;
    for a thrown value that is not an [Error] they keep
    [Step execution failed]. *)
Theorem executeTestCase_steps (testCase : TestCase.t)
    (options : ExecutionOptions.t) (e : Executor World) :
  page e = Some thePage ->
  exists result e' stepResults attempts,
    executeTestCase rt testCase options e = (Normal result, e')
    /\ TestResult.stepResults result = Some stepResults
    /\ attemptedSteps e' = attemptedSteps e ++ attempts
    /\ acted rt (TestCase.testData testCase) (started rt testCase e) attempts
    /\ Forall2 reports stepResults attempts
    /\ ((attempts = map passing (TestCase.steps testCase)
         /\ length stepResults = length (TestCase.steps testCase)
         /\ Forall passed stepResults
         /\ TestResult.status result = PASSED)
        \/ (exists before step err after passedResults failedResult,
              TestCase.steps testCase = before ++ step :: after
              /\ attempts = map passing before ++ [(step, Throw err)]
              /\ stepResults = passedResults ++ [failedResult]
              /\ length passedResults = length before
              /\ Forall passed passedResults
              /\ StepResult.status failedResult = FAILED
              /\ StepResult.error failedResult = kept err
              /\ TestResult.status result = FAILED
              /\ TestResult.error result = kept err
              /\ (forall others,
                    executeTestCase rt
                      (withSteps (before ++ step :: others) testCase) options e
                    = (Normal result, e')))).
Proof.
  intros Hpage.
  destruct (executeTestCase_run testCase options e Hpage)
    as (result & e' & vars & attempts & Hrun & _ & Hstatus & Hsteps & Herror
        & Hatt & _ & Hrep & Hloop & _).
  destruct (executeTestCase_acted testCase options e Hpage)
    as (attempts' & Hatt' & Hacted).
  rewrite Hrun in Hatt'. cbn [snd] in Hatt'. rewrite Hatt in Hatt'.
  apply app_inv_head in Hatt'. subst attempts'.
  exists result, e', (stepResults vars), attempts.
  repeat (split; [assumption|]).
  destruct Hloop as [(Ha & Hs & He)
                    | (before & step & err & after & Hcase & Ha & Hs & He)].
  - left. subst attempts. split; [reflexivity|].
    split; [rewrite (Forall2_length _ _ _ Hrep); apply length_map|].
    split; [|now rewrite Hstatus, Hs].
    clear -Hrep. remember (map passing (TestCase.steps testCase)) as attempts.
    revert Heqattempts. generalize (TestCase.steps testCase).
    induction Hrep as [|r a rs as_ Hr Hrs IH]; intros steps Heq; [constructor|].
    destruct steps as [|s steps]; [discriminate|]. inversion Heq; subst.
    constructor; [apply Hr | now apply (IH steps)].
  - right. subst attempts.
    apply Forall2_app_inv_r in Hrep
      as (passedResults & lastResults & Hpre & Hlast & Hsplit).
    inversion Hlast as [|failedResult a rs as_ Hfailed Hnil]; subst.
    inversion Hnil; subst.
    destruct Hfailed as [_ [Hfs Hfe]]. cbn in Hfs, Hfe.
    assert (Hkept : attached (Some (Js.messageOr "Step execution failed" err))
                    = kept err)
      by (destruct err as [[|c message]|v]; reflexivity).
    exists before, step, err, after, passedResults, failedResult.
    split; [assumption|]. split; [reflexivity|]. split; [assumption|].
    split; [rewrite (Forall2_length _ _ _ Hpre); apply length_map|].
    split.
    { clear -Hpre. remember (map passing before) as attempts.
      revert Heqattempts. generalize before.
      induction Hpre as [|r a rs as_ Hr Hrs IH]; intros steps Heq; [constructor|].
      destruct steps as [|s steps]; [discriminate|]. inversion Heq; subst.
      constructor; [apply Hr | now apply (IH steps)]. }
    split; [assumption|].
    split; [now rewrite Hfe|].
    split; [now rewrite Hstatus|].
    split.
    { rewrite Herror, He, Hkept.
      destruct err as [[|c message]|v]; reflexivity. }
    intros others. rewrite <- Hrun.
    now apply (executeTestCase_stops testCase options e before after step err).
Qed.

(** *** [executeTestSuite] *)

Lemma executeTestCase_not_initialized (testCase : TestCase.t)
    (options : ExecutionOptions.t) (e : Executor World) :
  page e = None ->
  executeTestCase rt testCase options e
  = (Throw (Js.Error notInitializedMessage),
     withAttemptedCase (TestCase.id testCase) e).
Proof.
  intros Hpage. unfold executeTestCase, bind, recordCase. cbn [getPage page withAttemptedCase].
  now rewrite Hpage.
Qed.

(** Only the check of the page lets an exception out of
    [executeTestCase]. *)
Lemma executeTestCase_throws (testCase : TestCase.t)
    (options : ExecutionOptions.t) (e e1 : Executor World) (err : Js.Thrown) :
  executeTestCase rt testCase options e = (Throw err, e1) ->
  page e = None /\ err = Js.Error notInitializedMessage
  /\ e1 = withAttemptedCase (TestCase.id testCase) e.
Proof.
  intros H. destruct (page e) as [[]|] eqn:Hpage.
  - destruct (executeTestCase_run testCase options e Hpage)
      as (result & e' & vars & attempts & Hrun & _).
    rewrite Hrun in H. discriminate.
  - rewrite (executeTestCase_not_initialized _ _ _ Hpage) in H.
    inversion H; subst. auto.
Qed.

Lemma delayBetweenTests_not_initialized (options : ExecutionOptions.t)
    (e : Executor World) :
  page e = None -> delayBetweenTests rt options e = (Normal tt, e).
Proof.
  intros Hpage. unfold delayBetweenTests, bind, getPage, ret.
  destruct (ExecutionOptions.delayBetweenTests options) as [ms|]; [|reflexivity].
  destruct (ms =? 0); [reflexivity|]. now rewrite Hpage.
Qed.

Lemma delayBetweenTests_noDelay (options : ExecutionOptions.t) (e : Executor World) :
  noDelay options -> delayBetweenTests rt options e = (Normal tt, e).
Proof.
  unfold delayBetweenTests, noDelay. now intros [-> | ->].
Qed.

(** The step of the suite loop on a case whose execution throws. *)
Lemma forTestCases_catch (testCase : TestCase.t) (rest : list TestCase.t)
    (options : ExecutionOptions.t) (results : list TestResult.t)
    (e e1 : Executor World) (err : Js.Thrown) :
  executeTestCase rt testCase options e = (Throw err, e1) ->
  exists executedAt e2,
    page e2 = None
    /\ attemptedCases e2 = attemptedCases e ++ [TestCase.id testCase]
    /\ forTestCases rt (testCase :: rest) options results e
       = forTestCases rt rest options
           (results ++ [failedToExecute testCase err executedAt]) e2.
Proof.
  intros H. destruct (executeTestCase_throws _ _ _ _ _ H) as (Hpage & -> & ->).
  cbn [forTestCases]. unfold bind at 1, try. rewrite H.
  unfold bind, consoleLog, now. cbn [world withConsole withAttemptedCase].
  destruct (dateNow rt (world e)) as [t w].
  rewrite delayBetweenTests_not_initialized by exact Hpage.
  eexists t, _. split; [|split; [|reflexivity]]; cbn; [exact Hpage | reflexivity].
Qed.

(** The results the suite loop returns: one for each case it called
    [executeTestCase] on, in order. *)
Lemma forTestCases_run (options : ExecutionOptions.t)
    (testCases : list TestCase.t) :
  forall (results returned : list TestResult.t) (e e' : Executor World),
    forTestCases rt testCases options results e = (Normal returned, e') ->
    exists new,
      returned = results ++ new
      /\ attemptedCases e' = attemptedCases e ++ map TestResult.testCaseId new
      /\ map TestResult.testCaseId new `prefix_of` map TestCase.id testCases.
Proof.
  induction testCases as [|testCase rest IH]; intros results returned e e' H.
  - cbn in H. inversion H; subst. exists []. rewrite !app_nil_r.
    repeat split. now exists [].
  - destruct (executeTestCase rt testCase options e) as [[result|err] e1] eqn:Hcase.
    + (* the case was executed *)
      destruct (page e) as [[]|] eqn:Hpage;
        [|rewrite (executeTestCase_not_initialized _ _ _ Hpage) in Hcase;
          discriminate].
      destruct (executeTestCase_run testCase options e Hpage)
        as (result' & e1' & vars & attempts & Hrun & Hid & _ & _ & _ & _ & Hcases & _).
      rewrite Hcase in Hrun. inversion Hrun; subst result' e1'.
      cbn [forTestCases] in H. unfold bind at 1, try in H. rewrite Hcase in H.
      destruct (Status_eqb (TestResult.status result) FAILED
                && default false (ExecutionOptions.stopOnFailure options)).
      * inversion H; subst. exists [result]. cbn. rewrite Hid.
        repeat split; [assumption|]. now exists (map TestCase.id rest).
      * unfold bind in H.
        pose proof (browses_delayBetweenTests options e1) as Hb.
        destruct (delayBetweenTests rt options e1) as [[[]|err] e2]; [|discriminate].
        destruct Hb as (_ & _ & _ & _ & _ & Hb). cbn in Hb.
        destruct (IH _ _ _ _ H) as (new & -> & Hatt & Hpre).
        exists (result :: new). cbn. rewrite <- app_assoc.
        split; [reflexivity|]. rewrite Hatt, Hb, Hcases, Hid, <- app_assoc.
        split; [reflexivity|]. destruct Hpre as [k Hk]. exists k. now rewrite Hk.
    + (* its execution threw *)
      destruct (forTestCases_catch testCase rest options results e e1 err Hcase)
        as (executedAt & e2 & _ & Hcases & Heq).
      rewrite Heq in H.
      destruct (IH _ _ _ _ H) as (new & -> & Hatt & Hpre).
      exists (failedToExecute testCase err executedAt :: new). cbn.
      rewrite <- app_assoc. split; [reflexivity|].
      rewrite Hatt, Hcases, <- app_assoc.
      split; [reflexivity|]. destruct Hpre as [k Hk]. exists k. now rewrite Hk.
Qed.

Lemma forTestCases_not_initialized (options : ExecutionOptions.t)
    (testCases : list TestCase.t) :
  forall (results : list TestResult.t) (e : Executor World),
    page e = None ->
    exists new e',
      forTestCases rt testCases options results e = (Normal (results ++ new), e')
      /\ length new = length testCases
      /\ Forall (recordsFailure notInitializedMessage) new.
Proof.
  induction testCases as [|testCase rest IH]; intros results e Hpage.
  - exists [], e. rewrite app_nil_r. repeat split. constructor.
  - pose proof (executeTestCase_not_initialized testCase options e Hpage) as Hcase.
    destruct (forTestCases_catch testCase rest options results e _ _ Hcase)
      as (executedAt & e2 & Hpage2 & _ & Heq).
    destruct (IH (results ++ [failedToExecute testCase
                                (Js.Error notInitializedMessage) executedAt])
                e2 Hpage2) as (new & e' & Hrun & Hlen & Hall).
    eexists (_ :: new), e'. rewrite Heq, Hrun, <- app_assoc.
    split; [reflexivity|]. split; [cbn; now rewrite Hlen|].
    constructor; [repeat split | exact Hall].
Qed.

Lemma forTestCases_noDelay (options : ExecutionOptions.t)
    (testCases : list TestCase.t) :
  noDelay options ->
  forall (results : list TestResult.t) (e : Executor World),
  exists returned e', forTestCases rt testCases options results e
                      = (Normal returned, e').
Proof.
  intros Hno. induction testCases as [|testCase rest IH]; intros results e.
  - eexists _, _. reflexivity.
  - destruct (executeTestCase rt testCase options e) as [[result|err] e1] eqn:Hcase.
    + cbn [forTestCases]. unfold bind at 1, try. rewrite Hcase.
      destruct (_ && _); [eexists _, _; reflexivity|].
      unfold bind. rewrite (delayBetweenTests_noDelay _ _ Hno). apply IH.
    + destruct (forTestCases_catch testCase rest options results e e1 err Hcase)
        as (executedAt & e2 & _ & _ & Heq).
      rewrite Heq. apply IH.
Qed.

(** C5. A case whose execution throws is recorded as [FAILED], with the
    duration 0 and the message of what was thrown, and the loop goes on
    with the next case. The list [executeTestSuite] returns holds one
    result for each case [executeTestCase] was called on, in order. The
    suite does return when no pause is asked for, and when the browser is
    not initialized, where every case is recorded as failed. *)
Theorem executeTestSuite_spec (testCases : list TestCase.t)
    (options : ExecutionOptions.t) (e : Executor World) :
  (forall testCase rest results err e1,
      executeTestCase rt testCase options e = (Throw err, e1) ->
      exists executedAt e2 failedResult,
        failedResult = failedToExecute testCase err executedAt
        /\ TestResult.testCaseId failedResult = TestCase.id testCase
        /\ recordsFailure (Js.messageOr "Test execution failed" err) failedResult
        /\ forTestCases rt (testCase :: rest) options results e
           = forTestCases rt rest options (results ++ [failedResult]) e2)
  /\ (forall results e',
        executeTestSuite rt testCases options e = (Normal results, e') ->
        attemptedCases e' = attemptedCases e ++ map TestResult.testCaseId results
        /\ length (attemptedCases e')
           = (length (attemptedCases e) + length results)%nat
        /\ map TestResult.testCaseId results `prefix_of` map TestCase.id testCases)
  /\ (noDelay options ->
      exists results e', executeTestSuite rt testCases options e = (Normal results, e'))
  /\ (page e = None ->
      exists results e',
        executeTestSuite rt testCases options e = (Normal results, e')
        /\ length results = length testCases
        /\ Forall (recordsFailure notInitializedMessage) results).
Proof.
  split; [|split; [|split]].
  - intros testCase rest results err e1 H.
    destruct (forTestCases_catch testCase rest options results e e1 err H)
      as (executedAt & e2 & _ & _ & Heq).
    exists executedAt, e2, (failedToExecute testCase err executedAt).
    repeat split. exact Heq.
  - intros results e' H.
    destruct (forTestCases_run options testCases [] results e e' H)
      as (new & -> & Hatt & Hpre).
    cbn. split; [exact Hatt|]. split; [|exact Hpre].
    now rewrite Hatt, length_app, length_map.
  - intros Hno. apply (forTestCases_noDelay options testCases Hno).
  - intros Hpage.
    destruct (forTestCases_not_initialized options testCases [] e Hpage)
      as (new & e' & Hrun & Hlen & Hall).
    exists new, e'. repeat split; assumption.
Qed.

(** *** [performAssertion] *)

Lemma substring_all (s : string) (m : nat) :
  (String.length s <= m)%nat -> String.substring 0 m s = s.
Proof.
  revert m. induction s as [|c s IH]; intros m Hm.
  - now destruct m.
  - destruct m as [|m]; simpl in *; [lia|]. rewrite IH by lia. reflexivity.
Qed.

Lemma replaceFirst_prefix (prefix remainder : string) :
  Js.startsWith prefix (prefix +:+ remainder) = true
  /\ Js.replaceFirst prefix "" (prefix +:+ remainder) = remainder.
Proof.
  assert (Hs : Js.startsWith prefix (prefix +:+ remainder) = true).
  { induction prefix as [|c p IH]; simpl; [now destruct remainder|].
    now rewrite Ascii.eqb_refl. }
  split; [exact Hs|].
  assert (Hunfold : forall s,
             Js.replaceFirst prefix "" s
             = if Js.startsWith prefix s
               then "" +:+ String.substring (String.length prefix) (String.length s) s
               else match s with
                    | EmptyString => EmptyString
                    | String c s' => String c (Js.replaceFirst prefix "" s')
                    end) by (intros []; reflexivity).
  rewrite Hunfold, Hs. simpl. rewrite length_append.
  assert (Hlen : (String.length remainder
                  <= String.length prefix + String.length remainder)%nat) by lia.
  revert Hlen. generalize (String.length prefix + String.length remainder)%nat.
  clear. intros m Hm. induction prefix as [|c p IH]; simpl.
  - now apply substring_all.
  - exact IH.
Qed.

(** C8. An assertion without a selector, on an executor whose page is
    set: an expected value with neither prefix does nothing and returns;
    with the prefix [url:] it throws exactly when the location does not
    contain the remainder, and with the prefix [title:] exactly when the
    title does not contain the remainder. *)
Theorem performAssertion_without_element (step : TestStep.t)
    (testData : gmap string Js.Value) (e : Executor World) :
  page e = Some thePage ->
  given (TestStep.element step) = None ->
  let expectedValue := Template.resolveValue (TestStep.expected step) testData in
  (Js.startsWith "url:" expectedValue = false ->
   Js.startsWith "title:" expectedValue = false ->
   performAssertion rt step testData e = (Normal tt, e))
  /\ (forall remainder,
       expectedValue = "url:" +:+ remainder ->
       Js.threw (fst (performAssertion rt step testData e))
       <-> Js.includes remainder (url rt (world e)) = false)
  /\ (forall remainder actualTitle w,
       expectedValue = "title:" +:+ remainder ->
       title rt (world e) = (Normal actualTitle, w) ->
       Js.threw (fst (performAssertion rt step testData e))
       <-> Js.includes remainder actualTitle = false).
Proof.
  intros Hpage Hgiven expectedValue.
  unfold performAssertion, bind, getPage. rewrite Hpage, Hgiven.
  fold expectedValue. split; [|split].
  - intros Hurl Htitle. now rewrite Hurl, Htitle.
  - intros remainder Hev. rewrite Hev.
    destruct (replaceFirst_prefix "url:" remainder) as [-> ->].
    unfold callUrl. cbn [fst].
    destruct (Js.includes remainder (url rt (world e))); cbn; split;
      intros H; try discriminate; try contradiction; auto.
  - intros remainder actualTitle w Hev Htitle. rewrite Hev.
    replace (Js.startsWith "url:" ("title:" +:+ remainder)) with false
      by reflexivity.
    destruct (replaceFirst_prefix "title:" remainder) as [-> ->].
    unfold callTitle. rewrite Htitle.
    destruct (Js.includes remainder actualTitle); cbn; split;
      intros H; try discriminate; try contradiction; auto.
Qed.

(** *** [cleanup] *)

(** C7, what the code does. [cleanup] never throws. It makes the closes
    of the handles that are set, page, then context, then browser, each in
    the world the one before left, and releases the handle of a close
    that returned. It stops at the first close that fails: the error is
    logged, the handle whose close failed and the handles after it stay
    set and are not closed, so that a second call starts with the same
    close again. When no close fails no handle is left and a second call
    does nothing; on an executor without handles it does nothing. *)
Theorem cleanup_spec (e : Executor World) :
  let e' := snd (cleanup rt e) in
  let '(closed, failed, w') := closing rt (closes e) (world e) in
  fst (cleanup rt e) = Normal tt
  /\ world e' = w'
  /\ calls e' = calls e ++ closed ++ option_list failed
  /\ console e' = console e ++ cleanupLog failed
  /\ closes e = closed ++ closes e'
  /\ (failed = None -> released e' /\ cleanup rt e' = (Normal tt, e'))
  /\ (forall c, failed = Some c ->
      exists rest, closes e' = c :: rest /\ ~ released e')
  /\ (released e -> cleanup rt e = (Normal tt, e)).
Proof.
  destruct e as [b c p h w con cs steps cases].
  destruct p as [[]|], c as [[]|], b as [[]|];
    unfold cleanup, closeAll, try, bind, call, getPage, ret, consoleLog,
      closes, released, withHandles, withWorld, withCall, withConsole;
    cbn;
    repeat match goal with
           | |- context [perform rt ?c ?w] =>
               let w' := fresh "w" in
               destruct (perform rt c w) as [[[]|?] w'] eqn:?; cbn
           end;
    rewrite <- ?app_assoc, ?app_nil_r; cbn [app];
    repeat match goal with
           | |- _ /\ _ => split
           | |- _ = _ => reflexivity
           end;
    try (intros H; discriminate H);
    try (intros _; repeat split; reflexivity);
    try (intros c' H; discriminate H);
    try (intros c' [= <-]; eexists; split; [reflexivity|]; intros (? & ? & ?);
         discriminate);
    try (intros (? & ? & ?); discriminate).
Qed.

End Facts.
End ExecutorFacts.

(** ** The executor at work *)

Module ExecutorExamples.
Import Handler Executor ExecutorSpec ExecutorFacts Demo.

(** The scenario of the specification: three steps, all passed. *)
Example search_passes :
  let result :=
    Js.returned (fst (executeTestCase runtime search options
                        (initialized (blank false)))) in
  TestResult.status <$> result = Some PASSED
  /\ (result ≫= TestResult.stepResults) = Some
       [{| StepResult.step := 1; StepResult.status := PASSED;
           StepResult.duration := 20; StepResult.error := None |};
        {| StepResult.step := 2; StepResult.status := PASSED;
           StepResult.duration := 20; StepResult.error := None |};
        {| StepResult.step := 3; StepResult.status := PASSED;
           StepResult.duration := 20; StepResult.error := None |}].
Proof. vm_compute. split; reflexivity. Qed.

(** The second step of four fails: two step results, the calls of the
    first two steps, then the screenshot and the logs of the failure. *)
Example broken_stops :
  let run := executeTestCase runtime broken options (initialized (blank false)) in
  TestResult.status <$> Js.returned (fst run) = Some FAILED
  /\ (Js.returned (fst run) ≫= TestResult.error)
     = Some "page.click: Timeout 30000ms exceeded."
  /\ (Js.returned (fst run) ≫= TestResult.stepResults) = Some
       [{| StepResult.step := 1; StepResult.status := PASSED;
           StepResult.duration := 20; StepResult.error := None |};
        {| StepResult.step := 2; StepResult.status := FAILED;
           StepResult.duration := 20;
           StepResult.error := Some "page.click: Timeout 30000ms exceeded." |}]
  /\ map (TestStep.step ∘ fst) (attemptedSteps (snd run)) = [1; 2]
  /\ calls (snd run)
     = [Goto "https://x"; Click "#missing";
        Screenshot "./test-results/screenshots/broken-80.png" true;
        EvaluateTestLogs].
Proof. vm_compute. repeat split; reflexivity. Qed.

Lemma executeTestCase_steps_witness :
  page (initialized (blank false)) = Some thePage
  /\ exists result e' stepResults attempts,
      executeTestCase runtime broken options (initialized (blank false))
      = (Normal result, e')
      /\ TestResult.stepResults result = Some stepResults
      /\ attemptedSteps e' = attempts
      /\ acted runtime (TestCase.testData broken)
           (started runtime broken (initialized (blank false))) attempts
      /\ Forall2 reports stepResults attempts.
Proof.
  split; [reflexivity|].
  destruct (executeTestCase_steps runtime broken options (initialized (blank false))
              eq_refl)
    as (result & e' & stepResults & attempts & Hrun & Hsteps & Hatt & Hacted & Hrep & _).
  exists result, e', stepResults, attempts.
  split; [exact Hrun|]. split; [exact Hsteps|]. split; [exact Hatt|].
  split; [exact Hacted|exact Hrep].
Defined.

(** C1, as stated, fails for an error without message: the step whose
    action threw is [FAILED] and so is the result, but neither carries an
    error. *)
Lemma executeTestCase_empty_message :
  let run := executeTestCase silent broken options (initialized (blank false)) in
  perform silent (Click "#missing") (later (later (later (blank false))))
  = (Throw (Js.Error ""), later (later (later (later (blank false)))))
  /\ TestResult.status <$> Js.returned (fst run) = Some FAILED
  /\ (Js.returned (fst run) ≫= TestResult.error) = None
  /\ (Js.returned (fst run) ≫= TestResult.stepResults) = Some
       [{| StepResult.step := 1; StepResult.status := PASSED;
           StepResult.duration := 20; StepResult.error := None |};
        {| StepResult.step := 2; StepResult.status := FAILED;
           StepResult.duration := 20; StepResult.error := None |}]
  /\ attemptedSteps (snd run)
     = [(step 1 "navigate" None "https://x", Normal tt);
        (step 2 "click" (Some "#missing") "", Throw (Js.Error ""))].
Proof. vm_compute. repeat split; reflexivity. Qed.

(** An assertion with neither selector nor prefix passes on any page; the
    title assertion of the scenario passes on the page it is run on. *)
Lemma performAssertion_without_element_witness :
  performAssertion runtime (step 1 "assert" None "Welcome back") ∅
    (initialized (blank false))
  = (Normal tt, initialized (blank false))
  /\ (Js.threw (fst (performAssertion runtime (step 1 "assert" None "title:Node.js") ∅
                      (initialized (blank false))))
      <-> Js.includes "Node.js" "" = false).
Proof.
  split.
  - exact (proj1 (performAssertion_without_element runtime
                    (step 1 "assert" None "Welcome back") ∅
                    (initialized (blank false)) eq_refl eq_refl)
             eq_refl eq_refl).
  - exact (proj2 (proj2 (performAssertion_without_element runtime
                           (step 1 "assert" None "title:Node.js") ∅
                           (initialized (blank false)) eq_refl eq_refl))
             "Node.js" "" (later (blank false)) eq_refl eq_refl).
Defined.

(** Before [initialize()], every case of a suite is recorded as failed. *)
Example suite_not_initialized :
  map (fun r => (TestResult.testCaseId r, TestResult.status r,
                 TestResult.duration r, TestResult.error r))
    <$> Js.returned (fst (executeTestSuite runtime [broken; search] options
                            (notInitialized (blank false))))
  = Some [("broken", FAILED, 0, Some notInitializedMessage);
          ("search", FAILED, 0, Some notInitializedMessage)].
Proof. vm_compute. reflexivity. Qed.

(** With [stopOnFailure], the suite ends at the first failed case. *)
Example suite_stops_on_failure :
  let run := executeTestSuite runtime [search; broken; search] options
               (initialized (blank false)) in
  map TestResult.testCaseId <$> Js.returned (fst run) = Some ["search"; "broken"]
  /\ attemptedCases (snd run) = ["search"; "broken"].
Proof. vm_compute. split; reflexivity. Qed.

Lemma executeTestSuite_spec_witness :
  (exists results e',
      executeTestSuite runtime [broken; search] options (notInitialized (blank false))
      = (Normal results, e')
      /\ length results = 2%nat
      /\ Forall (recordsFailure notInitializedMessage) results)
  /\ (exists executedAt e2 failedResult,
        failedResult
        = failedToExecute broken (Js.Error notInitializedMessage) executedAt
        /\ TestResult.testCaseId failedResult = "broken"
        /\ recordsFailure notInitializedMessage failedResult
        /\ forTestCases runtime [broken; search] options []
             (notInitialized (blank false))
           = forTestCases runtime [search] options ([] ++ [failedResult]) e2).
Proof.
  pose proof (executeTestSuite_spec runtime [broken; search] options
                (notInitialized (blank false))) as (Hcatch & _ & _ & Hnone).
  split.
  - exact (Hnone eq_refl).
  - exact (Hcatch broken [search] [] (Js.Error notInitializedMessage)
             (withAttemptedCase "broken" (notInitialized (blank false))) eq_refl).
Defined.

(** After a failed initialization the page may be the only handle set, or
    none: [cleanup] copes with every combination. Here all three are set,
    and the page does not close. *)
Lemma cleanup_spec_witness :
  let e := initialized (blank true) in
  let e' := snd (cleanup runtime e) in
  fst (cleanup runtime e) = Normal tt
  /\ world e' = later (blank true)
  /\ calls e' = calls e ++ [] ++ [PageClose]
  /\ console e' = console e ++ ["Error during cleanup:"]
  /\ closes e = [] ++ closes e'
  /\ (Some PageClose = None -> released e' /\ cleanup runtime e' = (Normal tt, e'))
  /\ (forall c, Some PageClose = Some c ->
      exists rest, closes e' = c :: rest /\ ~ released e')
  /\ (released e -> cleanup runtime e = (Normal tt, e)).
Proof. exact (cleanup_spec runtime (initialized (blank true))). Defined.

(** C7, as stated, fails: when the page does not close, the context and
    the browser are neither closed nor released, and a second call is not
    a no-op: it tries to close the page again. *)
Lemma cleanup_stops_at_failed_close :
  let e' := snd (cleanup runtime (initialized (blank true))) in
  fst (cleanup runtime (initialized (blank true))) = Normal tt
  /\ calls e' = [PageClose]
  /\ page e' = Some thePage
  /\ context e' = Some theContext
  /\ browser e' = Some theBrowser
  /\ cleanup runtime e' <> (Normal tt, e')
  /\ calls (snd (cleanup runtime e')) = [PageClose; PageClose].
Proof. vm_compute. repeat split; try reflexivity. discriminate. Qed.

End ExecutorExamples.

(** ** More on [resolveValue] *)

Module ResolveValueMore.
Import Template StringFacts TemplateFacts.

(** The replacer is only ever applied to keys, so two replacers that agree
    on keys give the same text. *)
Lemma replace_ext (f g : string -> string -> string) (s : string) :
  (forall key, isKey key = true -> f (placeholder key) key = g (placeholder key) key) ->
  replacePlaceholders f s = replacePlaceholders g s.
Proof.
  intros Hfg. remember (String.length s) as n eqn:Hn. revert s Hn.
  induction n as [n IH] using lt_wf_ind. intros s Hn.
  destruct s as [|c t]; [reflexivity|].
  destruct (matchPlaceholder (String c t)) as [[key rest]|] eqn:Hm.
  - destruct (matchPlaceholder_Some _ _ _ Hm) as [Hs Hk].
    rewrite (replace_match f _ _ _ Hm), (replace_match g _ _ _ Hm), (Hfg key Hk).
    f_equal. apply (IH (String.length rest)); [|reflexivity].
    subst n. rewrite Hs. unfold placeholder. rewrite !length_append. simpl. lia.
  - rewrite (replace_nomatch f _ _ Hm), (replace_nomatch g _ _ Hm). f_equal.
    apply (IH (String.length t)); [subst n; simpl; lia | reflexivity].
Qed.

(** X1. A key that is not a run of word characters is never read: setting it
    in the data changes no resolved value. *)
Theorem resolveValue_ignores_other_keys (value k : string) (v : Js.Value)
    (data : gmap string Js.Value) :
  isKey k = false ->
  resolveValue value (<[k := v]> data) = resolveValue value data.
Proof.
  intros Hk. unfold resolveValue. apply replace_ext. intros key Hkey.
  unfold Js.get. rewrite lookup_insert_ne; [reflexivity|].
  intros ->. congruence.
Qed.

Lemma resolveValue_ignores_other_keys_witness :
  resolveValue "{{user}} has {{user-id}}"
    (<["user-id" := Js.Number 7]> {[ "user" := Js.Str "alice" ]})
  = resolveValue "{{user}} has {{user-id}}" {[ "user" := Js.Str "alice" ]}.
Proof.
  exact (resolveValue_ignores_other_keys "{{user}} has {{user-id}}" "user-id"
           (Js.Number 7) {[ "user" := Js.Str "alice" ]} eq_refl).
Defined.

(** X2. A name every object inherits is defined on the data although it is
    not one of its keys: its placeholder is replaced by the text of the
    inherited value. *)
Theorem resolveValue_inherited (pre key post : string)
    (data : gmap string Js.Value) :
  isKey key = true ->
  data !! key = None ->
  Js.objectPrototype key <> Js.Undefined ->
  resolveValue (pre +:+ placeholder key +:+ post) data
  = resolveValue pre data +:+ Js.toString (Js.objectPrototype key)
      +:+ resolveValue post data.
Proof.
  intros Hk Hnone Hproto. unfold resolveValue. rewrite replace_key by exact Hk.
  unfold Js.get. rewrite Hnone.
  destruct (Js.objectPrototype key); try reflexivity. contradiction.
Qed.

Lemma resolveValue_inherited_witness :
  resolveValue "see {{toString}}." {[ "user" := Js.Str "alice" ]}
  = "see function toString() { [native code] }.".
Proof.
  exact (resolveValue_inherited "see " "toString" "." {[ "user" := Js.Str "alice" ]}
           eq_refl eq_refl ltac:(discriminate)).
Defined.

Lemma startsWith_open_None (s : string) :
  Js.startsWith "{{" s = false -> matchPlaceholder s = None.
Proof.
  intros H. destruct (matchPlaceholder s) as [[key rest]|] eqn:Hm; [|reflexivity].
  apply matchPlaceholder_Some in Hm as [-> _]. discriminate.
Qed.

(** X3. A value in which no pair of opening braces occurs is returned as it is,
    whatever the data. *)
Theorem resolveValue_without_placeholder (value : string)
    (data : gmap string Js.Value) :
  Js.includes "{{" value = false ->
  resolveValue value data = value.
Proof.
  unfold resolveValue. induction value as [|c t IH]; intros H; [reflexivity|].
  cbn [Js.includes] in H. apply orb_false_iff in H as [Hhere Hrest].
  rewrite replace_nomatch by now apply startsWith_open_None.
  now rewrite (IH Hrest).
Qed.

Lemma resolveValue_without_placeholder_witness :
  resolveValue "https://example.com/{id}" {[ "id" := Js.Number 3 ]}
  = "https://example.com/{id}".
Proof.
  exact (resolveValue_without_placeholder "https://example.com/{id}"
           {[ "id" := Js.Number 3 ]} eq_refl).
Defined.

End ResolveValueMore.

(** ** More on the executor *)

Module ExecutorMore.
Import Handler Executor ExecutorSpec ExecutorFacts StringFacts ExecutorMoreSpec.

(** *** [trim] *)

Lemma rev_app_spec (s1 s2 : string) :
  String.rev_app s1 s2 = String.rev s1 +:+ s2.
Proof.
  unfold String.rev. revert s2. induction s1 as [|c s1 IH]; intros s2; simpl.
  - reflexivity.
  - rewrite (IH (String c s2)), (IH (String c EmptyString)).
    now rewrite append_assoc.
Qed.

Lemma rev_cons (c : ascii) (s : string) :
  String.rev (String c s) = String.rev s +:+ String c EmptyString.
Proof. unfold String.rev at 1. simpl. apply rev_app_spec. Qed.

Lemma rev_append (a b : string) :
  String.rev (a +:+ b) = String.rev b +:+ String.rev a.
Proof.
  induction a as [|c a IH]; simpl.
  - now rewrite append_nil_r.
  - now rewrite !rev_cons, IH, append_assoc.
Qed.

Lemma rev_involutive (s : string) : String.rev (String.rev s) = s.
Proof.
  induction s as [|c s IH]; [reflexivity|].
  now rewrite rev_cons, rev_append, IH.
Qed.

Lemma dropPrefix_spec (p s t : string) :
  dropPrefix p s = Some t -> s = p +:+ t.
Proof.
  revert s. induction p as [|a p IH]; intros [|b s] H; simpl in H;
    try (now inversion H).
  destruct (Ascii.eqb_spec a b) as [->|]; [|discriminate].
  simpl. now rewrite (IH _ H).
Qed.

Lemma dropPrefix_append (p s t rest : string) :
  dropPrefix p s = Some t -> dropPrefix p (s +:+ rest) = Some (t +:+ rest).
Proof.
  revert s. induction p as [|a p IH]; intros [|b s] H; simpl in H |- *;
    try (now inversion H).
  destruct (Ascii.eqb a b); [now apply IH|discriminate].
Qed.

(** A string that starts with no entry of the table has no start that
    does. *)
Lemma tight_start (table : list string) (s rest : string) :
  tight table (s +:+ rest) -> tight table s.
Proof.
  unfold tight. induction table as [|p table IH]; simpl; [reflexivity|].
  destruct (dropPrefix p s) as [t|] eqn:Hp.
  - now rewrite (dropPrefix_append _ _ _ rest Hp).
  - destruct (dropPrefix p (s +:+ rest)); [discriminate|]. exact IH.
Qed.

Lemma stripAny_spec (table : list string) (s t : string) :
  stripAny table s = Some t -> exists p, s = p +:+ t.
Proof.
  induction table as [|p table IH]; simpl; [discriminate|].
  destruct (dropPrefix p s) as [t'|] eqn:Hd; [|exact IH].
  intros [= ->]. exists p. now apply dropPrefix_spec.
Qed.

(** An entry that is taken off makes the string shorter. *)
Lemma stripAny_shorter (table : list string) (s t : string) :
  proper table -> stripAny table s = Some t ->
  (String.length t < String.length s)%nat.
Proof.
  intros Hproper. induction Hproper as [|p table Hp _ IH]; simpl; [discriminate|].
  destruct (dropPrefix p s) as [t'|] eqn:Hd; [|exact IH].
  intros [= ->]. apply dropPrefix_spec in Hd as ->.
  destruct p as [|a p]; [contradiction|]. simpl.
  rewrite length_append. lia.
Qed.

(** With as much fuel as the string has characters, what is left starts
    with no entry of the table, and is the end of the string. *)
Lemma strip_spec (table : list string) (fuel : nat) (s : string) :
  proper table -> (String.length s <= fuel)%nat ->
  tight table (strip table fuel s)
  /\ exists start, s = start +:+ strip table fuel s.
Proof.
  intros Hproper. revert s. induction fuel as [|fuel IH]; intros s Hlen.
  - destruct s; [|simpl in Hlen; lia]. split; [|now exists EmptyString].
    simpl. unfold tight. clear Hlen.
    induction Hproper as [|p table Hp _ IHp]; simpl; [reflexivity|].
    destruct p; [contradiction|exact IHp].
  - simpl. destruct (stripAny table s) as [t|] eqn:Hs.
    + pose proof (stripAny_shorter _ _ _ Hproper Hs) as Hshort.
      destruct (IH t ltac:(lia)) as (Htight & start & Hstart).
      split; [exact Htight|].
      destruct (stripAny_spec _ _ _ Hs) as (p & ->).
      exists (p +:+ start). now rewrite append_assoc, <- Hstart.
    + split; [exact Hs|now exists EmptyString].
Qed.

Lemma strip_tight (table : list string) (fuel : nat) (s : string) :
  tight table s -> strip table fuel s = s.
Proof. unfold tight. intros H. destruct fuel; simpl; [reflexivity|now rewrite H]. Qed.

Lemma whiteSpace_proper : proper whiteSpace.
Proof. unfold proper. vm_compute. repeat constructor; discriminate. Qed.

Lemma whiteSpace_rev_proper : proper (String.rev <$> whiteSpace).
Proof. unfold proper. vm_compute. repeat constructor; discriminate. Qed.

(** What [trimStart] returns starts with no white space, and is the end of
    the string. *)
Lemma trimStart_spec (s : string) :
  tight whiteSpace (trimStart s) /\ exists spaces, s = spaces +:+ trimStart s.
Proof. apply strip_spec; [apply whiteSpace_proper|reflexivity]. Qed.

(** What [trimEnd] returns ends with no white space, and is the start of
    the string. *)
Lemma trimEnd_spec (s : string) :
  tight (String.rev <$> whiteSpace) (String.rev (trimEnd s))
  /\ exists spaces, s = trimEnd s +:+ spaces.
Proof.
  unfold trimEnd. rewrite rev_involutive.
  destruct (strip_spec (String.rev <$> whiteSpace) (String.length s) (String.rev s)
              whiteSpace_rev_proper) as (Htight & start & Hstart).
  { clear. induction s as [|c s IH]; [reflexivity|].
    rewrite rev_cons, length_append. simpl. lia. }
  split; [exact Htight|]. exists (String.rev start).
  rewrite <- rev_append, <- Hstart. now rewrite rev_involutive.
Qed.

(** What [trim] returns has no white space at either end; trimming it again
    changes nothing. *)
Lemma trim_idempotent (s : string) : trim (trim s) = trim s.
Proof.
  unfold trim.
  destruct (trimStart_spec s) as (Ha & _).
  set (a := trimStart s) in *.
  destruct (trimEnd_spec a) as (Hb & spaces & Hsplit).
  set (b := trimEnd a) in *.
  assert (Hstart : trimStart b = b).
  { apply strip_tight. apply (tight_start _ _ spaces). now rewrite <- Hsplit. }
  rewrite Hstart. unfold trimEnd at 1.
  rewrite strip_tight by exact Hb. apply rev_involutive.
Qed.

(** White space beyond ASCII is stripped too: a no-break space and a
    byte-order mark around a word. *)
Example trim_unicode :
  trim (Js.bytes [194; 160; 32]%N +:+ "ok" +:+ Js.bytes [10; 239; 187; 191]%N)
  = "ok".
Proof. vm_compute. reflexivity. Qed.

(** *** [parseInt] *)

Lemma digit_pretty (d : N) :
  (d < 10)%N -> digit 10 (pretty_N_char d) = Some (Z.of_N d).
Proof.
  intros Hd.
  assert (H : (d = 0 \/ d = 1 \/ d = 2 \/ d = 3 \/ d = 4 \/ d = 5 \/ d = 6
               \/ d = 7 \/ d = 8 \/ d = 9)%N) by lia.
  repeat (destruct H as [->|H]; [reflexivity|]). now subst d.
Qed.

(** The digits of a positive number are read back as the number. *)
Lemma digits_pretty (x : N) :
  forall s, (0 < x)%N ->
    digits 10 None (pretty_N_go x s) = digits 10 (Some (Z.of_N x)) s.
Proof.
  induction (N.lt_wf_0 x) as [x _ IH]. intros s Hx.
  rewrite pretty_N_go_step by exact Hx.
  assert (Hd : (x `mod` 10 < 10)%N) by (apply N.mod_lt; lia).
  pose proof (N.div_mod x 10 ltac:(lia)) as Hdiv.
  destruct (N.eq_dec (x `div` 10)%N 0%N) as [Hz|Hnz].
  - rewrite Hz, pretty_N_go_0. cbn [digits]. rewrite digit_pretty by exact Hd.
    unfold default. cbn [from_option id]. f_equal. f_equal. lia.
  - rewrite IH; [|apply N.div_lt; lia|lia].
    cbn [digits]. rewrite digit_pretty by exact Hd.
    unfold default. cbn [from_option id]. f_equal. f_equal. lia.
Qed.

(** They start with a digit that is not zero. *)
Lemma pretty_head (x : N) :
  forall s, (0 < x)%N ->
    exists d t, (0 < d < 10)%N /\ pretty_N_go x s = String (pretty_N_char d) t.
Proof.
  induction (N.lt_wf_0 x) as [x _ IH]. intros s Hx.
  rewrite pretty_N_go_step by exact Hx.
  destruct (N.eq_dec (x `div` 10)%N 0%N) as [Hz|Hnz].
  - rewrite Hz, pretty_N_go_0. exists (x `mod` 10)%N, s. split; [|reflexivity].
    pose proof (N.div_mod x 10 ltac:(lia)).
    pose proof (N.mod_lt x 10 ltac:(lia)). lia.
  - apply IH; [apply N.div_lt; lia|].
    destruct (x `div` 10)%N; [contradiction|lia].
Qed.

(** What [parseInt] does with the digits of a positive number: no white
    space, no sign and no [0x] is taken off, and the digits give the
    number. *)
Lemma parseInt_digits (p : positive) :
  let s := pretty_N_go (N.pos p) "" in
  trimStart s = s /\ signOf s = (1, s) /\ radixOf s = (10, s)
  /\ digits 10 None s = Some (Z.pos p)
  /\ trimStart (String "-" s) = String "-" s.
Proof.
  cbv zeta.
  destruct (pretty_head (N.pos p) "" ltac:(lia)) as (d & t & Hd & Heq).
  split; [|split; [|split; [|split]]].
  - unfold trimStart. apply strip_tight. rewrite Heq.
    assert (H : (d = 1 \/ d = 2 \/ d = 3 \/ d = 4 \/ d = 5 \/ d = 6
                 \/ d = 7 \/ d = 8 \/ d = 9)%N) by lia.
    repeat (destruct H as [->|H]; [reflexivity|]). now subst d.
  - rewrite Heq.
    assert (H : (d = 1 \/ d = 2 \/ d = 3 \/ d = 4 \/ d = 5 \/ d = 6
                 \/ d = 7 \/ d = 8 \/ d = 9)%N) by lia.
    repeat (destruct H as [->|H]; [reflexivity|]). now subst d.
  - rewrite Heq.
    assert (H : (d = 1 \/ d = 2 \/ d = 3 \/ d = 4 \/ d = 5 \/ d = 6
                 \/ d = 7 \/ d = 8 \/ d = 9)%N) by lia.
    repeat (destruct H as [->|H]; [reflexivity|]). now subst d.
  - rewrite digits_pretty by lia. reflexivity.
  - unfold trimStart. apply strip_tight. reflexivity.
Qed.

(** A safe integer is read back from its string form. *)
Lemma parseInt_numberToString (n : Z) :
  Js.safeInteger n = true -> parseInt (Js.numberToString n) = Js.Finite n.
Proof.
  intros Hsafe. unfold Js.numberToString. destruct n as [|p|p].
  - reflexivity.
  - change (pretty (Z.pos p)) with (pretty_N_go (N.pos p) "").
    destruct (parseInt_digits p) as (Htrim & Hsign & Hradix & Hdigits & _).
    unfold parseInt. rewrite Htrim, Hsign, Hradix, Hdigits.
    unfold Js.toDouble. rewrite Z.mul_1_l, Hsafe. reflexivity.
  - change (pretty (Z.neg p)) with (String "-" (pretty_N_go (N.pos p) "")).
    destruct (parseInt_digits p) as (_ & _ & Hradix & Hdigits & Htrim).
    unfold parseInt. rewrite Htrim. cbn [signOf]. rewrite Hradix, Hdigits.
    unfold Js.toDouble. change (-1 * Z.pos p) with (Z.neg p).
    rewrite Hsafe. reflexivity.
Qed.

(** Larger numbers are rounded to the nearest double, ties to the even
    one; white space of any kind is skipped; and what follows the digits
    is ignored. *)
Example parseInt_samples :
  parseInt "9007199254740993" = Js.Finite 9007199254740992
  /\ parseInt "9007199254740995" = Js.Finite 9007199254740996
  /\ parseInt (Js.bytes [194; 160]%N +:+ "42px") = Js.Finite 42
  /\ parseInt "1e+21" = Js.Finite 1
  /\ parseInt "0x1F" = Js.Finite 31
  /\ parseInt "-" = Js.NaN
  /\ parseInt "" = Js.NaN.
Proof. vm_compute. repeat split; reflexivity. Qed.

Section Facts.
Context {World : Type}.
Variable rt : Runtime World.

(** *** [performAssertion] on an element *)

(** X4. An assertion on an element whose expected value is neither [visible]
    nor [hidden], the element being there and its text being read: it throws
    exactly when the text, trimmed, is not the expected value, a missing
    text never being equal. The expected value is compared as it is: one
    that has white space at either end always fails. *)
Theorem performAssertion_text (step : TestStep.t)
    (testData : gmap string Js.Value) (e : Executor World)
    (element : string) (actualText : option string) (w1 w2 : World) :
  page e = Some thePage ->
  given (TestStep.element step) = Some element ->
  let expectedValue := Template.resolveValue (TestStep.expected step) testData in
  expectedValue <> "visible" ->
  expectedValue <> "hidden" ->
  perform rt (LocatorWaitFor element None) (world e) = (Normal tt, w1) ->
  textContent rt element w1 = (Normal actualText, w2) ->
  (Js.threw (fst (performAssertion rt step testData e))
   <-> trim <$> actualText <> Some expectedValue)
  /\ (trim expectedValue <> expectedValue ->
      Js.threw (fst (performAssertion rt step testData e))).
Proof.
  intros Hpage Hgiven expectedValue Hvis Hhid Hwait Htext.
  assert (Hiff : Js.threw (fst (performAssertion rt step testData e))
                 <-> trim <$> actualText <> Some expectedValue).
  { unfold performAssertion, bind, getPage. rewrite Hpage, Hgiven.
    fold expectedValue.
    destruct (String.eqb_spec expectedValue "visible"); [contradiction|].
    destruct (String.eqb_spec expectedValue "hidden"); [contradiction|].
    unfold call. cbn [world withCall withWorld]. rewrite Hwait.
    unfold callTextContent. cbn [world withCall withWorld]. rewrite Htext.
    case_bool_decide as Heq; cbn; split; intros H; try contradiction; auto. }
  split; [exact Hiff|].
  intros Hspace. apply Hiff. intros Heq.
  destruct actualText as [t|]; [|discriminate]. cbn in Heq.
  inversion Heq as [Ht]. apply Hspace. rewrite <- Ht. apply trim_idempotent.
Qed.

(** *** [performAction] *)

(** An action that needs a selector and gets none (absent or empty) throws
    before anything is asked of the browser: the executor is left as it
    was. *)
Lemma performAction_selector_required (step : TestStep.t)
    (testData : gmap string Js.Value) (e : Executor World) :
  page e = Some thePage ->
  TestStep.action step ∈ Actions.needSelector ->
  given (TestStep.element step) = None ->
  performAction rt step testData e
  = (Throw (Js.Error ("Element selector required for " +:+ TestStep.action step
                        +:+ " action")), e).
Proof.
  intros Hpage Hact Hgiven. unfold performAction, bind, getPage.
  rewrite Hpage, Hgiven. unfold Actions.needSelector in Hact.
  repeat (apply elem_of_cons in Hact as [-> | Hact]; [reflexivity|]).
  now apply elem_of_nil in Hact.
Qed.

(** An action without a [case] throws, naming the action, before anything
    is asked of the browser. *)
Lemma performAction_unsupported (step : TestStep.t)
    (testData : gmap string Js.Value) (e : Executor World) :
  page e = Some thePage ->
  TestStep.action step ∉ Actions.supported ->
  performAction rt step testData e
  = (Throw (Js.Error ("Unsupported action: " +:+ TestStep.action step)), e).
Proof.
  intros Hpage Hact. unfold performAction, bind, getPage. rewrite Hpage.
  unfold Actions.supported in Hact.
  repeat match goal with
         | |- context [String.eqb ?a ?b] =>
             destruct (String.eqb_spec a b) as [Heq|_];
             [exfalso; apply Hact; rewrite Heq; set_solver|]
         end.
  reflexivity.
Qed.

(** X5. A step whose action cannot be run, because the selector it needs is
    missing (absent or empty) or because the action is none of the twelve,
    is reported as FAILED with the message that says so, and the browser is
    not asked anything. *)
Theorem executeStep_rejected (step : TestStep.t)
    (testData : gmap string Js.Value) (e : Executor World) :
  page e = Some thePage ->
  TestStep.action step ∉ Actions.supported
  \/ (TestStep.action step ∈ Actions.needSelector
      /\ given (TestStep.element step) = None) ->
  exists stepResult e',
    executeStep rt step testData e = (Normal stepResult, e')
    /\ StepResult.step stepResult = TestStep.step step
    /\ StepResult.status stepResult = FAILED
    /\ StepResult.error stepResult
       = Some (Actions.rejection (TestStep.action step))
    /\ calls e' = calls e.
Proof.
  intros Hpage Hrejected. unfold executeStep, bind, try, now at 1.
  destruct (dateNow rt (world e)) as [t0 w0].
  assert (Hthrows : performAction rt step testData (withWorld w0 e)
                    = (Throw (Js.Error (Actions.rejection (TestStep.action step))),
                       withWorld w0 e)).
  { unfold Actions.rejection. destruct Hrejected as [Hnot|[Hneeds Hnone]].
    - rewrite (performAction_unsupported step testData (withWorld w0 e) Hpage Hnot).
      rewrite bool_decide_eq_false_2; [reflexivity|].
      intros Hin. apply Hnot. revert Hin. unfold Actions.needSelector, Actions.supported.
      rewrite !elem_of_cons, !elem_of_nil. intuition subst; auto 20.
    - rewrite (performAction_selector_required step testData (withWorld w0 e)
                 Hpage Hneeds Hnone).
      now rewrite bool_decide_eq_true_2. }
  rewrite Hthrows. unfold recordStep, now. cbn [world withAttemptedStep withWorld].
  destruct (dateNow rt w0) as [t1 w1]. eexists _, _. split; [reflexivity|].
  cbn. repeat split. unfold Actions.rejection.
  destruct (bool_decide _); reflexivity.
Qed.

(** *** [captureArtifacts] *)

(** X6. [captureArtifacts] never throws. Asked not to capture, or without a
    page, it returns no artifact and leaves the executor and the browser as
    they are. A screenshot is only reported after the call that takes it was
    made and returned, and logs only together with a screenshot; no video
    is ever reported. *)
Theorem captureArtifacts_spec (testCaseId : string) (capture : option bool)
    (e : Executor World) :
  exists artifacts e',
    captureArtifacts rt testCaseId capture e = (Normal artifacts, e')
    /\ (capture = Some false \/ page e = None ->
        artifacts = Artifacts.empty /\ e' = e)
    /\ (forall path, Artifacts.screenshot artifacts = Some path ->
        exists later, calls e' = calls e ++ Screenshot path true :: later)
    /\ (Artifacts.logs artifacts <> None -> Artifacts.screenshot artifacts <> None)
    /\ Artifacts.video artifacts = None.
Proof.
  unfold captureArtifacts, bind, try, getPage, ret, call, callEvaluateTestLogs,
    consoleLog, now.
  assert (Hsome : forall p : option Page,
             bool_decide (is_Some p) = match p with Some _ => true | None => false end).
  { intros [p|]; [now apply bool_decide_eq_true | apply bool_decide_eq_false].
    intros [x Hx]. discriminate. }
  rewrite Hsome.
  destruct capture as [[]|], (page e) as [[]|] eqn:Hpage; cbn;
    try (eexists _, _; split; [reflexivity|];
         split; [auto|]; split; [cbn; intros ? ?; discriminate|];
         split; [cbn; congruence|reflexivity]).
  all: destruct (dateNow rt (world e)) as [t w]; cbn;
    destruct (perform rt _ w) as [[[]|err] w1]; cbn;
    [destruct (evaluateTestLogs rt w1) as [[logs|err] w2]; cbn|];
    eexists _, _; (split; [reflexivity|]);
    (split; [intros [H|H]; discriminate|]);
    (split; [cbn; intros path Hp; inversion Hp; subst;
             eexists; rewrite <- ?app_assoc; reflexivity
            |]);
    (split; [cbn; congruence | reflexivity]).
Qed.

(** *** [executeTestCase] and the result handler *)

(** X8. With its page set, [executeTestCase] hands exactly one result to the
    result handler: the result as built, before the enrichment; it differs
    from the returned one by the time of execution and the browser
    information at most. *)
Theorem executeTestCase_stores (testCase : TestCase.t) (options : ExecutionOptions.t)
    (e : Executor World) :
  page e = Some thePage ->
  exists result stored e',
    executeTestCase rt testCase options e = (Normal result, e')
    /\ results (resultHandler e') = results (resultHandler e) ++ [stored]
    /\ Handler.startTime (resultHandler e') = Handler.startTime (resultHandler e)
    /\ events (resultHandler e') = events (resultHandler e)
    /\ TestResult.testCaseId stored = TestResult.testCaseId result
    /\ TestResult.status stored = TestResult.status result
    /\ TestResult.duration stored = TestResult.duration result
    /\ TestResult.error stored = TestResult.error result
    /\ TestResult.stepResults stored = TestResult.stepResults result
    /\ TestResult.artifacts stored = TestResult.artifacts result
    /\ TestResult.browserInfo stored = None
    /\ TestResult.browserInfo result <> None.
Proof.
  intros Hpage. unfold executeTestCase, bind, recordCase.
  cbn [getPage page withAttemptedCase]. rewrite Hpage. unfold now at 1.
  destruct (dateNow rt _) as [t0 w0].
  match goal with
  | |- context [forSteps rt ?steps ?data ?vars ?e0] =>
      destruct (forSteps_run rt steps data vars e0)
        as (vars' & e1 & attempts & results & Hfor & _ & _ & _ & _ & Hsame)
  end.
  rewrite Hfor. destruct Hsame as (_ & _ & _ & Hh1 & _). cbn in Hh1.
  unfold now at 1. destruct (dateNow rt (world e1)) as [t1 w1]. cbn [status].
  match goal with
  | |- context [captureArtifacts rt ?id ?capture ?e0] =>
      destruct (captureArtifacts_run rt id capture e0)
        as (artifacts & e2 & Hcap & Hun)
  end.
  rewrite Hcap. destruct Hun as (_ & _ & _ & Hh2 & _). cbn in Hh2.
  unfold processResult, Handler.processResult, bind, now.
  destruct (dateNow rt (world e2)) as [t2 w2]. cbn [world withWorld].
  destruct (dateNow rt w2) as [t3 w3].
  eexists _, _, _. split; [reflexivity|]. cbn. rewrite Hh2, Hh1.
  repeat split. discriminate.
Qed.

(** With a page and not told otherwise, [captureArtifacts] asks for the
    screenshot of the whole page. *)
Lemma captureArtifacts_attempt (testCaseId : string) (capture : option bool)
    (e : Executor World) :
  capture <> Some false -> page e = Some thePage ->
  exists artifacts e' path later,
    captureArtifacts rt testCaseId capture e = (Normal artifacts, e')
    /\ calls e' = calls e ++ Screenshot path true :: later.
Proof.
  intros Hcapture Hpage.
  unfold captureArtifacts, bind, try, getPage, ret, call, callEvaluateTestLogs,
    consoleLog, now.
  rewrite Hpage, bool_decide_eq_true_2 by eauto.
  assert (Hc : default true capture = true)
    by (destruct capture as [[]|]; [reflexivity | contradiction | reflexivity]).
  rewrite Hc. cbn [negb orb].
  destruct (dateNow rt (world e)) as [t w]; cbn.
  destruct (perform rt _ w) as [[[]|err] w1]; cbn;
    [destruct (evaluateTestLogs rt w1) as [[logs|err] w2]; cbn|];
    eexists _, _, _, _; (split; [reflexivity|]); cbn;
    rewrite <- ?app_assoc; reflexivity.
Qed.

(** X7. The screenshot is asked for after a test that passes too, unless
    [captureOnSuccess] is [false]: left out, it stands for the [true] of
    the default of [captureArtifacts]. With [captureOnSuccess: false] a
    test that does not fail has no artifact; after a test that fails the
    screenshot is always asked for. *)
Theorem executeTestCase_captures (testCase : TestCase.t)
    (options : ExecutionOptions.t) (e : Executor World) :
  page e = Some thePage ->
  exists result e',
    executeTestCase rt testCase options e = (Normal result, e')
    /\ (TestResult.status result <> FAILED ->
        ExecutionOptions.captureOnSuccess options = Some false ->
        TestResult.artifacts result = Some Artifacts.empty)
    /\ (TestResult.status result = FAILED
        \/ ExecutionOptions.captureOnSuccess options <> Some false ->
        exists path, Screenshot path true ∈ calls e').
Proof.
  intros Hpage. unfold executeTestCase, bind, recordCase.
  cbn [getPage page withAttemptedCase]. rewrite Hpage. unfold now at 1.
  destruct (dateNow rt _) as [t0 w0].
  match goal with
  | |- context [forSteps rt ?steps ?data ?vars ?e0] =>
      destruct (forSteps_run rt steps data vars e0)
        as (vars' & e1 & attempts & results & Hfor & _ & _ & _ & _ & Hsame)
  end.
  rewrite Hfor. destruct Hsame as (_ & _ & Hp1 & _). cbn in Hp1.
  unfold now at 1. destruct (dateNow rt (world e1)) as [t1 w1]. cbn [status].
  set (capture := if Status_eqb (status vars') FAILED then Some true
                  else ExecutionOptions.captureOnSuccess options).
  assert (Hp : page (withWorld w1 e1) = Some thePage) by (cbn; congruence).
  destruct (decide (capture = Some false)) as [Hno|Hyes].
  - (* nothing is captured *)
    assert (Hcap : captureArtifacts rt (TestCase.id testCase) capture (withWorld w1 e1)
                   = (Normal Artifacts.empty, withWorld w1 e1)).
    { unfold captureArtifacts, bind, getPage. now rewrite Hno. }
    rewrite Hcap. unfold processResult, Handler.processResult, bind, now.
    destruct (dateNow rt _) as [t2 w2]. cbn [world withWorld].
    destruct (dateNow rt w2) as [t3 w3].
    eexists _, _. split; [reflexivity|]. cbn [TestResult.status TestResult.artifacts].
    split; [reflexivity|]. intros [Hfailed|Hoption]; exfalso.
    + subst capture. rewrite Hfailed in Hno. discriminate.
    + subst capture. destruct (Status_eqb (status vars') FAILED);
        [discriminate | contradiction].
  - destruct (captureArtifacts_attempt (TestCase.id testCase) capture
                (withWorld w1 e1) Hyes Hp)
      as (artifacts & e2 & path & later & Hcap & Hcalls).
    rewrite Hcap. unfold processResult, Handler.processResult, bind, now.
    destruct (dateNow rt _) as [t2 w2]. cbn [world withWorld].
    destruct (dateNow rt w2) as [t3 w3].
    eexists _, _. split; [reflexivity|]. cbn [TestResult.status TestResult.artifacts].
    split.
    + intros Hpassed Hoption. exfalso. apply Hyes. subst capture.
      destruct (status vars'); cbn; try assumption. contradiction.
    + intros _. exists path. cbn. rewrite Hcalls, elem_of_app. right. left.
Qed.

(** *** [executeTestSuite] on an initialized executor *)

(** The loop of [executeTestSuite] with the page set: no case is recorded
    as failed to execute; every case is run, unless the suite is asked to
    stop on failure, and then the loop ends with the first FAILED result. *)
Lemma forTestCases_initialized (options : ExecutionOptions.t)
    (testCases : list TestCase.t) :
  forall (results returned : list TestResult.t) (e e' : Executor World),
    page e = Some thePage ->
    forTestCases rt testCases options results e = (Normal returned, e') ->
    exists new,
      returned = results ++ new
      /\ page e' = Some thePage
      /\ (default false (ExecutionOptions.stopOnFailure options) = false ->
          map TestResult.testCaseId new = map TestCase.id testCases)
      /\ (default false (ExecutionOptions.stopOnFailure options) = true ->
          Forall (fun r => TestResult.status r <> FAILED) (removelast new)
          /\ (map TestResult.testCaseId new = map TestCase.id testCases
              \/ exists r, last new = Some r /\ TestResult.status r = FAILED)).
Proof.
  induction testCases as [|testCase rest IH]; intros results returned e e' Hpage H.
  - cbn in H. inversion H; subst. exists []. rewrite app_nil_r.
    repeat split; auto.
  - destruct (executeTestCase_run rt testCase options e Hpage)
      as (result & e1 & vars & attempts & Hrun & Hid & _ & _ & _ & _ & _ & _ & _ & Hp1).
    cbn [forTestCases] in H. unfold bind at 1, try in H. rewrite Hrun in H.
    destruct (Status_eqb (TestResult.status result) FAILED) eqn:Hfailed;
      destruct (default false (ExecutionOptions.stopOnFailure options)) eqn:Hstop;
      cbn [andb] in H.
    1: { (* the suite stops here *)
      inversion H; subst. exists [result]. repeat split; try congruence.
      - constructor.
      - right. exists result. split; [reflexivity|].
        destruct (TestResult.status result); (reflexivity || discriminate). }
    all: unfold bind in H;
      pose proof (browses_delayBetweenTests rt options e1) as Hb;
      destruct (delayBetweenTests rt options e1) as [[[]|err] e2]; [|discriminate];
      destruct Hb as (_ & _ & Hp2 & _); cbn in Hp2;
      assert (Hpage2 : page e2 = Some thePage) by congruence;
      destruct (IH _ _ _ _ Hpage2 H) as (new & -> & Hp' & Hall & Hstops);
      exists (result :: new); rewrite <- app_assoc;
      (split; [reflexivity|]); (split; [exact Hp'|]); split; intros Hs;
      try discriminate Hs.
    + cbn [map]. now rewrite Hid, (Hall Hs).
    + destruct (Hstops Hs) as [Hnot Hlast]. split.
      * destruct new as [|r new]; [constructor|].
        change (removelast (result :: r :: new))
          with (result :: removelast (r :: new)).
        constructor; [|exact Hnot]. intros Hf. rewrite Hf in Hfailed.
        discriminate.
      * destruct Hlast as [Hids|(r & Hr & Hf)].
        -- left. cbn [map]. now rewrite Hid, Hids.
        -- right. exists r. split; [|exact Hf].
           destruct new as [|r' new]; [discriminate | exact Hr].
    + cbn [map]. now rewrite Hid, (Hall Hs).
Qed.

(** X9. [executeTestSuite] on an initialized executor. It returns when no
    pause between the cases is asked for. When it returns, the page is
    still set; unless it is asked to stop on failure it returns one result
    for each case, in the order of the cases; asked to stop on failure, no
    result before the last is FAILED, and either every case has its result
    or the last result is FAILED. *)
Theorem executeTestSuite_initialized (testCases : list TestCase.t)
    (options : ExecutionOptions.t) (e : Executor World) :
  page e = Some thePage ->
  (noDelay options ->
   exists results e', executeTestSuite rt testCases options e = (Normal results, e'))
  /\ forall results e',
       executeTestSuite rt testCases options e = (Normal results, e') ->
       page e' = Some thePage
       /\ (ExecutionOptions.stopOnFailure options <> Some true ->
           map TestResult.testCaseId results = map TestCase.id testCases)
       /\ (ExecutionOptions.stopOnFailure options = Some true ->
           Forall (fun r => TestResult.status r <> FAILED) (removelast results)
           /\ (map TestResult.testCaseId results = map TestCase.id testCases
               \/ exists r, last results = Some r
                            /\ TestResult.status r = FAILED)).
Proof.
  intros Hpage. split.
  - intros Hno. apply (forTestCases_noDelay rt options testCases Hno).
  - intros results e' H. unfold executeTestSuite in H.
    destruct (forTestCases_initialized options testCases [] results e e' Hpage H)
      as (new & -> & Hp & Hall & Hstops).
    cbn [app]. split; [exact Hp|]. split.
    + intros Hs. apply Hall.
      destruct (ExecutionOptions.stopOnFailure options) as [[]|]; [congruence|auto..].
    + intros Hs. apply Hstops. now rewrite Hs.
Qed.

End Facts.
End ExecutorMore.

(** ** More on the result handler *)

Module HandlerMore.
Import Handler HandlerSamples Analysis.

(** *** The summary *)

Lemma withStatus_partition (results : list TestResult.t) :
  (length (withStatus PASSED results) + length (withStatus FAILED results)
   + length (withStatus SKIPPED results) + length (withStatus FLAKY results))%nat
  = length results.
Proof.
  unfold withStatus. induction results as [|r results IH]; [reflexivity|].
  rewrite !filter_cons.
  destruct (TestResult.status r); cbn [Status_eqb];
    repeat case_decide; try discriminate; try congruence; cbn [length]; lia.
Qed.

(** X10. The four counts of a summary add up to its total: every result has one
    of the four statuses. *)
Theorem generateSummary_counts (h : TestResultHandler)
    (results : option (list TestResult.t)) (now : Z) (proc : Process) :
  let summary := generateSummary h results now proc in
  (TestSummary.passed summary + TestSummary.failed summary
   + TestSummary.skipped summary + TestSummary.flaky summary)%nat
  = TestSummary.total summary.
Proof. cbn. apply withStatus_partition. Qed.



(** *** Tables of counters *)

Section Tables.
Context {K : Type} `{EqDecision K}.
Implicit Types (key : K) (counts : list (K * nat)).

Lemma tally_bump key key' counts :
  tally key (bump key' counts)
  = (tally key counts + if decide (key' = key) then 1 else 0)%nat.
Proof.
  unfold tally. induction counts as [|[k n] counts IH]; cbn.
  - destruct (decide (key' = key)); lia.
  - destruct (decide (k = key')) as [->|Hne]; cbn.
    + destruct (decide (key' = key)); lia.
    + rewrite IH. destruct (decide (k = key)); lia.
Qed.

Lemma bump_keys key counts :
  map fst (bump key counts)
  = map fst counts ++ (if decide (key ∈ map fst counts) then [] else [key]).
Proof.
  induction counts as [|[k n] counts IH]; cbn.
  - rewrite decide_False; [reflexivity | apply not_elem_of_nil].
  - destruct (decide (k = key)) as [->|Hne]; cbn.
    + rewrite decide_True by (left). now rewrite app_nil_r.
    + rewrite IH. f_equal.
      destruct (decide (key ∈ map fst counts)) as [Hin|Hnin].
      * rewrite decide_True by (right; exact Hin). reflexivity.
      * rewrite decide_False; [reflexivity|].
        intros Hin. apply elem_of_cons in Hin as [->|Hin]; contradiction.
Qed.

Lemma bump_NoDup key counts :
  NoDup (map fst counts) -> NoDup (map fst (bump key counts)).
Proof.
  intros Hnd. rewrite bump_keys. destruct (decide (key ∈ map fst counts)).
  - now rewrite app_nil_r.
  - apply NoDup_app. repeat split; [exact Hnd | | apply NoDup_singleton].
    intros x Hx Hx'. apply list_elem_of_singleton in Hx'. now subst.
Qed.

Lemma tally_Permutation key counts counts' :
  counts ≡ₚ counts' -> tally key counts = tally key counts'.
Proof.
  unfold tally.
  induction 1 as [|[k n] l l' _ IH|[k n] [k' n'] l|l1 l2 l3 _ IH1 _ IH2]; cbn.
  - reflexivity.
  - now rewrite IH.
  - destruct (decide (k = key)), (decide (k' = key)); lia.
  - congruence.
Qed.

Lemma tally_absent key counts :
  key ∉ map fst counts -> tally key counts = 0%nat.
Proof.
  unfold tally.
  induction counts as [|[k n] counts IH]; cbn; intros Hnin; [reflexivity|].
  apply not_elem_of_cons in Hnin as [Hne Hnin].
  rewrite decide_False by congruence. now apply IH.
Qed.

(** In a table without repeated keys the tally of a key is the count of its
    entry. *)
Lemma tally_entry key n counts :
  NoDup (map fst counts) -> (key, n) ∈ counts -> tally key counts = n.
Proof.
  induction counts as [|[k m] counts IH]; intros Hnd Hin.
  - now apply elem_of_nil in Hin.
  - cbn in Hnd. apply NoDup_cons in Hnd as [Hk Hnd].
    unfold tally; cbn; fold (tally key counts).
    apply elem_of_cons in Hin as [Heq|Hin].
    + inversion Heq; subst. rewrite decide_True by reflexivity.
      rewrite (tally_absent _ _ Hk). lia.
    + rewrite decide_False.
      * now apply IH.
      * intros ->. apply Hk. apply list_elem_of_fmap. now exists (key, n).
Qed.

Lemma tally_keys key counts :
  Forall (fun kv => 0 < snd kv)%nat counts ->
  (0 < tally key counts)%nat <-> key ∈ map fst counts.
Proof.
  intros Hpos. split.
  - intros Ht. destruct (decide (key ∈ map fst counts)) as [|Hnin]; [assumption|].
    rewrite (tally_absent _ _ Hnin) in Ht. lia.
  - unfold tally.
    induction Hpos as [|[k n] counts Hn _ IH]; cbn; intros Hin.
    + now apply elem_of_nil in Hin.
    + destruct (decide (k = key)); [cbn in Hn; lia|].
      apply elem_of_cons in Hin as [->|Hin]; [contradiction | now apply IH].
Qed.

Lemma bump_positive key counts :
  Forall (fun kv => 0 < snd kv)%nat counts ->
  Forall (fun kv => 0 < snd kv)%nat (bump key counts).
Proof.
  induction 1 as [|[k n] counts Hn Hrest IH]; cbn.
  - repeat constructor.
  - destruct (decide (k = key)); constructor; cbn in *; first [lia | assumption].
Qed.

(** The table built by counting the keys of a list, one after the other. *)
Lemma bump_all (keys : list K) :
  forall counts,
    NoDup (map fst counts) ->
    Forall (fun kv => 0 < snd kv)%nat counts ->
    NoDup (map fst (fold_left (fun counts key => bump key counts) keys counts))
    /\ Forall (fun kv => 0 < snd kv)%nat
         (fold_left (fun counts key => bump key counts) keys counts)
    /\ forall key,
         tally key (fold_left (fun counts key => bump key counts) keys counts)
         = (tally key counts + occurrences key keys)%nat.
Proof.
  unfold occurrences.
  induction keys as [|k keys IH]; intros counts Hnd Hpos; cbn [fold_left].
  - repeat split; auto.
  - destruct (IH (bump k counts) (bump_NoDup _ _ Hnd) (bump_positive _ _ Hpos))
      as (Hnd' & Hpos' & Htally).
    repeat split; auto. intros key. rewrite Htally, tally_bump, filter_cons.
    destruct (decide (k = key)); cbn [length]; lia.
Qed.

(** *** The sort by count *)

Lemma insertByCount_Permutation (x : K * nat) l :
  insertByCount x l ≡ₚ x :: l.
Proof.
  induction l as [|y l IH]; cbn [insertByCount]; [reflexivity|].
  destruct (snd x <? snd y)%nat; [|reflexivity].
  rewrite IH. apply Permutation_swap.
Qed.

Lemma sortByCount_Permutation (l : list (K * nat)) : sortByCount l ≡ₚ l.
Proof.
  unfold sortByCount. induction l as [|x l IH]; cbn [foldr]; [reflexivity|].
  now rewrite insertByCount_Permutation, IH.
Qed.

Lemma insertByCount_sorted (x : K * nat) l :
  descending l -> descending (insertByCount x l).
Proof.
  unfold descending. induction 1 as [|y l Hl IH Hy]; cbn [insertByCount].
  - repeat constructor.
  - destruct (Nat.ltb_spec (snd x) (snd y)) as [Hlt|Hge].
    + constructor; [exact IH|].
      destruct l as [|z l]; cbn [insertByCount].
      * constructor. lia.
      * destruct (snd x <? snd z)%nat; constructor; [|lia].
        now inversion Hy.
    + constructor; [now constructor|]. constructor. lia.
Qed.

Lemma sortByCount_sorted (l : list (K * nat)) : descending (sortByCount l).
Proof.
  unfold sortByCount.
  induction l as [|x l IH]; cbn [foldr]; [constructor | now apply insertByCount_sorted].
Qed.

Lemma descending_strongly (l : list (K * nat)) :
  descending l -> StronglySorted (fun a b : K * nat => (snd b <= snd a)%nat) l.
Proof.
  apply Sorted_StronglySorted. intros a b c Hab Hbc. lia.
Qed.

Lemma descending_take n (l : list (K * nat)) :
  descending l -> descending (take n l).
Proof.
  intros H. apply descending_strongly in H. apply StronglySorted_Sorted.
  revert n. induction H as [|x l Hl IH Hx]; intros [|n]; cbn; try constructor.
  - apply IH.
  - eapply Forall_take in Hx. exact Hx.
Qed.

(** What the first entries of a sorted table leave out counts no more than
    what they keep. *)
Lemma descending_top n l (kept dropped : K * nat) :
  descending l -> kept ∈ take n l -> dropped ∈ drop n l ->
  (snd dropped <= snd kept)%nat.
Proof.
  intros H. apply descending_strongly in H. rewrite <- (take_drop n l) in H.
  intros Hk Hd.
  exact (StronglySorted_app_1_elem_of (fun a b : K * nat => (snd b <= snd a)%nat)
           _ _ _ _ H Hk Hd).
Qed.

(** The first [n] entries of the sorted table of the occurrences of
    [keys]. *)
Lemma counted_top (keys : list K) (table : list (K * nat)) (n : nat) :
  table ≡ₚ fold_left (fun counts key => bump key counts) keys [] ->
  descending (take n (sortByCount table))
  /\ NoDup (map fst (take n (sortByCount table)))
  /\ (length (take n (sortByCount table)) <= n)%nat
  /\ (forall key count,
        (key, count) ∈ take n (sortByCount table) ->
        count = occurrences key keys /\ (0 < count)%nat)
  /\ (forall key,
        key ∈ keys -> key ∉ map fst (take n (sortByCount table)) ->
        (n <= length (take n (sortByCount table)))%nat
        /\ forall p, p ∈ take n (sortByCount table) ->
                     (occurrences key keys <= snd p)%nat).
Proof.
  intros Htable.
  destruct (bump_all keys [] (NoDup_nil_2) (Forall_nil_2 _))
    as (Hnd & Hpos & Htally).
  assert (Hfull : sortByCount table
                  ≡ₚ fold_left (fun counts key => bump key counts) keys [])
    by (now rewrite sortByCount_Permutation).
  assert (Hnd' : NoDup (map fst (sortByCount table)))
    by (now rewrite Hfull).
  assert (Hpos' : Forall (fun kv => 0 < snd kv)%nat (sortByCount table))
    by (now rewrite Hfull).
  assert (Htally' : forall key,
             tally key (sortByCount table) = occurrences key keys).
  { intros key. rewrite (tally_Permutation _ _ _ Hfull), Htally. reflexivity. }
  pose proof (sortByCount_sorted table) as Hsorted.
  set (full := sortByCount table) in *. clearbody full.
  repeat split.
  - now apply descending_take.
  - change (map fst (take n full)) with (fst <$> take n full).
    rewrite fmap_take. eapply sublist_NoDup; [exact Hnd' | apply sublist_take].
  - rewrite length_take. lia.
  - rewrite <- (Htally' key). symmetry. apply tally_entry; [exact Hnd'|].
    eapply subseteq_take; eassumption.
  - apply subseteq_take in H. rewrite Forall_forall in Hpos'.
    exact (Hpos' _ H).
  - assert (Hlen : (n <= length full)%nat \/ (length full < n)%nat) by lia.
    destruct Hlen as [Hlen|Hlen]; [rewrite length_take; lia|].
    exfalso. apply H0. rewrite take_ge by lia.
    apply (tally_keys _ _ Hpos'). rewrite Htally'. unfold occurrences.
    apply list_elem_of_In, (in_split key) in H as (l1 & l2 & ->).
    rewrite filter_app, filter_cons_True, length_app by reflexivity.
    cbn [length]. lia.
  - intros p Hp.
    assert (Hin : key ∈ map fst full).
    { apply (tally_keys _ _ Hpos'). rewrite Htally'. unfold occurrences.
      apply list_elem_of_In, (in_split key) in H as (l1 & l2 & ->).
      rewrite filter_app, filter_cons_True, length_app by reflexivity.
      cbn [length]. lia. }
    apply list_elem_of_fmap in Hin as ([k c] & Hk & Hin). cbn in Hk. subst k.
    rewrite <- (Htally' key), (tally_entry _ _ _ Hnd' Hin).
    rewrite <- (take_drop n full) in Hin. apply elem_of_app in Hin as [Hin|Hin].
    + exfalso. apply H0. apply list_elem_of_fmap. now exists (key, c).
    + exact (descending_top n full p (key, c) Hsorted Hp Hin).
Qed.

End Tables.

(** *** [Object.entries] *)

Lemma insertByKey_Permutation (x : Z * nat) l : insertByKey x l ≡ₚ x :: l.
Proof.
  induction l as [|y l IH]; cbn [insertByKey]; [reflexivity|].
  destruct (fst x <? fst y)%Z; [reflexivity|].
  rewrite IH. apply Permutation_swap.
Qed.

Lemma entries_Permutation (counts : list (Z * nat)) : entries counts ≡ₚ counts.
Proof.
  unfold entries.
  assert (Hsort : forall l, foldr insertByKey [] l ≡ₚ l).
  { induction l as [|x l IH]; cbn [foldr]; [reflexivity|].
    now rewrite insertByKey_Permutation, IH. }
  rewrite Hsort. induction counts as [|x counts IH]; [reflexivity|].
  rewrite !filter_cons. destruct (isIndex (fst x)) eqn:Hx.
  - rewrite decide_True, decide_False by congruence. cbn [app]. now rewrite IH.
  - rewrite decide_False, decide_True by congruence.
    rewrite <- Permutation_middle. now rewrite IH.
Qed.

(** *** The failure analysis *)

Lemma errorCounts_kinds (failedResults : list TestResult.t) :
  errorCounts failedResults
  = fold_left (fun counts key => bump key counts) (errorKinds failedResults) [].
Proof.
  unfold errorCounts, errorKinds. generalize (@nil (string * nat)).
  induction failedResults as [|r rs IH]; intros counts; cbn; [reflexivity|].
  destruct (errorOf r); cbn; apply IH.
Qed.

Lemma errorKinds_known (failedResults : list TestResult.t) (kind : string) :
  kind ∈ errorKinds failedResults -> kind ∈ errorTypes.
Proof.
  unfold errorKinds. intros Hin.
  apply list_elem_of_fmap in Hin as (e & -> & _).
  unfold extractErrorType, errorTypes.
  repeat match goal with |- context [if ?b then _ else _] => destruct b end;
    repeat first [apply list_elem_of_here | apply list_elem_of_further].
Qed.

Lemma occurrences_positive {K} `{EqDecision K} (key : K) (keys : list K) :
  (0 < occurrences key keys)%nat <-> key ∈ keys.
Proof.
  unfold occurrences. induction keys as [|k keys IH].
  - cbn. split; [lia | intros H; now apply elem_of_nil in H].
  - rewrite filter_cons. destruct (decide (k = key)) as [->|Hne].
    + cbn. split; [left | lia].
    + rewrite IH. split; [now right|].
      intros H. apply elem_of_cons in H as [->|H]; [contradiction | assumption].
Qed.

Lemma errorPatterns_counted (failedResults : list TestResult.t) :
  let patterns := analyzeErrorPatterns failedResults in
  descending patterns
  /\ NoDup (map fst patterns)
  /\ forall kind count,
       (kind, count) ∈ patterns
       <-> count = occurrences kind (errorKinds failedResults)
           /\ (0 < count)%nat.
Proof.
  cbv zeta. unfold analyzeErrorPatterns.
  destruct (counted_top (errorKinds failedResults) (errorCounts failedResults)
              10%nat) as (Hsorted & Hnd & _ & Hcount & Htop).
  { now rewrite errorCounts_kinds. }
  repeat split; auto.
  - now apply Hcount.
  - now apply Hcount in H.
  - intros [-> Hpos].
    set (patterns := take 10 (sortByCount (errorCounts failedResults))) in *.
    assert (Hknown : forall k, k ∈ map fst patterns -> k ∈ errorTypes).
    { intros k Hk. apply list_elem_of_fmap in Hk as ([k' c] & -> & Hk).
      cbn. apply Hcount in Hk as [-> Hk].
      apply occurrences_positive in Hk.
      now apply errorKinds_known in Hk. }
    assert (Hlen : (length (map fst patterns) <= 5)%nat).
    { apply (submseteq_length _ errorTypes).
      now apply NoDup_submseteq. }
    rewrite length_map in Hlen.
    destruct (decide (kind ∈ map fst patterns)) as [Hin|Hnin].
    + apply list_elem_of_fmap in Hin as ([k c] & Hk & Hin). cbn in Hk. subst k.
      now destruct (Hcount _ _ Hin) as [-> _].
    + apply occurrences_positive in Hpos.
      destruct (Htop kind Hpos Hnin) as [Hten _]. lia.
Qed.

Lemma failedSteps_counted (failedResults : list TestResult.t) :
  let steps := rankedSteps failedResults in
  let failed := failedStepNumbers failedResults in
  descending steps
  /\ NoDup (map fst steps)
  /\ (length steps <= 10)%nat
  /\ (forall step count,
        (step, count) ∈ steps ->
        count = occurrences step failed /\ (0 < count)%nat)
  /\ (forall step,
        step ∈ failed -> step ∉ map fst steps ->
        length steps = 10%nat
        /\ forall p, p ∈ steps -> (occurrences step failed <= snd p)%nat).
Proof.
  cbv zeta. unfold rankedSteps.
  destruct (counted_top (failedStepNumbers failedResults)
              (entries (stepCounts failedResults)) 10%nat)
    as (Hsorted & Hnd & Hlen & Hcount & Htop).
  { now rewrite entries_Permutation. }
  repeat split; auto.
  - now apply Hcount in H.
  - now apply Hcount in H.
  - destruct (Htop step H H0) as [Hten _]. lia.
  - intros p Hp. destruct (Htop step H H0) as [_ Hle]. now apply Hle.
Qed.

(** X12. [analyzeErrorPatterns] lists every category of error that occurs
    among the results once, with the number of results whose error falls in
    it, the most frequent category first; categories that do not occur are
    not listed. *)
Theorem analyzeErrorPatterns_spec (failedResults : list TestResult.t) :
  let patterns := analyzeErrorPatterns failedResults in
  descending patterns
  /\ NoDup (map fst patterns)
  /\ forall kind count,
       (kind, count) ∈ patterns
       <-> count = occurrences kind (errorKinds failedResults)
           /\ (0 < count)%nat.
Proof. exact (errorPatterns_counted failedResults). Qed.

(** Step numbers that are safe integers are read back from their keys as
    they were. *)
Lemma analyzeFailedSteps_listed (failedResults : list TestResult.t) :
  safeSteps (failedStepNumbers failedResults) ->
  analyzeFailedSteps failedResults = listed (rankedSteps failedResults).
Proof.
  intros Hsafe. unfold analyzeFailedSteps, listed.
  destruct (failedSteps_counted failedResults) as (_ & _ & _ & Hcount & _).
  apply map_ext_in. intros [step count] Hin. cbn [fst snd]. f_equal.
  apply ExecutorMore.parseInt_numberToString.
  apply list_elem_of_In in Hin. destruct (Hcount _ _ Hin) as [-> Hpos].
  apply occurrences_positive in Hpos.
  unfold safeSteps in Hsafe. rewrite Forall_forall in Hsafe. now apply Hsafe.
Qed.

(** X13. When the numbers of the failed steps are safe integers,
    [analyzeFailedSteps] lists at most ten of them, each once, with the
    number of failed step results that carry it, the most frequent first;
    a failed step number that is left out occurs no more often than any of
    the ten that are listed. *)
Theorem analyzeFailedSteps_spec (failedResults : list TestResult.t)
    (Hsafe : safeSteps (failedStepNumbers failedResults)) :
  exists steps,
    let failed := failedStepNumbers failedResults in
    analyzeFailedSteps failedResults = listed steps
    /\ descending steps
    /\ NoDup (map fst steps)
    /\ (length steps <= 10)%nat
    /\ (forall step count,
          (step, count) ∈ steps ->
          count = occurrences step failed /\ (0 < count)%nat)
    /\ (forall step,
          step ∈ failed -> step ∉ map fst steps ->
          length steps = 10%nat
          /\ forall p, p ∈ steps -> (occurrences step failed <= snd p)%nat).
Proof.
  exists (rankedSteps failedResults). cbv zeta.
  split; [now apply analyzeFailedSteps_listed|].
  exact (failedSteps_counted failedResults).
Qed.

(** *** The recommendations *)

Lemma append_inj_r (s1 s2 t : string) : s1 +:+ t = s2 +:+ t -> s1 = s2.
Proof.
  revert s2. induction s1 as [|c s1 IH]; intros [|d s2] H; cbn in H.
  - reflexivity.
  - apply (f_equal String.length) in H. cbn in H.
    rewrite StringFacts.length_append in H. lia.
  - apply (f_equal String.length) in H. cbn in H.
    rewrite StringFacts.length_append in H. lia.
  - injection H as -> H. f_equal. now apply IH.
Qed.

Lemma stepAdvice_inj (step step' : Z) :
  stepAdvice step = stepAdvice step' -> step = step'.
Proof.
  unfold stepAdvice. intros H. cbn in H. injection H as H.
  apply append_inj_r in H. now apply (inj pretty) in H.
Qed.

Lemma pattern_listed (failedResults : list TestResult.t) (kind : string) :
  Exists (fun p => fst p = kind) (analyzeErrorPatterns failedResults)
  <-> exists r e, r ∈ failedResults /\ errorOf r = Some e
                  /\ extractErrorType e = kind.
Proof.
  destruct (errorPatterns_counted failedResults) as (_ & _ & Hcount).
  rewrite Exists_exists. split.
  - intros ([k c] & Hin & Hk). cbn in Hk. subst k.
    apply Hcount in Hin as [Hc Hpos]. rewrite Hc in Hpos.
    apply occurrences_positive in Hpos. unfold errorKinds in Hpos.
    apply list_elem_of_fmap in Hpos as (e & He & Hin').
    apply list_elem_of_omap in Hin' as (r & Hr & Hre).
    now exists r, e.
  - intros (r & e & Hr & He & Hk).
    exists (kind, occurrences kind (errorKinds failedResults)). split; [|reflexivity].
    apply Hcount. split; [reflexivity|].
    apply occurrences_positive. unfold errorKinds.
    apply list_elem_of_fmap. exists e. split; [now symmetry|].
    apply list_elem_of_omap. now exists r.
Qed.

Lemma extractErrorType_Timeout (e : string) :
  extractErrorType e = "Timeout" <-> Js.includes "timeout" e = true.
Proof.
  unfold extractErrorType.
  repeat match goal with |- context [if ?b then _ else _] => destruct b end;
    split; intros H; first [reflexivity | discriminate].
Qed.

Lemma extractErrorType_Element (e : string) :
  extractErrorType e = "Element Not Found"
  <-> Js.includes "timeout" e = false
      /\ Js.includes "element not found" e = true.
Proof.
  unfold extractErrorType.
  repeat match goal with |- context [if ?b then _ else _] => destruct b end;
    split; first [intros [? ?] | intros ?];
    first [discriminate | split; reflexivity | reflexivity].
Qed.

(** The step the analysis lists first failed most often. *)
Lemma failedSteps_first (failedResults : list TestResult.t) :
  match rankedSteps failedResults with
  | [] => failedStepNumbers failedResults = []
  | (step, count) :: _ =>
      count = occurrences step (failedStepNumbers failedResults)
      /\ (0 < count)%nat
      /\ forall other,
           (occurrences other (failedStepNumbers failedResults) <= count)%nat
  end.
Proof.
  destruct (failedSteps_counted failedResults)
    as (Hsorted & Hnd & Hlen & Hcount & Htop).
  destruct (rankedSteps failedResults) as [|[step count] rest].
  - destruct (failedStepNumbers failedResults) as [|k ks]; [reflexivity|].
    destruct (Htop k) as [Hten _]; [left | apply not_elem_of_nil | discriminate].
  - destruct (Hcount step count) as [Hc Hpos]; [left|].
    repeat split; auto. intros other.
    destruct (decide (other ∈ failedStepNumbers failedResults)) as [Hin|Hnin].
    + destruct (decide (other ∈ map fst ((step, count) :: rest))) as [Hl|Hnl].
      * apply list_elem_of_fmap in Hl as ([k c] & Hk & Hl). cbn in Hk. subst k.
        destruct (Hcount _ _ Hl) as [<- _].
        apply elem_of_cons in Hl as [Heq|Hl]; [inversion Heq; lia|].
        apply descending_strongly in Hsorted.
        apply StronglySorted_inv in Hsorted as [_ Hall].
        rewrite Forall_forall in Hall. exact (Hall _ Hl).
      * destruct (Htop other Hin Hnl) as [_ Hle].
        apply (Hle (step, count)). left.
    + destruct (occurrences other (failedStepNumbers failedResults)) eqn:Hocc;
        [lia|]. exfalso. apply Hnin, occurrences_positive. lia.
Qed.

Ltac distinct_advice H :=
  exfalso; revert H; clear;
  unfold stepAdvice, timeoutAdvice, selectorAdvice; cbn [String.append];
  discriminate.

(** The recommendation that names a step. *)
Lemma stepRecommendation (failedSteps : list (Js.Num * nat)) (s : string) :
  s ∈ match failedSteps with
      | [] => []
      | (step, _) :: _ =>
          ["Step " +:+ Js.numToString step
             +:+ " fails frequently - review test logic"]
      end
  <-> exists step count rest,
        failedSteps = (step, count) :: rest
        /\ s = "Step " +:+ Js.numToString step
                 +:+ " fails frequently - review test logic".
Proof.
  destruct failedSteps as [|[step count] rest].
  - split; [intros H; now apply elem_of_nil in H|].
    intros (? & ? & ? & ? & _). discriminate.
  - rewrite list_elem_of_singleton. split.
    + intros ->. now exists step, count, rest.
    + now intros (? & ? & ? & [= <- _ _] & ->).
Qed.

(** X14. [getFailureAnalysis] reports failures exactly when some result is
    FAILED; it then counts the failures as the summary does, recommends
    longer timeouts exactly when the error of a failed result mentions
    "timeout", recommends a review of the selectors exactly when the error of
    a failed result mentions "element not found" and not "timeout", and,
    the numbers of the failed steps being safe integers, names in its last
    recommendation a step that failed at least as often as every other step
    (no such recommendation when no step result is FAILED). *)
Theorem getFailureAnalysis_spec (h : TestResultHandler)
    (results : option (list TestResult.t)) (now : Z) (proc : Process) :
  let all := default (Handler.results h) results in
  let failed := withStatus FAILED all in
  let analysis := getFailureAnalysis h results in
  (hasFailures analysis = true
   <-> exists r, r ∈ all /\ TestResult.status r = FAILED)
  /\ forall total patterns steps elements recommendations,
       analysis = Failures total patterns steps elements recommendations ->
       total = TestSummary.failed (generateSummary h results now proc)
       /\ (timeoutAdvice ∈ recommendations
           <-> exists r e, r ∈ failed /\ errorOf r = Some e
                           /\ Js.includes "timeout" e = true)
       /\ (selectorAdvice ∈ recommendations
           <-> exists r e, r ∈ failed /\ errorOf r = Some e
                           /\ Js.includes "timeout" e = false
                           /\ Js.includes "element not found" e = true)
       /\ (safeSteps (failedStepNumbers failed) ->
           steps = listed (rankedSteps failed)
           /\ ((exists step, stepAdvice step ∈ recommendations)
               <-> failedStepNumbers failed <> [])
           /\ forall step,
                stepAdvice step ∈ recommendations ->
                step ∈ failedStepNumbers failed
                /\ forall other,
                     (occurrences other (failedStepNumbers failed)
                      <= occurrences step (failedStepNumbers failed))%nat).
Proof.
  cbv zeta. unfold getFailureAnalysis.
  set (all := default (Handler.results h) results).
  assert (Hfailed : forall r, r ∈ withStatus FAILED all
                              <-> r ∈ all /\ TestResult.status r = FAILED).
  { intros r. unfold withStatus. rewrite list_elem_of_filter.
    destruct (TestResult.status r); cbn; intuition congruence. }
  split.
  - destruct (withStatus FAILED all) as [|r rs] eqn:Hw; cbn [hasFailures].
    + split; [discriminate|]. intros (r & Hr). apply Hfailed in Hr.
      now apply elem_of_nil in Hr.
    + split; [|reflexivity]. intros _. exists r. apply Hfailed. left.
  - intros total patterns steps elements recommendations.
    unfold generateSummary. cbn [TestSummary.failed]. fold all.
    set (failed := withStatus FAILED all).
    destruct failed as [|r0 rs0] eqn:Hw; [discriminate|]. rewrite <- Hw.
    clear Hw. intros [= <- <- <- <- <-].
    pose proof (failedSteps_first failed) as Hfirst.
    unfold generateRecommendations.
    fold timeoutAdvice selectorAdvice.
    pose proof (stepRecommendation (analyzeFailedSteps failed)) as Hstep.
    set (stepRecs := match analyzeFailedSteps failed with
                     | [] => []
                     | (step, _) :: _ =>
                         ["Step " +:+ Js.numToString step
                            +:+ " fails frequently - review test logic"]
                     end) in *.
    assert (Hin : forall s,
               s ∈ (if bool_decide (Exists (fun p => fst p = "Timeout")
                                      (analyzeErrorPatterns failed))
                    then [timeoutAdvice] else [])
                   ++ (if bool_decide (Exists (fun p => fst p = "Element Not Found")
                                         (analyzeErrorPatterns failed))
                       then [selectorAdvice] else [])
                   ++ stepRecs
               <-> (s = timeoutAdvice
                    /\ Exists (fun p => fst p = "Timeout")
                         (analyzeErrorPatterns failed))
                   \/ (s = selectorAdvice
                       /\ Exists (fun p => fst p = "Element Not Found")
                            (analyzeErrorPatterns failed))
                   \/ s ∈ stepRecs).
    { intros s. rewrite !elem_of_app.
      repeat case_bool_decide; rewrite ?list_elem_of_singleton;
        split; intros Hs;
        repeat match goal with
          | H : _ \/ _ |- _ => destruct H
          | H : _ /\ _ |- _ => destruct H
          | H : _ ∈ [] |- _ => apply elem_of_nil in H; destruct H
          end; subst; try contradiction; auto. }
    split; [reflexivity|]. split; [|split].
    + split.
      * intros H. apply Hin in H as [[_ H]|[[H _]|H]].
        -- apply pattern_listed in H as (r & e & Hr & He & Hk).
           apply extractErrorType_Timeout in Hk. now exists r, e.
        -- discriminate.
        -- apply Hstep in H as (step & _ & _ & _ & H). distinct_advice H.
      * intros (r & e & Hr & He & Hk). apply Hin. left. split; [reflexivity|].
        apply pattern_listed. exists r, e. repeat split; auto.
        now apply extractErrorType_Timeout.
    + split.
      * intros H. apply Hin in H as [[H _]|[[_ H]|H]].
        -- discriminate.
        -- apply pattern_listed in H as (r & e & Hr & He & Hk).
           apply extractErrorType_Element in Hk as [? ?]. now exists r, e.
        -- apply Hstep in H as (step & _ & _ & _ & H). distinct_advice H.
      * intros (r & e & Hr & He & Hk1 & Hk2). apply Hin. right. left.
        split; [reflexivity|].
        apply pattern_listed. exists r, e. repeat split; auto.
        now apply extractErrorType_Element.
    + intros Hsafe.
      pose proof (analyzeFailedSteps_listed failed Hsafe) as Hlisted.
      split; [exact Hlisted|].
      assert (Hnamed : forall step,
                 stepAdvice step ∈ (if bool_decide (Exists (fun p => fst p = "Timeout")
                                                      (analyzeErrorPatterns failed))
                                    then [timeoutAdvice] else [])
                                   ++ (if bool_decide
                                            (Exists (fun p => fst p = "Element Not Found")
                                               (analyzeErrorPatterns failed))
                                       then [selectorAdvice] else [])
                                   ++ stepRecs
                 <-> exists count rest,
                       rankedSteps failed = (step, count) :: rest).
      { intros step. rewrite Hin. split.
        - intros [[H _]|[[H _]|H]]; [distinct_advice H|distinct_advice H|].
          apply Hstep in H as (num & count & rest & Heq & H).
          rewrite Hlisted in Heq. unfold listed in Heq.
          destruct (rankedSteps failed) as [|[step' count'] rest'];
            [discriminate|].
          cbn in Heq. injection Heq as <- <- <-.
          apply stepAdvice_inj in H. subst step'. now exists count', rest'.
        - intros (count & rest & Heq). right. right. apply Hstep.
          rewrite Hlisted, Heq. cbn. now eexists _, _, _. }
      split; [split|].
      * intros (step & H) Hnone. apply Hnamed in H as (count & rest & Heq).
        rewrite Heq in Hfirst. destruct Hfirst as (Hc & Hpos & _).
        rewrite Hnone in Hc. cbn in Hc. lia.
      * intros Hsome. destruct (rankedSteps failed) as [|[step count] rest] eqn:Heq.
        -- contradiction.
        -- exists step. apply Hnamed. now exists count, rest.
      * intros step H. apply Hnamed in H as (count & rest & Heq).
        rewrite Heq in Hfirst. destruct Hfirst as (Hc & Hpos & Hmax).
        split; [apply occurrences_positive; lia|].
        intros other. rewrite <- Hc. apply Hmax.
Qed.

End HandlerMore.
(** ** More on the escaping of the JUnit document *)

Module JunitMore.
Import Handler JunitSpec JunitMoreSpec StringFacts JunitFacts.

(** What [escapeXml] makes of a character: the entity of a special
    character, the character itself otherwise. *)
Lemma escapeChar_cases (c : ascii) :
  (isSpecial c = false /\ escapeChar c = String c EmptyString)
  \/ (isSpecial c = true
      /\ ((c = "&"%char /\ escapeChar c = "&amp;")
          \/ (c = "<"%char /\ escapeChar c = "&lt;")
          \/ (c = ">"%char /\ escapeChar c = "&gt;")
          \/ (c = ascii_of_nat 34 /\ escapeChar c = "&quot;")
          \/ (c = "'"%char /\ escapeChar c = "&apos;"))).
Proof.
  unfold isSpecial, escapeChar.
  destruct (Ascii.eqb_spec c "&") as [->|_]; [right; cbn; auto|].
  destruct (Ascii.eqb_spec c "<") as [->|_]; [right; cbn; auto|].
  destruct (Ascii.eqb_spec c ">") as [->|_]; [right; cbn; auto 6|].
  destruct (Ascii.eqb_spec c (ascii_of_nat 34)) as [->|_]; [right; cbn; auto 7|].
  destruct (Ascii.eqb_spec c "'") as [->|_]; [right; cbn; auto 8|].
  left. auto.
Qed.

Lemma escapeXml_longer (s : string) :
  (String.length s <= String.length (escapeXml s))%nat.
Proof.
  induction s as [|c s IH]; [reflexivity|].
  rewrite escapeXml_cons, length_append.
  destruct (escapeChar_cases c) as [[_ ->]|[_ H]]; [cbn; lia|].
  destruct H as [[_ ->]|[[_ ->]|[[_ ->]|[[_ ->]|[_ ->]]]]]; cbn; lia.
Qed.

(** X15. A text without any of the five special characters is left as it is
    by [escapeXml], and only such a text is; whatever the text, the escaped
    text holds no [<], [>], double or single quote. *)
Theorem escapeXml_plain (s : string) :
  (escapeXml s = s <-> Js.allChars (fun c => negb (isSpecial c)) s = true)
  /\ Js.allChars (fun c => negb (isMarkup c)) (escapeXml s) = true.
Proof.
  split; [|apply escapeXml_no_markup].
  induction s as [|c s IH]; [now split|].
  rewrite escapeXml_cons. cbn [Js.allChars].
  pose proof (escapeXml_longer s) as Hlen.
  destruct (escapeChar_cases c) as [[Hc ->]|[Hc H]]; rewrite Hc; cbn.
  - rewrite <- IH. split; [now intros [= ->] | now intros ->].
  - split; [|discriminate]. intros Heq. exfalso.
    apply (f_equal String.length) in Heq.
    destruct H as [[_ He]|[[_ He]|[[_ He]|[[_ He]|[_ He]]]]];
      rewrite He in Heq; cbn in Heq; lia.
Qed.

(** X16. [escapeXml] loses nothing: two texts with the same escaped form are
    the same text. *)
Theorem escapeXml_injective (s t : string) :
  escapeXml s = escapeXml t -> s = t.
Proof.
  revert t. induction s as [|c s IH]; intros [|d t].
  - reflexivity.
  - rewrite escapeXml_cons.
    destruct (escapeChar_cases d) as [[_ ->]|[_ H]]; [discriminate|].
    destruct H as [[_ ->]|[[_ ->]|[[_ ->]|[[_ ->]|[_ ->]]]]]; discriminate.
  - rewrite escapeXml_cons.
    destruct (escapeChar_cases c) as [[_ ->]|[_ H]]; [discriminate|].
    destruct H as [[_ ->]|[[_ ->]|[[_ ->]|[[_ ->]|[_ ->]]]]]; discriminate.
  - rewrite !escapeXml_cons.
    destruct (escapeChar_cases c) as [[Hc ->]|[_ Hc]],
             (escapeChar_cases d) as [[Hd ->]|[_ Hd]].
    + cbn. intros [= -> H]. f_equal. now apply IH.
    + destruct Hd as [[_ ->]|[[_ ->]|[[_ ->]|[[_ ->]|[_ ->]]]]];
        cbn; intros [= -> _]; discriminate.
    + destruct Hc as [[_ ->]|[[_ ->]|[[_ ->]|[[_ ->]|[_ ->]]]]];
        cbn; intros [= <- _]; discriminate.
    + destruct Hc as [[-> ->]|[[-> ->]|[[-> ->]|[[-> ->]|[-> ->]]]]],
               Hd as [[-> ->]|[[-> ->]|[[-> ->]|[[-> ->]|[-> ->]]]]];
        cbn; intros H; try discriminate H;
        injection H as H; f_equal; now apply IH.
Qed.

End JunitMore.
(** ** More on [retryOperation] *)

Module RetryMore.
Import Retry RetrySpec RetryMoreSpec RetryFacts.

Section RetryOperation.
Context {World T : Type}.
Variable operation : World -> Completion T * World.
Variable sleep : Z -> World -> World.

Lemma slept_app (a b : list (Event T)) : slept (a ++ b) = slept a + slept b.
Proof. unfold slept. induction a as [|x a IH]; cbn; [reflexivity | rewrite IH; lia]. Qed.

Lemma invocations_retryTrace (retryConfig : RetryConfig)
    (outcomes : list (Completion T)) :
  forall attempt,
    invocations (retryTrace retryConfig attempt outcomes) = length outcomes.
Proof.
  unfold invocations.
  induction outcomes as [|o [|o' rest] IH]; intros attempt; [reflexivity..|].
  cbn [retryTrace List.filter invoked length]. f_equal. apply IH.
Qed.

(** The pauses of a run of [n + 1] invocations that starts at attempt
    [attempt]. *)
Lemma slept_retryTrace (retryConfig : RetryConfig)
    (outcomes : list (Completion T)) :
  forall attempt,
    0 <= attempt -> outcomes <> [] ->
    slept (retryTrace retryConfig attempt outcomes)
    = match backoff retryConfig with
      | exponential =>
          delay retryConfig
          * (2 ^ (attempt + Z.of_nat (length outcomes) - 1) - 2 ^ attempt)
      | linear => delay retryConfig * (Z.of_nat (length outcomes) - 1)
      end.
Proof.
  induction outcomes as [|o [|o' rest] IH]; intros attempt Hatt Hne;
    [contradiction| |].
  - unfold slept. cbn [retryTrace foldr pause length].
    replace (attempt + Z.of_nat 1 - 1) with attempt by lia.
    destruct (backoff retryConfig); [lia | rewrite Z.sub_diag; lia].
  - change (retryTrace retryConfig attempt (o :: o' :: rest))
      with (Invoked o
            :: Warned (warning attempt (waits retryConfig attempt))
            :: Slept (waits retryConfig attempt)
            :: retryTrace retryConfig (attempt + 1) (o' :: rest)).
    unfold slept. cbn [foldr pause]. fold (@slept T).
    change (foldr (fun event sum => pause event + sum) 0
              (retryTrace retryConfig (attempt + 1) (o' :: rest)))
      with (slept (retryTrace retryConfig (attempt + 1) (o' :: rest))).
    rewrite IH by (lia || discriminate).
    unfold waits. destruct (backoff retryConfig).
    + cbn [length]. lia.
    + replace (attempt + Z.of_nat (length (o :: o' :: rest)) - 1)
        with (attempt + 1 + Z.of_nat (length (o' :: rest)) - 1)
        by (cbn [length]; lia).
      rewrite (Z.pow_add_r 2 attempt 1) by lia.
      change (2 ^ 1) with 2. ring.
Qed.

(** X17. The pauses [retryOperation] makes add up to [delay] times the number
    of failed attempts that were retried (linear) or to
    [delay * (2^failures - 1)] (exponential); when it gives up it has made
    [maxRetries + 1] invocations and paused for [delay * maxRetries], or
    [delay * (2^maxRetries - 1)]. With a negative [maxRetries] it throws
    [undefined] without invoking the operation. *)
Theorem retryOperation_pauses (retryConfig : RetryConfig) (r : Run World T) :
  (0 <= maxRetries retryConfig ->
   exists new,
     events (snd (retryOperation operation sleep retryConfig r))
     = events r ++ new
     /\ (0 < invocations new)%nat
     /\ slept new = totalPause retryConfig (Z.of_nat (invocations new) - 1)
     /\ (Js.threw (fst (retryOperation operation sleep retryConfig r)) ->
         Z.of_nat (invocations new) = maxRetries retryConfig + 1
         /\ slept new = totalPause retryConfig (maxRetries retryConfig)))
  /\ (maxRetries retryConfig < 0 ->
      retryOperation operation sleep retryConfig r
      = (Throw (Js.NonError Js.Undefined), r)).
Proof.
  split.
  - intros Hmax. unfold retryOperation.
    destruct (retryLoop_spec operation sleep retryConfig
                (Z.to_nat (maxRetries retryConfig + 1)) 0 None r)
      as [outcomes H]; [lia | lia |].
    destruct (retryLoop operation sleep retryConfig _ 0 None r) as [result r'].
    destruct H as (_ & Hev & Hlen & _ & _ & Hall).
    exists (retryTrace retryConfig 0 outcomes). cbn [fst snd].
    assert (Hne : outcomes <> []) by (intros ->; cbn in Hlen; lia).
    assert (Hslept : slept (retryTrace retryConfig 0 outcomes)
                     = totalPause retryConfig (Z.of_nat (length outcomes) - 1)).
    { rewrite slept_retryTrace by (lia || assumption). unfold totalPause.
      destruct (backoff retryConfig); [reflexivity|].
      change (2 ^ 0) with 1. f_equal. }
    rewrite invocations_retryTrace. repeat split; auto; try lia.
    + rewrite (Hall H). lia.
    + rewrite Hslept, (Hall H). f_equal. lia.
  - intros Hneg. unfold retryOperation.
    replace (Z.to_nat (maxRetries retryConfig + 1)) with 0%nat by lia.
    reflexivity.
Qed.

End RetryOperation.

End RetryMore.
(** ** The engine *)

Module EngineFacts.
Import Handler HandlerSamples Analysis Executor ExecutorSpec Engine.


Section Facts.
Context {World : Type}.
Variable rt : Runtime World.
Variable listeners : Listeners.


(** When no listener throws for the result, the engine's [processResult]
    is the one of the handler. *)
Lemma processResult_quiet (result : TestResult.t) (engine : AutomationEngine World) :
  thrownFor listeners (events (Engine.resultHandler engine)) result = None ->
  Engine.processResult rt listeners result engine
  = let (t, w) := dateNow rt (world (executor engine)) in
    let (enhanced, h) :=
      Handler.processResult (Engine.resultHandler engine) result t (process rt w) in
    (Normal enhanced,
     {| executor := withWorld w (executor engine); Engine.resultHandler := h |}).
Proof.
  unfold Engine.processResult, Handler.processResult, thrownFor, emit.
  cbn [events results Handler.startTime notified].
  destruct (dateNow rt (world (executor engine))) as [t w].
  destruct (onTestComplete (events (Engine.resultHandler engine)));
    destruct (testComplete listeners (TestResult.testCaseId result) result);
    cbn [events results Handler.startTime notified fst snd];
    destruct (Status_eqb (TestResult.status result) FAILED
              && onTestFailure (events (Engine.resultHandler engine)));
    destruct (testFailure listeners (TestResult.testCaseId result)
                (Js.orElse (TestResult.error result) "Test failed"));
    cbn [events results Handler.startTime notified fst snd];
    intros H; try discriminate H; reflexivity.
Qed.





End Facts.
End EngineFacts.
(** ** [initialize] *)

Module InitializeFacts.
Import Executor Initialize.

Section Facts.
Context {World : Type}.
Variable start : Launch -> World -> Completion unit * World.

(** X20. [initialize] asked for a browser that is none of the three throws
    before anything is started. Otherwise it makes the four calls of the
    start in order and stops at the first that throws: [n] calls having
    returned, the browser is set after the first, the context after the
    second, the page after the third, and [initialize] returns exactly when
    all four have returned; a handle whose call was not reached or threw is
    left as it was. *)
Theorem initialize_spec (config : BrowserConfig) (s : Session World) :
  (browserTypeOf config ∉ browserTypes ->
   initialize start config s
   = (Throw (Js.Error ("Unsupported browser type: " +:+ browserTypeOf config)), s))
  /\ (browserTypeOf config ∈ browserTypes ->
      exists n : nat,
        (n <= 4)%nat
        /\ (fst (initialize start config s) = Normal tt <-> n = 4%nat)
        /\ started (snd (initialize start config s))
           = started s ++ take (if decide (n = 4%nat) then 4 else S n) (script config)
        /\ Executor.browser (executor (snd (initialize start config s)))
           = (if decide (1 <= n)%nat then Some theBrowser
              else Executor.browser (executor s))
        /\ context (executor (snd (initialize start config s)))
           = (if decide (2 <= n)%nat then Some theContext
              else context (executor s))
        /\ page (executor (snd (initialize start config s)))
           = (if decide (3 <= n)%nat then Some thePage
              else page (executor s))).
Proof.
  unfold initialize. split; intros Htype.
  - now rewrite bool_decide_eq_false_2.
  - rewrite bool_decide_eq_true_2 by assumption. unfold launch, script.
    cbn [executor started world withWorld setBrowser].
    destruct (start (LaunchBrowser _ _ _) _) as [[[]|err1] w1];
      [|exists 0%nat; cbn; repeat split; try (lia || discriminate)].
    cbn [executor started world withWorld withHandles setContext
           Executor.browser context page].
    destruct (start (NewContext _) _) as [[[]|err2] w2];
      [|exists 1%nat; cbn; rewrite <- ?app_assoc;
        repeat split; try (lia || discriminate)].
    cbn [executor started world withWorld withHandles setPage
           Executor.browser context page].
    destruct (start NewPage _) as [[[]|err3] w3];
      [|exists 2%nat; cbn; rewrite <- ?app_assoc;
        repeat split; try (lia || discriminate)].
    cbn [executor started world withWorld withHandles
           Executor.browser context page].
    destruct (start (SetDefaultTimeout _) _) as [[[]|err4] w4];
      [exists 4%nat | exists 3%nat]; cbn; rewrite <- ?app_assoc;
      repeat split; try (lia || discriminate).
Qed.

End Facts.
End InitializeFacts.
(** ** The browser utilities *)

Module UtilsFacts.
Import Retry Utils.

(** What [retryLoop] returns is what the last invocation of the operation
    returned, in the world it left. *)
Lemma retryLoop_returned {World T} (operation : World -> Completion T * World)
    (sleep : Z -> World -> World) (retryConfig : RetryConfig) (remaining : nat) :
  forall (attempt : Z) (lastError : option Js.Thrown) (r r' : Run World T) (v : T),
    retryLoop operation sleep retryConfig remaining attempt lastError r
    = (Normal v, r') ->
    exists w, operation w = (Normal v, Retry.world r').
Proof.
  induction remaining as [|n IH]; intros attempt lastError r r' v H;
    cbn [retryLoop] in H; [discriminate|].
  destruct (operation (Retry.world r)) as [[v'|err] w1] eqn:Hop.
  - inversion H; subst. exists (Retry.world r). exact Hop.
  - destruct (attempt =? maxRetries retryConfig); [discriminate|].
    exact (IH _ _ _ _ _ H).
Qed.

Section Facts.
Context {World : Type}.
Variable page : Page World.
Variable config : UtilsConfig.

Lemma retryOperation_returned {T} (operation : U World T) (s s' : Session World)
    (v : T) :
  retryOperation page config operation s = (Normal v, s') ->
  exists s0, operation s0 = (Normal v, s').
Proof.
  unfold retryOperation. destruct (retryConfig config) as [rc|]; [|discriminate].
  unfold Retry.retryOperation.
  destruct (retryLoop operation (pause page) rc _ 0 None _) as [r retried] eqn:Hloop.
  intros [= -> <-]. exact (retryLoop_returned _ _ _ _ _ _ _ _ _ Hloop).
Qed.

(** A utility that waits for the element and then retries an operation
    returns what an invocation of the operation returned. *)
Lemma waited_returned {T} (selector : string) (options : ElementOptions)
    (operation : U World T) (s s' : Session World) (v : T) :
  bind (waitForElement page config selector options)
    (fun _ => retryOperation page config operation) s = (Normal v, s') ->
  exists s0, operation s0 = (Normal v, s').
Proof.
  unfold bind. destruct (waitForElement page config selector options s)
    as [[[]|err] s1]; [|discriminate].
  apply retryOperation_returned.
Qed.

(** X21. [smartFill] returns only after an attempt in which the field was
    cleared and filled and the value read back was the text: these are the
    last four calls it made. *)
Theorem smartFill_validated (selector text : string) (options : ElementOptions)
    (s s' : Session World) :
  smartFill page config selector text options s = (Normal tt, s') ->
  exists before, log s' = before ++ filled selector text.
Proof.
  intros H. apply waited_returned in H as (s0 & H).
  unfold fillOnce, bind, call, callInputValue, logged in H.
  destruct (perform page (Clear selector) (world s0)) as [[[]|e1] w1];
    [|discriminate]. cbn [world log] in H.
  destruct (perform page (WaitForTimeout 100) w1) as [[[]|e2] w2];
    [|discriminate]. cbn [world log] in H.
  destruct (perform page (Fill selector text) w2) as [[[]|e3] w3];
    [|discriminate]. cbn [world log] in H.
  destruct (inputValue page selector w3) as [[actual|e4] w4]; [|discriminate].
  destruct (String.eqb_spec actual text) as [->|_]; [|discriminate].
  inversion H; subst. exists (log s0). cbn [log]. unfold filled.
  now rewrite <- !app_assoc.
Qed.

(** X22. [smartClick] returns only after one of its three clicks returned, the
    click as asked, the forced click or the click made by script: it is the
    last call made. *)
Theorem smartClick_clicked (selector : string) (options : ElementOptions)
    (s s' : Session World) :
  smartClick page config selector options s = (Normal tt, s') ->
  exists before op,
    log s' = before ++ [Called op (Normal None)]
    /\ op ∈ clicks config selector options.
Proof.
  intros H. apply waited_returned in H as (s0 & H).
  unfold clickOnce, jsClick, bind, try, call, warn, logged, ret, clicks in *.
  destruct (perform page (Click selector _ (force options) _) (world s0))
    as [[[]|e1] w1].
  - inversion H; subst. eexists _, _. split; [reflexivity|]. left.
  - cbn [world log] in H.
    destruct (perform page (ScrollIntoViewIfNeeded selector) w1) as [[[]|e2] w2];
      [|discriminate]. cbn [world log] in H.
    destruct (perform page (WaitForTimeout 500) w2) as [[[]|e3] w3];
      [|discriminate]. cbn [world log] in H.
    destruct (perform page (Click selector None (Some true) None) w3)
      as [[[]|e4] w4]; cbn [world log] in H.
    + inversion H; subst. eexists _, _. split; [reflexivity|]. right. left.
    + destruct (perform page (EvaluateClick selector) w4) as [[[]|e5] w5];
        [|discriminate].
      inversion H; subst. eexists _, _. split; [reflexivity|]. right. right. left.
Qed.

(** X23. The text [getElementText] returns has no white space at either end;
    unless it is empty it is, trimmed, a text one of the three reads
    returned. *)
Theorem getElementText_trimmed (selector : string) (options : ElementOptions)
    (s s' : Session World) (text : string) :
  getElementText page config selector options s = (Normal text, s') ->
  Executor.trim text = text
  /\ (text = ""
      \/ exists op raw,
           Called op (Normal (Some raw)) ∈ log s'
           /\ op ∈ reads selector
           /\ text = Executor.trim raw).
Proof.
  intros H. apply waited_returned in H as (s0 & H).
  assert (Hor : forall t : option string,
             Js.orElse (Executor.trim <$> t) ""
             = match t with Some raw => Executor.trim raw | None => "" end).
  { intros [raw|]; [|reflexivity]. cbn. now destruct (Executor.trim raw). }
  unfold readText, bind, try, callTextContent, callInnerText, callInputValue,
    logged, ret, reads in H.
  destruct (textContent page selector (world s0)) as [[t1|e1] w1];
    cbn [world log] in H; [|discriminate].
  destruct (blank t1) eqn:Hb1; cbn [world log] in H.
  - destruct (innerText page selector w1) as [[t2|e2] w2];
      cbn [world log] in H; [|discriminate].
    destruct (blank (Some t2)) eqn:Hb2; cbn [world log] in H.
    + destruct (inputValue page selector w2) as [[t3|e3] w3];
        cbn [world log] in H; rewrite Hor in H; inversion H; subst; cbn [log].
      * split; [apply ExecutorMore.trim_idempotent|]. right.
        exists (InputValue selector), t3. repeat split.
        -- rewrite !elem_of_app. right. left.
        -- right. right. left.
      * split; [reflexivity | now left].
    + rewrite Hor in H. inversion H; subst; cbn [log].
      split; [apply ExecutorMore.trim_idempotent|]. right.
      exists (InnerText selector), t2. repeat split.
      * rewrite !elem_of_app. right. left.
      * right. left.
  - destruct t1 as [raw|]; [|discriminate]. cbn [world log id] in H.
    rewrite Hb1 in H. cbn [world log] in H. rewrite Hor in H.
    inversion H; subst; cbn [log].
    split; [apply ExecutorMore.trim_idempotent|]. right.
    exists (TextContent selector), raw. repeat split.
    + rewrite !elem_of_app. right. left.
    + left.
Qed.

End Facts.
End UtilsFacts.
(** ** More of the code at work *)

Module MoreExamples.
Import Handler HandlerSamples Analysis Executor ExecutorSpec Engine Demo MoreSamples.

(** The analysis of the five sample results. *)
Example nightly_analysis :
  getFailureAnalysis freshHandler (Some nightly)
  = Failures 4
      [("Network Error", 2%nat); ("Timeout", 1%nat)]
      [(Js.Finite 3, 2%nat); (Js.Finite 7, 1%nat); (Js.Finite (-2), 1%nat)]
      []
      ["Consider increasing timeout values for slow-loading elements";
       "Step 3 fails frequently - review test logic"].
Proof. vm_compute. reflexivity. Qed.

(** The text of the element of the sample page is [Welcome]: the assertion
    that expects it passes, the one that expects it after a space fails. *)
Lemma performAssertion_text_witness :
  (Js.threw (fst (performAssertion runtime (step 1 "assert" (Some "h1") "Welcome") ∅
                    (initialized (blank false))))
   <-> trim <$> Some "Welcome" <> Some "Welcome")
  /\ Js.threw (fst (performAssertion runtime
                      (step 1 "assert" (Some "h1") " Welcome") ∅
                      (initialized (blank false)))).
Proof.
  split.
  - refine (proj1 (ExecutorMore.performAssertion_text runtime
                     (step 1 "assert" (Some "h1") "Welcome") ∅
                     (initialized (blank false)) "h1" (Some "Welcome")
                     (later (blank false)) (later (later (blank false)))
                     eq_refl eq_refl _ _ eq_refl eq_refl));
      vm_compute; discriminate.
  - refine (proj2 (ExecutorMore.performAssertion_text runtime
                     (step 1 "assert" (Some "h1") " Welcome") ∅
                     (initialized (blank false)) "h1" (Some "Welcome")
                     (later (blank false)) (later (later (blank false)))
                     eq_refl eq_refl _ _ eq_refl eq_refl) _);
      vm_compute; discriminate.
Defined.

(** A click without a selector and a drag, which is no action of the
    executor, are reported as failed steps. *)
Lemma executeStep_rejected_witness :
  (exists stepResult e',
      executeStep runtime (step 2 "click" None "") ∅ (initialized (blank false))
      = (Normal stepResult, e')
      /\ StepResult.status stepResult = FAILED
      /\ StepResult.error stepResult
         = Some "Element selector required for click action"
      /\ calls e' = [])
  /\ exists stepResult e',
      executeStep runtime (step 3 "drag" (Some "#item") "") ∅
        (initialized (blank false))
      = (Normal stepResult, e')
      /\ StepResult.status stepResult = FAILED
      /\ StepResult.error stepResult = Some "Unsupported action: drag"
      /\ calls e' = [].
Proof.
  split.
  - destruct (ExecutorMore.executeStep_rejected runtime (step 2 "click" None "") ∅
                (initialized (blank false)) eq_refl)
      as (stepResult & e' & Hrun & _ & Hstatus & Herror & Hcalls).
    { right. split; [|reflexivity].
      apply (bool_decide_unpack _). vm_compute. exact I. }
    exists stepResult, e'.
    split; [exact Hrun|]. split; [exact Hstatus|]. split; [exact Herror|].
    exact Hcalls.
  - destruct (ExecutorMore.executeStep_rejected runtime
                (step 3 "drag" (Some "#item") "") ∅
                (initialized (blank false)) eq_refl)
      as (stepResult & e' & Hrun & _ & Hstatus & Herror & Hcalls).
    { left. apply (bool_decide_unpack _). vm_compute. exact I. }
    exists stepResult, e'.
    split; [exact Hrun|]. split; [exact Hstatus|]. split; [exact Herror|].
    exact Hcalls.
Defined.

(** Asked not to capture, [captureArtifacts] leaves the executor alone; on
    the sample page it takes the screenshot it reports. *)
Lemma captureArtifacts_spec_witness :
  (exists artifacts,
      captureArtifacts runtime "login" (Some false) (initialized (blank false))
      = (Normal artifacts, initialized (blank false))
      /\ artifacts = Artifacts.empty)
  /\ exists artifacts e' path later,
      captureArtifacts runtime "login" None (initialized (blank false))
      = (Normal artifacts, e')
      /\ Artifacts.screenshot artifacts = Some path
      /\ calls e' = Screenshot path true :: later.
Proof.
  split.
  - destruct (ExecutorMore.captureArtifacts_spec runtime "login" (Some false)
                (initialized (blank false)))
      as (artifacts & e' & Hrun & Hnone & _).
    destruct (Hnone (or_introl eq_refl)) as [Hempty He'].
    exists artifacts. split; [|exact Hempty].
    rewrite He' in Hrun. exact Hrun.
  - destruct (ExecutorMore.captureArtifacts_spec runtime "login" None
                (initialized (blank false)))
      as (artifacts & e' & Hrun & _ & Hshot & _).
    assert (Hpath : Artifacts.screenshot artifacts
                    = Some "./test-results/screenshots/login-0.png").
    { assert (Hcomputed :
                Js.returned (fst (captureArtifacts runtime "login" None
                                    (initialized (blank false))))
                ≫= Artifacts.screenshot
                = Some "./test-results/screenshots/login-0.png")
        by (vm_compute; reflexivity).
      rewrite Hrun in Hcomputed. exact Hcomputed. }
    destruct (Hshot _ Hpath) as (later & Hcalls).
    exists artifacts, e', "./test-results/screenshots/login-0.png", later.
    split; [exact Hrun|]. split; [exact Hpath|]. exact Hcalls.
Defined.

(** Asked to stop on failure, the suite of the sample stops at its first
    case, which fails. *)
Lemma executeTestSuite_initialized_witness :
  page (initialized (blank false)) = Some thePage
  /\ forall results e',
      Executor.executeTestSuite runtime [broken; search] options
        (initialized (blank false))
      = (Normal results, e') ->
      Forall (fun r => TestResult.status r <> FAILED) (removelast results)
      /\ (map TestResult.testCaseId results = map TestCase.id [broken; search]
          \/ exists r, last results = Some r /\ TestResult.status r = FAILED).
Proof.
  split; [reflexivity|]. intros results e' Hrun.
  exact (proj2 (proj2 (proj2 (ExecutorMore.executeTestSuite_initialized runtime
                                [broken; search] options
                                (initialized (blank false)) eq_refl)
                         results e' Hrun))
           eq_refl).
Defined.

(** The operation that fails twice is invoked three times, after pauses of
    1000 and 2000 milliseconds. *)
Lemma retryOperation_pauses_witness :
  0 <= Retry.maxRetries Retry.defaultRetryConfig
  /\ exists new,
      Retry.events (snd (Retry.retryOperation Retry.flaky Retry.noSleep
                           Retry.defaultRetryConfig
                           {| Retry.world := 0%nat; Retry.events := [] |}))
      = [] ++ new
      /\ RetryMoreSpec.slept new
         = RetryMoreSpec.totalPause Retry.defaultRetryConfig
             (Z.of_nat (RetryMoreSpec.invocations new) - 1).
Proof.
  split; [vm_compute; discriminate|].
  destruct (proj1 (RetryMore.retryOperation_pauses Retry.flaky Retry.noSleep
                     Retry.defaultRetryConfig
                     {| Retry.world := 0%nat; Retry.events := [] |})
              ltac:(vm_compute; discriminate))
    as (new & Hev & _ & Hslept & _).
  exists new. split; [exact Hev | exact Hslept].
Defined.

Lemma escapeXml_injective_witness :
  escapeXml "a<b" = escapeXml "a<b" /\ "a<b" = "a<b".
Proof.
  split; [reflexivity|].
  exact (JunitMore.escapeXml_injective "a<b" "a<b" eq_refl).
Defined.

(** Run with the options [{}], the scenario passes and is captured. *)
Lemma executeTestCase_captures_witness :
  page (initialized (blank false)) = Some thePage
  /\ exists result e' path,
      executeTestCase runtime search bare (initialized (blank false))
      = (Normal result, e')
      /\ TestResult.status result = PASSED
      /\ Screenshot path true ∈ calls e'.
Proof.
  split; [reflexivity|].
  destruct (ExecutorMore.executeTestCase_captures runtime search bare
              (initialized (blank false)) eq_refl)
    as (result & e' & Hrun & _ & Hshot).
  assert (Hoption : ExecutionOptions.captureOnSuccess bare <> Some false)
    by (cbn; discriminate).
  destruct (Hshot (or_intror Hoption)) as [path Hpath].
  exists result, e', path. split; [exact Hrun|]. split; [|exact Hpath].
  assert (Hstatus : TestResult.status <$>
                      Js.returned (fst (executeTestCase runtime search bare
                                          (initialized (blank false))))
                    = Some PASSED) by (vm_compute; reflexivity).
  rewrite Hrun in Hstatus. exact (f_equal (default PASSED) Hstatus).
Defined.

(** The executor's own handler is given the result of the sample once, as
    it was built. *)
Lemma executeTestCase_stores_witness :
  page (initialized (blank false)) = Some thePage
  /\ exists result stored e',
      executeTestCase runtime search options (initialized (blank false))
      = (Normal result, e')
      /\ results (Executor.resultHandler e') = [stored]
      /\ TestResult.status stored = TestResult.status result
      /\ TestResult.browserInfo stored = None
      /\ TestResult.browserInfo result <> None.
Proof.
  split; [reflexivity|].
  destruct (ExecutorMore.executeTestCase_stores runtime search options
              (initialized (blank false)) eq_refl)
    as (result & stored & e' & Hrun & Hres & _ & _ & _ & Hst & _ & _ & _ & _ & Hb & Hb').
  exists result, stored, e'.
  split; [exact Hrun|]. split; [exact Hres|]. split; [exact Hst|].
  split; [exact Hb | exact Hb'].
Defined.

Lemma getFailureAnalysis_spec_witness :
  exists total patterns steps elements recommendations,
    getFailureAnalysis freshHandler (Some nightly)
    = Failures total patterns steps elements recommendations
    /\ total = TestSummary.failed
                 (generateSummary freshHandler (Some nightly) 0 noEnv)
    /\ (timeoutAdvice ∈ recommendations
        <-> exists r e, r ∈ withStatus FAILED nightly /\ errorOf r = Some e
                        /\ Js.includes "timeout" e = true)
    /\ steps = listed (rankedSteps (withStatus FAILED nightly))
    /\ ((exists step, stepAdvice step ∈ recommendations)
        <-> failedStepNumbers (withStatus FAILED nightly) <> []).
Proof.
  destruct (HandlerMore.getFailureAnalysis_spec freshHandler (Some nightly) 0 noEnv)
    as [_ Hspec].
  eexists _, _, _, _, _. split; [reflexivity|].
  destruct (Hspec _ _ _ _ _ eq_refl) as (Htotal & Htimeout & _ & Hsteps).
  assert (Hnumbers : failedStepNumbers (withStatus FAILED nightly) = [3; 7; 3; -2])
    by (vm_compute; reflexivity).
  assert (Hsafe : safeSteps (failedStepNumbers (withStatus FAILED nightly))).
  { rewrite Hnumbers. unfold safeSteps.
    repeat (constructor; [reflexivity|]). constructor. }
  destruct (Hsteps Hsafe) as (Hlisted & Hnamed & _).
  split; [exact Htotal|]. split; [exact Htimeout|].
  split; [exact Hlisted | exact Hnamed].
Defined.

(** The failed steps of the sample results have small numbers: they are
    listed as they are. *)
Lemma analyzeFailedSteps_spec_witness :
  safeSteps (failedStepNumbers nightly)
  /\ exists steps,
      analyzeFailedSteps nightly = listed steps
      /\ descending steps
      /\ NoDup (map fst steps)
      /\ (length steps <= 10)%nat.
Proof.
  assert (Hnumbers : failedStepNumbers nightly = [3; 7; 3; -2])
    by (vm_compute; reflexivity).
  assert (Hsafe : safeSteps (failedStepNumbers nightly)).
  { rewrite Hnumbers. unfold safeSteps.
    repeat (constructor; [reflexivity|]). constructor. }
  split; [exact Hsafe|].
  destruct (HandlerMore.analyzeFailedSteps_spec nightly Hsafe)
    as (steps & Heq & Hdesc & Hnd & Hlen & _).
  exists steps. split; [exact Heq|]. split; [exact Hdesc|].
  split; [exact Hnd | exact Hlen].
Defined.

(** The engine runs the failing case of the sample: the result is recorded
    and the listeners are told of the failure. *)
Example engine_reports_failure :
  let run := executeTest runtime silentListeners broken None
               (engine (blank false)) in
  TestResult.status <$> Js.returned (fst run) = Some FAILED
  /\ map TestResult.testCaseId (results (Engine.resultHandler (snd run)))
     = ["broken"]
  /\ match notified (Engine.resultHandler (snd run)) with
     | [TestComplete id _; TestFailure id' message] =>
         id = "broken" /\ id' = "broken"
         /\ message = "page.click: Timeout 30000ms exceeded."
     | _ => False
     end.
Proof. vm_compute. repeat split; reflexivity. Qed.

(** With a listener for failures that throws, the call throws what the
    listener throws; the result is recorded all the same, and the suite
    stops recording at the first failed result. *)
Example engine_listener_throws :
  let run := executeTest runtime touchy broken None (engine (blank false)) in
  let suite := Engine.executeTestSuite runtime touchy [search; broken; search]
                 None (engine (blank false)) in
  fst run = Throw (Js.Error "alert: page.click: Timeout 30000ms exceeded.")
  /\ map TestResult.testCaseId (results (Engine.resultHandler (snd run)))
     = ["broken"]
  /\ fst suite = Throw (Js.Error "alert: page.click: Timeout 30000ms exceeded.")
  /\ map TestResult.testCaseId (results (Engine.resultHandler (snd suite)))
     = ["search"; "broken"].
Proof. vm_compute. repeat split; reflexivity. Qed.



(** The start of the sample, with no configuration: the four calls are
    made and the three handles are set; when the context cannot be created
    the browser is left running and no page is set. *)
Example initialize_sample :
  let started := Initialize.initialize starter noConfig (fresh (blank false)) in
  let failed := Initialize.initialize starter noConfig (fresh (blank true)) in
  fst started = Normal tt
  /\ Initialize.started (snd started)
     = [Initialize.LaunchBrowser "chromium" true [];
        Initialize.NewContext
          {[ "viewport" := Initialize.Size {| Initialize.width := 1280;
                                              Initialize.height := 720 |};
             "ignoreHTTPSErrors" := Initialize.Flag false ]};
        Initialize.NewPage;
        Initialize.SetDefaultTimeout 30000]
  /\ page (Initialize.executor (snd started)) = Some thePage
  /\ fst failed = Throw (Js.Error "browser.newContext: Target closed")
  /\ Executor.browser (Initialize.executor (snd failed)) = Some theBrowser
  /\ page (Initialize.executor (snd failed)) = None.
Proof. vm_compute. repeat split; reflexivity. Qed.

Lemma initialize_spec_witness :
  Initialize.browserTypeOf noConfig ∈ Initialize.browserTypes
  /\ exists n : nat,
      (n <= 4)%nat
      /\ (fst (Initialize.initialize starter noConfig (fresh (blank true)))
          = Normal tt <-> n = 4%nat)
      /\ page (Initialize.executor
                 (snd (Initialize.initialize starter noConfig (fresh (blank true)))))
         = (if decide (3 <= n)%nat then Some thePage else None).
Proof.
  assert (Htype : Initialize.browserTypeOf noConfig ∈ Initialize.browserTypes)
    by (apply (bool_decide_unpack _); vm_compute; exact I).
  split; [exact Htype|].
  destruct (proj2 (InitializeFacts.initialize_spec starter noConfig
                     (fresh (blank true))) Htype)
    as (n & Hn & Hret & _ & _ & _ & Hpage).
  exists n. split; [exact Hn|]. split; [exact Hret | exact Hpage].
Defined.

(** On the sample form [smartFill] passes its validation at once, the
    forced click of [smartClick] goes through and [getElementText] returns
    the text without its padding. *)
Example utils_sample :
  fst (Utils.smartFill form utils "#q" "Node.js" noOptions empty) = Normal tt
  /\ fst (Utils.smartClick form utils "#go" noOptions empty) = Normal tt
  /\ fst (Utils.getElementText form utils "#total" noOptions empty)
     = Normal "Total: 3"
  /\ fst (Utils.elementExists form "#total" empty) = Normal true.
Proof. vm_compute. repeat split; reflexivity. Qed.

Lemma smartFill_validated_witness :
  exists before,
    Utils.log (snd (Utils.smartFill form utils "#q" "Node.js" noOptions empty))
    = before ++ Utils.filled "#q" "Node.js".
Proof.
  exact (UtilsFacts.smartFill_validated form utils "#q" "Node.js" noOptions empty
           (snd (Utils.smartFill form utils "#q" "Node.js" noOptions empty))
           eq_refl).
Defined.

Lemma smartClick_clicked_witness :
  exists before op,
    Utils.log (snd (Utils.smartClick form utils "#go" noOptions empty))
    = before ++ [Utils.Called op (Normal None)]
    /\ op ∈ Utils.clicks utils "#go" noOptions.
Proof.
  exact (UtilsFacts.smartClick_clicked form utils "#go" noOptions empty
           (snd (Utils.smartClick form utils "#go" noOptions empty)) eq_refl).
Defined.

Lemma getElementText_trimmed_witness :
  Executor.trim "Total: 3" = "Total: 3"
  /\ ("Total: 3" = ""
      \/ exists op raw,
           Utils.Called op (Normal (Some raw))
             ∈ Utils.log (snd (Utils.getElementText form utils "#total"
                                 noOptions empty))
           /\ op ∈ Utils.reads "#total"
           /\ "Total: 3" = Executor.trim raw).
Proof.
  exact (UtilsFacts.getElementText_trimmed form utils "#total" noOptions empty
           (snd (Utils.getElementText form utils "#total" noOptions empty))
           "Total: 3" eq_refl).
Defined.

End MoreExamples.
